(** * spo-rag: the index lifecycle (vector store, crawler, watcher, routes)

    A shallow embedding of the TypeScript sources

      - [src/shared/vector-store.ts]   (class [VectorStore])
      - [src/shared/types.ts]
      - [src/crawler/indexer.ts]       (class [Indexer])
      - [src/crawler/document-processor.ts]
      - [src/crawler/index.ts]         (function [main])
      - [src/api/services/index-watcher.ts] (class [IndexWatcher])
      - [src/api/routes/query.ts], [src/api/routes/crawler.ts]
      - [src/api/server.ts]            (class [Server])
      - [src/crawler/sharepoint-client.ts] ([getContentType])

    Conventions of the embedding.

    - The file system is reduced to the three sibling directories the
      program touches: the production index path [config.faiss.indexPath],
      [indexPath + ".tmp"] and [indexPath + ".backup"].  A directory is a
      finite map from file names to file contents.
    - An [async] method is a computation in the monad [M]: it threads the
      [World] (file system, the fields of the [VectorStore] object, the
      logger output) and either returns a value or throws.  Effects done
      before a [throw] persist, as in JavaScript.
    - Every fallible I/O primitive first consults an oracle ([faults]); the
      oracle lets any single I/O call fail, which is how "any I/O error" is
      quantified over.
    - Third-party libraries (FAISS store, text splitter, PDF and Word
      extractors, the LLM chain) are outside the repository.  The store is
      abstracted to whether it has an index and the list of documents it
      holds; the others are parameters of the section that uses them.
    - A JavaScript string is a sequence of UTF-16 code units.  A [string]
      here is a sequence of code units below 256, one [ascii] each: the
      texts of the embedding are the Latin-1 texts, and [is_js_space] and
      [lower_char] are [String.prototype.trim]'s white space and
      [toLowerCase] on that range. *)

From stdpp Require Import gmap strings list fin_maps.
From Stdlib Require Import Lia.


(** ** Data model ([src/shared/types.ts]) *)

Record DocumentMetadata := mkDocumentMetadata {
  doc_id : string;
  doc_filename : string;
  doc_url : string;
  doc_path : string;
  doc_modified : nat;
  doc_size : nat;
  doc_contentType : string;
  doc_library : string
}.

Record ChunkMetadata := mkChunkMetadata {
  documentId : string;
  filename : string;
  url : string;
  chunkIndex : nat;
  chunk_totalChunks : nat
}.

Record DocumentChunk := mkDocumentChunk {
  content : string;
  metadata : ChunkMetadata
}.

Record ProcessedDocument := mkProcessedDocument {
  pd_metadata : DocumentMetadata;
  pd_content : string;
  pd_chunks : list DocumentChunk
}.

Record CrawlError := mkCrawlError {
  err_filename : string;
  err_error : string;
  err_timestamp : nat
}.

Record IndexStats := mkIndexStats {
  totalDocuments : nat;
  totalChunks : nat;
  lastUpdated : nat;
  indexSize : nat
}.

(** A LangChain [Document]: [{ pageContent, metadata }]. *)
Record Document := mkDocument {
  pageContent : string;
  doc_meta : ChunkMetadata
}.

(** The in-memory [FaissStore] of the library, abstracted to the documents
    it indexes (the embedding vectors play no role in any property below).
    A store has no index ([_index] is undefined) until a vector is added
    to it; a store read from disk has the index it read. *)
Inductive FaissStore :=
| Uninitialised
| Indexed (docs : list Document).

Definition store_docs (store : FaissStore) : list Document :=
  match store with
  | Uninitialised => []
  | Indexed docs => docs
  end.

(** [store.addDocuments(docs)]: [addVectors] returns at once when it is
    given no vector, and creates the index when there is none yet. *)
Definition store_add (store : FaissStore) (docs : list Document) : FaissStore :=
  match docs with
  | [] => store
  | _ :: _ => Indexed (store_docs store ++ docs)
  end.

(** [FaissStore.fromDocuments(docs, embeddings)]: a new store, to which
    the documents are added. *)
Definition fromDocuments (docs : list Document) : FaissStore :=
  store_add Uninitialised docs.

(** ** Errors *)

(** [error.code] of a Node [fs] failure. *)
Inductive errcode := EEXIST | ENOENT | ENOTEMPTY | EIO.

Inductive error :=
| FsError (code : errcode)
    (* a rejected [fs] call *)
| IndexNotFound
    (* [new Error(`Index not found at ${config.faiss.indexPath}`)] *)
| LockTimeout
    (* [new Error('Failed to acquire lock after maximum retries')] *)
| NotLoaded
    (* [new Error('Vector store not loaded')] *)
| SyntaxError
    (* thrown by [JSON.parse] *)
| Failure (message : string)
    (* any other [new Error(message)] *)
| LibraryError (what : string)
    (* a failure raised inside a third-party library *)
| AppError (message : string) (statusCode : nat).
    (* [new AppError(message, statusCode)] of the API middleware *)

Inductive result (A : Type) :=
| Ok (a : A)
| Err (e : error).
Arguments Ok {A} a.
Arguments Err {A} e.

Definition is_ok {A} (r : result A) : bool :=
  match r with Ok _ => true | Err _ => false end.

(** The [message] of a thrown value, as [error.message] reads it. *)
Definition error_message (e : error) : string :=
  match e with
  | FsError EEXIST => "EEXIST: file already exists"
  | FsError ENOENT => "ENOENT: no such file or directory"
  | FsError ENOTEMPTY => "ENOTEMPTY: directory not empty"
  | FsError EIO => "EIO: i/o error"
  | IndexNotFound => "Index not found"
  | LockTimeout => "Failed to acquire lock after maximum retries"
  | NotLoaded => "Vector store not loaded"
  | SyntaxError => "Unexpected token in JSON"
  | Failure message => message
  | LibraryError what => what
  | AppError message _ => message
  end.

(** ** The file system *)

(** A JSON value.  Numbers are kept as naturals: the numbers this
    program writes are counts, sizes and process ids. *)
#[warnings="-register-all"] Inductive json :=
| JNull
| JBool (b : bool)
| JNumber (n : nat)
| JString (s : string)
| JArray (items : list json)
| JObject (fields : list (string * json)).

(** What a file holds.  A file is identified with what its readers make of
    it: [FaissStore.load] succeeds exactly on a [FaissIndexFile] next to a
    [DocstoreFile]; [JSON.parse] succeeds on every text that is JSON,
    which all but the binary index and [Garbage] are. *)
Inductive blob :=
| PidText (pid : nat)
    (* [process.pid.toString()] *)
| StatsJson (s : IndexStats)
    (* [JSON.stringify(s, null, 2)] *)
| FaissIndexFile (docs : list Document)
    (* the binary index written by the library *)
| DocstoreFile (docs : list Document)
    (* the document store written by the library, a JSON array *)
| JsonText (j : json)
    (* any other JSON text, with the value it denotes *)
| Garbage (text : string).
    (* a text that is not JSON *)

(** What a variable of type [IndexStats | null] holds at run time when it
    is not [null].  [save] is given an object whose [lastUpdated] is a
    [Date]; [loadStats] assigns whatever [JSON.parse] returned for the
    sidecar, without checking it: for the text [JSON.stringify] wrote that
    is the same object with [lastUpdated] as a string, for another JSON
    text it is the value of that text. *)
Inductive stats_value :=
| StatsObject (s : IndexStats)
| Parsed (b : blob).

Definition json_truthy (j : json) : bool :=
  match j with
  | JNull => false
  | JBool b => b
  | JNumber n => negb (Nat.eqb n 0)
  | JString s => negb (String.eqb s EmptyString)
  | JArray _ | JObject _ => true
  end.

(** The truth value [!stats] negates. *)
Definition truthy (v : stats_value) : bool :=
  match v with
  | StatsObject _ => true
  | Parsed (JsonText j) => json_truthy j
  | Parsed (PidText n) => negb (Nat.eqb n 0)
  | Parsed _ => true
  end.

Inductive place := Production | Temp | Backup.

Record FS := mkFS {
  production : option (gmap string blob);
  temp : option (gmap string blob);
  backup : option (gmap string blob)
}.

Definition dir_at (p : place) (f : FS) : option (gmap string blob) :=
  match p with
  | Production => production f
  | Temp => temp f
  | Backup => backup f
  end.

Definition put_dir (p : place) (d : option (gmap string blob)) (f : FS) : FS :=
  match p with
  | Production => mkFS d (temp f) (backup f)
  | Temp => mkFS (production f) d (backup f)
  | Backup => mkFS (production f) (temp f) d
  end.

(** [path.join(config.faiss.indexPath, '.lock')] and the other file names. *)
Definition lock_name : string := ".lock".
Definition stats_name : string := "stats.json".
Definition docstore_name : string := "docstore.json".
Definition faiss_name : string := "faiss.index".

(** [existsSync(dir)] and [existsSync(path.join(dir, name))]. *)
Definition fs_exists_dir (p : place) (f : FS) : bool :=
  match dir_at p f with Some _ => true | None => false end.

Definition fs_exists_file (p : place) (name : string) (f : FS) : bool :=
  match dir_at p f with
  | Some d => match d !! name with Some _ => true | None => false end
  | None => false
  end.

(** [fs.mkdir(dir, { recursive: true })]: creates the directory when it is
    absent, succeeds silently when it is there. *)
Definition fs_mkdir_p (p : place) (f : FS) : result FS :=
  match dir_at p f with
  | Some _ => Ok f
  | None => Ok (put_dir p (Some ∅) f)
  end.

(** [fs.writeFile(path, data, { flag })]; [wx = true] is the flag ['wx']:
    the call fails with [EEXIST] when the file is already there. *)
Definition fs_writeFile (wx : bool) (p : place) (name : string) (b : blob)
    (f : FS) : result FS :=
  match dir_at p f with
  | None => Err (FsError ENOENT)
  | Some d =>
      match d !! name with
      | Some _ =>
          if wx then Err (FsError EEXIST)
          else Ok (put_dir p (Some (<[name := b]> d)) f)
      | None => Ok (put_dir p (Some (<[name := b]> d)) f)
      end
  end.

Definition fs_readFile (p : place) (name : string) (f : FS) : result blob :=
  match dir_at p f with
  | None => Err (FsError ENOENT)
  | Some d =>
      match d !! name with
      | Some b => Ok b
      | None => Err (FsError ENOENT)
      end
  end.

Definition fs_unlink (p : place) (name : string) (f : FS) : result FS :=
  match dir_at p f with
  | None => Err (FsError ENOENT)
  | Some d =>
      match d !! name with
      | Some _ => Ok (put_dir p (Some (delete name d)) f)
      | None => Err (FsError ENOENT)
      end
  end.

(** [fs.rm(dir, { recursive: true, force: true })]. *)
Definition fs_rm_rf (p : place) (f : FS) : result FS :=
  Ok (put_dir p None f).

(** [fs.rename(src, dst)] on directories, as rename(2): the source must
    exist; an existing destination is replaced only when it is empty. *)
Definition fs_rename (src dst : place) (f : FS) : result FS :=
  match dir_at src f with
  | None => Err (FsError ENOENT)
  | Some d =>
      match dir_at dst f with
      | None => Ok (put_dir src None (put_dir dst (Some d) f))
      | Some d' =>
          if bool_decide (size d' = 0)
          then Ok (put_dir src None (put_dir dst (Some d) f))
          else Err (FsError ENOTEMPTY)
      end
  end.

(** What [FaissStore.save(dir)] of the library does for a store that has
    an index: it creates [dir] when needed and writes the index file and
    the document store into it. *)
Definition fs_faiss_save (v : list Document) (p : place) (f : FS) : result FS :=
  let d := default ∅ (dir_at p f) in
  Ok (put_dir p
        (Some (<[docstore_name := DocstoreFile v]>
                 (<[faiss_name := FaissIndexFile v]> d))) f).

(** [FaissStore.load(dir, embeddings)] of the library: reads both files. *)
Definition fs_faiss_load (p : place) (f : FS) : result FaissStore :=
  match dir_at p f with
  | None => Err (FsError ENOENT)
  | Some d =>
      match d !! faiss_name, d !! docstore_name with
      | Some (FaissIndexFile _), Some (DocstoreFile v) => Ok (Indexed v)
      | None, _ | _, None => Err (FsError ENOENT)
      | _, _ => Err (LibraryError "faiss: unreadable index")
      end
  end.

(** [JSON.parse(data)]: the value of the text, [None] for [null]; a
    text that is not JSON is a [SyntaxError]. *)
Definition JSON_parse (b : blob) : result (option stats_value) :=
  match b with
  | FaissIndexFile _ | Garbage _ => Err SyntaxError
  | JsonText JNull => Ok None
  | _ => Ok (Some (Parsed b))
  end.

(** [JSON.stringify(stats, null, 2)]. *)
Definition JSON_stringify (s : IndexStats) : blob := StatsJson s.

(** ** The world: file system, the [VectorStore] object, observable output *)

Inductive level := Error | Warn | Info | Debug.

(** What the logger call carries besides its message. *)
Inductive payload :=
| NoData
| WithStats (s : option stats_value)
| WithError (message : string)
| WithErrors (errors : list CrawlError)
| WithExitCode (code : nat)
| WithSummary (documentsProcessed documentsSkipped totalChunks errorCount : nat).

(** Listeners registered with [on('indexUpdated', ...)]; the only ones in
    the repository are those of an [IndexWatcher], named here by the
    watcher that registered them. *)
Inductive listener := ReloadOnUpdate (watcher_id : nat).

Inductive event :=
| Log (lvl : level) (msg : string) (data : payload)
    (* a call of [logger.error/warn/info/debug]; interpolated values of the
       message are dropped, the metadata object is kept *)
| Sleep (ms : nat)
    (* [await new Promise(resolve => setTimeout(resolve, ms))] *)
| Wrote (after : FS)
    (* the file system right after one mutating [fs] call *)
| Enter_releaseLock
    (* [releaseLock()] was entered *)
| Emit (s : IndexStats)
    (* [this.emit('indexUpdated', stats)] *)
| ReloadInvoked (watcher_id : nat).
    (* the watcher called its [reloadCallback] *)

Record World := mkWorld {
  fs : FS;
  vectorStore : option FaissStore;   (* [this.vectorStore] *)
  stats : option stats_value;        (* [this.stats] *)
  listeners : list listener;         (* listeners of 'indexUpdated' *)
  pid : nat;                         (* [process.pid] *)
  events : list event;               (* newest first *)
  faults : list bool                 (* the I/O oracle: [true] = this call fails *)
}.

Definition set_fs (f : FS) (w : World) : World :=
  mkWorld f (vectorStore w) (stats w) (listeners w) (pid w) (events w) (faults w).
Definition set_vectorStore (v : option FaissStore) (w : World) : World :=
  mkWorld (fs w) v (stats w) (listeners w) (pid w) (events w) (faults w).
Definition set_stats (s : option stats_value) (w : World) : World :=
  mkWorld (fs w) (vectorStore w) s (listeners w) (pid w) (events w) (faults w).
Definition set_listeners (l : list listener) (w : World) : World :=
  mkWorld (fs w) (vectorStore w) (stats w) l (pid w) (events w) (faults w).
Definition push_event (e : event) (w : World) : World :=
  mkWorld (fs w) (vectorStore w) (stats w) (listeners w) (pid w)
          (e :: events w) (faults w).
Definition set_faults (o : list bool) (w : World) : World :=
  mkWorld (fs w) (vectorStore w) (stats w) (listeners w) (pid w) (events w) o.

(** ** The monad of [async] methods *)

Definition M (A : Type) : Type := World -> result A * World.

Definition ret {A} (a : A) : M A := fun w => (Ok a, w).

Definition bind {A B} (m : M A) (k : A -> M B) : M B :=
  fun w =>
    match m w with
    | (Ok a, w') => k a w'
    | (Err e, w') => (Err e, w')
    end.

Definition throw {A} (e : error) : M A := fun w => (Err e, w).

(** [try { m } catch (error) { h error }]. *)
Definition try_catch {A} (m : M A) (h : error -> M A) : M A :=
  fun w =>
    match m w with
    | (Ok a, w') => (Ok a, w')
    | (Err e, w') => h e w'
    end.

Notation "x <- m ;; k" := (bind m (fun x => k))
  (at level 100, m at next level, right associativity).
Notation "m ;; k" := (bind m (fun _ => k))
  (at level 100, right associativity).

Definition get {A} (proj : World -> A) : M A := fun w => (Ok (proj w), w).
Definition modify (f : World -> World) : M unit := fun w => (Ok tt, f w).

Definition log (lvl : level) (msg : string) (data : payload) : M unit :=
  modify (push_event (Log lvl msg data)).

(** One question to the oracle. *)
Definition tick : M bool :=
  fun w =>
    match faults w with
    | [] => (Ok false, w)
    | b :: rest => (Ok b, set_faults rest w)
    end.

(** A mutating [fs] call: it may fail on its own ([op] returns [Err]) or
    because the oracle says so; when it succeeds the new file system is
    recorded as one instant of the trace. *)
Definition io_write (op : FS -> result FS) : M unit :=
  fault <- tick ;;
  if (fault : bool) then throw (FsError EIO)
  else fun w =>
         match op (fs w) with
         | Ok f' => (Ok tt, push_event (Wrote f') (set_fs f' w))
         | Err e => (Err e, w)
         end.

Definition io_read {A} (op : FS -> result A) : M A :=
  fault <- tick ;;
  if (fault : bool) then throw (FsError EIO)
  else fun w => (op (fs w), w).

(** [existsSync] never throws. *)
Definition existsSync_dir (p : place) : M bool := get (fun w => fs_exists_dir p (fs w)).
Definition existsSync_file (p : place) (name : string) : M bool :=
  get (fun w => fs_exists_file p name (fs w)).

Definition lift {A} (r : result A) : M A := fun w => (r, w).

Fixpoint for_each {A} (l : list A) (body : A -> M unit) : M unit :=
  match l with
  | [] => ret tt
  | x :: rest => body x ;; for_each rest body
  end.

(** ** [VectorStore] ([src/shared/vector-store.ts]) *)

(** The body of the [while (retries < maxRetries)] loop of [acquireLock],
    by recursion on [maxRetries - retries].  One round either returns
    (lock acquired), rethrows an error whose code is not [EEXIST], or
    counts a retry, sleeps and goes round again. *)
Fixpoint acquireLock_loop (remaining retryDelay : nat) : M unit :=
  match remaining with
  | 0 => throw LockTimeout
  | S remaining' =>
      acquired <-
        try_catch
          (io_write (fs_mkdir_p Production) ;;
           p <- get pid ;;
           io_write (fs_writeFile true Production lock_name (PidText p)) ;;
           log Debug "Lock acquired" NoData ;;
           ret true)
          (fun e =>
             match e with
             | FsError EEXIST =>
                 log Debug "Lock file exists, retrying" NoData ;;
                 modify (push_event (Sleep retryDelay)) ;;
                 ret false
             | _ => throw e
             end) ;;
      if (acquired : bool) then ret tt
      else acquireLock_loop remaining' retryDelay
  end.

Definition acquireLock (maxRetries retryDelay : nat) : M unit :=
  acquireLock_loop maxRetries retryDelay.

(** The defaults [maxRetries = 30, retryDelay = 1000]. *)
Definition acquireLock_default : M unit := acquireLock 30 1000.

Definition releaseLock : M unit :=
  modify (push_event Enter_releaseLock) ;;
  try_catch
    (ex <- existsSync_file Production lock_name ;;
     if (ex : bool) then
       io_write (fs_unlink Production lock_name) ;;
       log Debug "Lock released" NoData
     else ret tt)
    (fun e => log Warn "Failed to release lock" (WithError (error_message e))).

Definition loadStats : M unit :=
  try_catch
    (ex <- existsSync_file Production stats_name ;;
     if (ex : bool) then
       data <- io_read (fs_readFile Production stats_name) ;;
       s <- lift (JSON_parse data) ;;
       modify (set_stats s)
     else ret tt)
    (fun e =>
       log Warn "Failed to load index stats" (WithError (error_message e)) ;;
       modify (set_stats None)).

Definition load : M FaissStore :=
  try_catch
    (acquireLock_default ;;
     ex <- existsSync_dir Production ;;
     (if (ex : bool) then ret tt else throw IndexNotFound) ;;
     log Info "Loading FAISS index from disk" NoData ;;
     v <- io_read (fs_faiss_load Production) ;;
     modify (set_vectorStore (Some v)) ;;
     loadStats ;;
     releaseLock ;;
     st <- get stats ;;
     log Info "FAISS index loaded successfully" (WithStats st) ;;
     ret v)
    (fun e =>
       releaseLock ;;
       log Error "Failed to load FAISS index" (WithError (error_message e)) ;;
       throw e).

(** One listener of 'indexUpdated' run by [emit].  The listener of an
    [IndexWatcher] logs and calls its reload callback; the callback's own
    work (a [load]) happens later, outside the emitting call. *)
Definition run_listener (s : IndexStats) (l : listener) : M unit :=
  match l with
  | ReloadOnUpdate id =>
      log Info "Index updated event received" (WithStats (Some (StatsObject s))) ;;
      modify (push_event (ReloadInvoked id))
  end.

(** [vectorStore.save(dir)] of the library: [fs.mkdir(dir, { recursive:
    true })], then the [index] getter, which throws for a store without
    index, then the two files. *)
Definition FaissStore_save (store : FaissStore) (p : place) : M unit :=
  match store with
  | Uninitialised =>
      io_write (fs_mkdir_p p) ;;
      throw (LibraryError
        "Vector store not initialised yet. Try calling `fromTexts`, `fromDocuments` or `fromIndex` first.")
  | Indexed docs => io_write (fs_faiss_save docs p)
  end.

(** [this.emit('indexUpdated', stats)]. *)
Definition emit_indexUpdated (s : IndexStats) : M unit :=
  modify (push_event (Emit s)) ;;
  ls <- get listeners ;;
  for_each ls (run_listener s).

Definition save (store : FaissStore) (st : IndexStats) : M unit :=
  try_catch
    (acquireLock_default ;;
     log Info "Saving FAISS index to disk" NoData ;;
     (* fs.mkdir(path.dirname(indexPath), { recursive: true }) *)
     io_write (fun f => Ok f) ;;
     (* vectorStore.save(tempPath) *)
     FaissStore_save store Temp ;;
     io_write (fs_writeFile false Temp stats_name (JSON_stringify st)) ;;
     ex <- existsSync_dir Production ;;
     (if (ex : bool) then
        exb <- existsSync_dir Backup ;;
        (if (exb : bool) then io_write (fs_rm_rf Backup) else ret tt) ;;
        io_write (fs_rename Production Backup)
      else ret tt) ;;
     io_write (fs_rename Temp Production) ;;
     modify (set_vectorStore (Some store)) ;;
     modify (set_stats (Some (StatsObject st))) ;;
     releaseLock ;;
     log Info "FAISS index saved successfully" (WithStats (Some (StatsObject st))) ;;
     emit_indexUpdated st)
    (fun e =>
       releaseLock ;;
       log Error "Failed to save FAISS index" (WithError (error_message e)) ;;
       throw e).

Definition getVectorStore : M FaissStore :=
  v <- get vectorStore ;;
  match v with
  | None => throw NotLoaded
  | Some store => ret store
  end.

Definition getStats : M (option stats_value) := get stats.

Definition indexExists : M bool :=
  a <- existsSync_dir Production ;;
  b <- existsSync_file Production docstore_name ;;
  ret (a && b).

(** A freshly constructed [VectorStore] in a process [p] over a file
    system [f]: nothing loaded, no listener, nothing logged. *)
Definition fresh (f : FS) (p : nat) (oracle : list bool) : World :=
  mkWorld f None None [] p [] oracle.


(** A failure of a third-party call that does no file I/O of its own here
    (embedding while building a store). *)
Definition external {A} (what : string) (a : A) : M A :=
  fault <- tick ;;
  if (fault : bool) then throw (LibraryError what) else ret a.

(** ** Text helpers ([String.prototype.trim], [replace], [split], [join]) *)

Definition LF : Ascii.ascii := Ascii.ascii_of_nat 10.
Definition CR : Ascii.ascii := Ascii.ascii_of_nat 13.
Definition SP : Ascii.ascii := Ascii.ascii_of_nat 32.

(** The white space and line terminators [trim] removes: U+0009 to
    U+000D, U+0020 and U+00A0 (the others lie above U+00FF). *)
Definition is_js_space (c : Ascii.ascii) : bool :=
  let n := Ascii.nat_of_ascii c in
  (Nat.leb 9 n && Nat.leb n 13) || Nat.eqb n 32 || Nat.eqb n 160.

Definition is_empty (s : string) : bool :=
  match s with EmptyString => true | String _ _ => false end.

Fixpoint trimStart (s : string) : string :=
  match s with
  | EmptyString => EmptyString
  | String c rest => if is_js_space c then trimStart rest else s
  end.

Fixpoint trimEnd (s : string) : string :=
  match s with
  | EmptyString => EmptyString
  | String c rest =>
      let rest' := trimEnd rest in
      if is_js_space c && is_empty rest' then EmptyString else String c rest'
  end.

Definition trim (s : string) : string := trimEnd (trimStart s).

(** [.replace(/\r\n/g, '\n')] *)
Fixpoint replace_crlf (s : string) : string :=
  match s with
  | String c1 (String c2 rest as tail) =>
      if Ascii.eqb c1 CR && Ascii.eqb c2 LF
      then String LF (replace_crlf rest)
      else String c1 (replace_crlf tail)
  | other => other
  end.

(** [.replace(/\r/g, '\n')] *)
Fixpoint replace_cr (s : string) : string :=
  match s with
  | EmptyString => EmptyString
  | String c rest =>
      String (if Ascii.eqb c CR then LF else c) (replace_cr rest)
  end.

(** [.replace(/c{keep+1,}/g, c.repeat(keep))]: every run of [c] longer
    than [keep] is cut down to [keep]; [run] counts the run so far. *)
Fixpoint squeeze (c : Ascii.ascii) (keep run : nat) (s : string) : string :=
  match s with
  | EmptyString => EmptyString
  | String x rest =>
      if Ascii.eqb x c then
        if Nat.ltb run keep then String x (squeeze c keep (S run) rest)
        else squeeze c keep run rest
      else String x (squeeze c keep 0 rest)
  end.

(** [.split(sep)] for a one-character separator. *)
Fixpoint split_on (sep : Ascii.ascii) (s : string) : list string :=
  match s with
  | EmptyString => [EmptyString]
  | String c rest =>
      if Ascii.eqb c sep then EmptyString :: split_on sep rest
      else match split_on sep rest with
           | line :: more => String c line :: more
           | [] => [String c EmptyString]
           end
  end.

(** ** [DocumentProcessor] ([src/crawler/document-processor.ts]) *)

Definition rbind {A B} (r : result A) (k : A -> result B) : result B :=
  match r with
  | Ok a => k a
  | Err e => Err e
  end.

(** [cleanText] *)
Definition cleanText (text : string) : string :=
  let t1 := replace_crlf text in
  let t2 := replace_cr t1 in
  let t3 := squeeze LF 2 0 t2 in
  let t4 := squeeze SP 1 0 t3 in
  let t5 := String.concat (String LF EmptyString) (map trim (split_on LF t4)) in
  trim t5.

Section DocumentProcessor.

(** [pdf-parse] and [mammoth.extractRawText], on the bytes of a file. *)
Variable pdfParse : string -> result string.
Variable mammoth_extractRawText : string -> result string.

Definition processPDF (buffer : string) : result string :=
  match pdfParse buffer with
  | Ok text => Ok text
  | Err e => Err (Failure ("PDF parsing failed: " +:+ error_message e))
  end.

Definition processWord (buffer : string) : result string :=
  match mammoth_extractRawText buffer with
  | Ok value => Ok value
  | Err e => Err (Failure ("Word document parsing failed: " +:+ error_message e))
  end.

(** The logger calls of this class are not part of the embedding. *)
Definition processDocument (buffer : string) (metadata : DocumentMetadata)
    : result ProcessedDocument :=
  rbind
    (if String.eqb (doc_contentType metadata) "application/pdf"
     then processPDF buffer
     else if String.eqb (doc_contentType metadata)
               "application/vnd.openxmlformats-officedocument.wordprocessingml.document"
             || String.eqb (doc_contentType metadata) "application/msword"
     then processWord buffer
     else Err (Failure ("Unsupported content type: " +:+ doc_contentType metadata)))
    (fun extracted =>
       let content := cleanText extracted in
       if is_empty content || is_empty (trim content)
       then Err (Failure "No text content extracted from document")
       else Ok (mkProcessedDocument metadata content [])).

End DocumentProcessor.

(** ** [Indexer] ([src/crawler/indexer.ts]) *)

(** The [map] of [chunkDocument]: one chunk per segment, numbered in
    order, each carrying the number of segments of its document. *)
Definition make_chunks (doc : ProcessedDocument) (textChunks : list string)
    : list DocumentChunk :=
  let totalChunks := length textChunks in
  imap (fun index content =>
          mkDocumentChunk content
            (mkChunkMetadata (doc_id (pd_metadata doc))
               (doc_filename (pd_metadata doc))
               (doc_url (pd_metadata doc))
               index totalChunks))
       textChunks.

(** [new Document({ pageContent: chunk.content, metadata: chunk.metadata })] *)
Definition to_Document (chunk : DocumentChunk) : Document :=
  mkDocument (content chunk) (metadata chunk).

Section Indexer.

(** [RecursiveCharacterTextSplitter.splitText] of LangChain, built with
    [config.faiss.chunkSize] and [config.faiss.chunkOverlap].  Where the
    segment boundaries fall is decided inside that library. *)
Variable splitText : string -> result (list string).

Definition chunkDocument (doc : ProcessedDocument) : M (list DocumentChunk) :=
  try_catch
    (textChunks <- lift (splitText (pd_content doc)) ;;
     let chunks := make_chunks doc textChunks in
     log Debug "Split into chunks" NoData ;;
     ret chunks)
    (fun e =>
       log Error "Failed to chunk document" (WithError (error_message e)) ;;
       throw e).

(** The outer [for] loop of [createIndex] and [addDocuments]: it sets
    [doc.chunks] on each document (the documents are the caller's
    objects, so the caller sees the chunks afterwards) and collects the
    LangChain documents. *)
Fixpoint chunk_all (documents : list ProcessedDocument)
    : M (list ProcessedDocument * list Document) :=
  match documents with
  | [] => ret ([], [])
  | doc :: rest =>
      chunks <- chunkDocument doc ;;
      r <- chunk_all rest ;;
      ret (mkProcessedDocument (pd_metadata doc) (pd_content doc) chunks :: fst r,
           map to_Document chunks ++ snd r)
  end.

(** [createIndex]; the result pairs the new store with the documents as
    the loop left them. *)
Definition createIndex (documents : list ProcessedDocument)
    : M (FaissStore * list ProcessedDocument) :=
  try_catch
    (log Info "Creating FAISS index for documents" NoData ;;
     r <- chunk_all documents ;;
     log Info "Created chunks from documents" NoData ;;
     (* FaissStore.fromDocuments(allChunks, this.embeddings) *)
     store <- external "embeddings" (fromDocuments (snd r)) ;;
     log Info "FAISS index created successfully" NoData ;;
     ret (store, fst r))
    (fun e =>
       log Error "Failed to create FAISS index" (WithError (error_message e)) ;;
       throw e).

(** [addDocuments(vectorStore, documents)]; the store is returned with
    the new documents added. *)
Definition addDocuments (store : FaissStore) (documents : list ProcessedDocument)
    : M (FaissStore * list ProcessedDocument) :=
  try_catch
    (log Info "Adding documents to existing index" NoData ;;
     r <- chunk_all documents ;;
     store' <- external "embeddings" (store_add store (snd r)) ;;
     log Info "Added chunks to index" NoData ;;
     ret (store', fst r))
    (fun e =>
       log Error "Failed to add documents to index" (WithError (error_message e)) ;;
       throw e).

End Indexer.

(** ** The crawler entry point ([src/crawler/index.ts]) *)

(** The locals of [main] that the loop updates. *)
Record CrawlState := mkCrawlState {
  errors : list CrawlError;
  documentsProcessed : nat;
  documentsSkipped : nat;
  processedDocuments : list ProcessedDocument
}.

Definition sum_chunks (docs : list ProcessedDocument) : nat :=
  foldl (fun sum doc => sum + length (pd_chunks doc)) 0 docs.

Section Crawler.

(** The collaborators of the crawler: the SharePoint client, the two
    extractors, the text splitter, and the clock read by [new Date()]. *)
Variable sp_initialize : result unit.
Variable listDocuments : result (list DocumentMetadata).
Variable downloadDocument : string -> result string.
Variable pdfParse : string -> result string.
Variable mammoth_extractRawText : string -> result string.
Variable splitText : string -> result (list string).
Variable now : nat.

(** Download and extraction of one document: the two awaited calls in
    the [try] block of the loop. *)
Definition fetch_and_process (docMetadata : DocumentMetadata)
    : result ProcessedDocument :=
  rbind (downloadDocument (doc_path docMetadata))
    (fun buffer =>
       processDocument pdfParse mammoth_extractRawText buffer docMetadata).

(** One round of [for (const docMetadata of documents)]. *)
Definition crawl_one (cs : CrawlState) (docMetadata : DocumentMetadata)
    : M CrawlState :=
  try_catch
    (log Info "Processing" NoData ;;
     processedDoc <- lift (fetch_and_process docMetadata) ;;
     log Info "Successfully processed" NoData ;;
     ret (mkCrawlState (errors cs) (S (documentsProcessed cs))
            (documentsSkipped cs)
            (processedDocuments cs ++ [processedDoc])))
    (fun e =>
       let errorMessage := error_message e in
       log Error "Failed to process" (WithError errorMessage) ;;
       ret (mkCrawlState
              (errors cs ++ [mkCrawlError (doc_filename docMetadata) errorMessage now])
              (documentsProcessed cs)
              (S (documentsSkipped cs))
              (processedDocuments cs))).

Fixpoint crawl_loop (documents : list DocumentMetadata) (cs : CrawlState)
    : M CrawlState :=
  match documents with
  | [] => ret cs
  | docMetadata :: rest =>
      cs' <- crawl_one cs docMetadata ;;
      crawl_loop rest cs'
  end.

(** [new VectorStore()]: a new object, with nothing loaded and no
    listener, over the same file system. *)
Definition new_VectorStore : M unit :=
  modify (fun w => set_listeners [] (set_stats None (set_vectorStore None w))).

(** [main]; the result is the exit code given to [process.exit]. *)
Definition main : M nat :=
  try_catch
    (log Info "Starting SharePoint crawler" NoData ;;
     lift sp_initialize ;;
     documents <- lift listDocuments ;;
     log Info "Found documents to process" NoData ;;
     cs <- crawl_loop documents (mkCrawlState [] 0 0 []) ;;
     log Info "Creating FAISS index" NoData ;;
     built <- createIndex splitText (processedDocuments cs) ;;
     let vectorStore := fst built in
     let totalChunks := sum_chunks (snd built) in
     let stats := mkIndexStats (documentsProcessed cs) totalChunks now 0 in
     log Info "Saving FAISS index" NoData ;;
     new_VectorStore ;;
     save vectorStore stats ;;
     log Info "Crawl completed"
       (WithSummary (documentsProcessed cs) (documentsSkipped cs) totalChunks
          (length (errors cs))) ;;
     (if Nat.ltb 0 (length (errors cs))
      then log Warn "Crawl completed with errors" (WithErrors (errors cs))
      else ret tt) ;;
     ret 0)
    (fun e =>
       log Error "Crawl failed" (WithError (error_message e)) ;;
       ret 1).

End Crawler.

(** ** [IndexWatcher] ([src/api/services/index-watcher.ts]) *)

(** The [FSWatcher]s the calls of [start] have created, newest first,
    each [true] while it is open.  [this.watcher] is the newest one:
    [start] overwrites the field, and an [FSWatcher] that is no longer
    referenced stays open. *)
Record IndexWatcher := mkIndexWatcher {
  watcher_id : nat;
  fswatchers : list bool
}.

(** [this.watcher]: [None] while [undefined]. *)
Definition watcher (iw : IndexWatcher) : option bool := head (fswatchers iw).

Definition start (iw : IndexWatcher) : M IndexWatcher :=
  ex <- existsSync_dir Production ;;
  if (ex : bool) then
    log Info "Starting index file watcher" NoData ;;
    (* this.watcher = watch(indexPath, ...) *)
    (* this.vectorStoreManager.on('indexUpdated', ...) *)
    modify (fun w => set_listeners (listeners w ++ [ReloadOnUpdate (watcher_id iw)]) w) ;;
    ret (mkIndexWatcher (watcher_id iw) (true :: fswatchers iw))
  else
    log Warn "Index path does not exist. Watcher not started." NoData ;;
    ret iw.

Definition stop (iw : IndexWatcher) : M IndexWatcher :=
  iw' <- match fswatchers iw with
         | _ :: older =>
             (* this.watcher.close() *)
             log Info "Index file watcher stopped" NoData ;;
             ret (mkIndexWatcher (watcher_id iw) (false :: older))
         | [] => ret iw
         end ;;
  (* this.vectorStoreManager.removeAllListeners('indexUpdated') *)
  modify (set_listeners []) ;;
  ret iw'.

(** The callback given to [fs.watch], up to the call of the reload
    callback. *)
Definition on_fs_event (iw : IndexWatcher) (eventType filename : string) : M unit :=
  if String.eqb filename "stats.json" && String.eqb eventType "change" then
    log Info "Index update detected, reloading..." NoData ;;
    modify (push_event (ReloadInvoked (watcher_id iw)))
  else ret tt.

(** A change in the index directory reaches the callback once through
    every [FSWatcher] that was created and not closed. *)
Definition deliver_fs_event (iw : IndexWatcher) (eventType filename : string)
    : M unit :=
  for_each (List.filter (fun open => open) (fswatchers iw))
           (fun _ => on_fs_event iw eventType filename).

(** The reload callback of [src/api/server.ts] with the [try/catch] both
    listeners put around it: the part that runs after the call recorded by
    [ReloadInvoked]. *)
Definition reload : M unit :=
  try_catch
    (load ;; log Info "Index reloaded successfully" NoData)
    (fun e => log Error "Failed to reload index" (WithError (error_message e))).

(** What can happen to a reader process after [start]. *)
Inductive action :=
| DoSave (store : FaissStore) (st : IndexStats)
| DoLoad
| DoReload
| FsEvent (eventType filename : string).

Definition run_action (iw : IndexWatcher) (a : action) : M unit :=
  match a with
  | DoSave store st => try_catch (save store st) (fun _ => ret tt)
  | DoLoad => try_catch (load ;; ret tt) (fun _ => ret tt)
  | DoReload => reload
  | FsEvent eventType filename => deliver_fs_event iw eventType filename
  end.

Fixpoint run_actions (iw : IndexWatcher) (l : list action) (w : World) : World :=
  match l with
  | [] => w
  | a :: rest => run_actions iw rest (snd (run_action iw a w))
  end.

(** How often the reload callback of watcher [id] was called. *)
Fixpoint reloads_of (id : nat) (evs : list event) : nat :=
  match evs with
  | [] => 0
  | ReloadInvoked id' :: rest =>
      (if Nat.eqb id id' then 1 else 0) + reloads_of id rest
  | _ :: rest => reloads_of id rest
  end.

(** ** The query routes ([src/api/routes/query.ts]) *)

Record QueryRequest := mkQueryRequest {
  query : string;
  topK : option nat
}.

Record SourceDocument := mkSourceDocument {
  src_filename : string;
  src_url : string;
  src_content : string;
  src_score : nat
}.

Record QueryResponse := mkQueryResponse {
  answer : string;
  sources : list SourceDocument
}.

Section QueryRouter.

(** [RetrievalQAChain.fromLLM(llm, vectorStore.asRetriever(topK))] and
    [chain.call({ query })]: the answer and the source documents, each
    with the score its metadata may carry. *)
Variable chain_call :
  FaissStore -> string -> nat -> result (string * list (Document * option nat)).

Definition format_source (d : Document * option nat) : SourceDocument :=
  mkSourceDocument (filename (doc_meta (fst d))) (url (doc_meta (fst d)))
    (pageContent (fst d)) (default 0 (snd d)).

(** The handler of [POST /]; a thrown [AppError] is what the error
    middleware turns into the response. *)
Definition post_query (req : QueryRequest) : M QueryResponse :=
  let q := query req in
  let k := default 4 (topK req) in
  (if is_empty q || is_empty (trim q)
   then throw (AppError "Query is required" 400)
   else ret tt) ;;
  log Info "Processing query" NoData ;;
  try_catch
    (store <- getVectorStore ;;
     r <- lift (chain_call store q k) ;;
     let response := mkQueryResponse (fst r) (map format_source (snd r)) in
     log Info "Query processed successfully" NoData ;;
     ret response)
    (fun e =>
       log Error "Failed to process query" (WithError (error_message e)) ;;
       throw (AppError "Failed to process query" 500)).

(** The handler of [GET /stats]; [!stats] holds for [null] and for the
    values JavaScript takes as false. *)
Definition get_stats_route : M stats_value :=
  s <- getStats ;;
  match s with
  | None => throw (AppError "Index stats not available" 404)
  | Some st =>
      if truthy st then ret st
      else throw (AppError "Index stats not available" 404)
  end.

End QueryRouter.

(** ** The crawler routes ([src/api/routes/crawler.ts]) *)

(** The closure state of [createCrawlerRouter] and the child processes it
    has spawned that have not closed yet. *)
Record CrawlerRouter := mkCrawlerRouter {
  crawlInProgress : bool;
  children : nat;
  spawned : nat
}.

Definition createCrawlerRouter : CrawlerRouter := mkCrawlerRouter false 0 0.

Inductive trigger_response :=
| Accepted                 (* [res.status(202).json({ status: 'accepted', ... })] *)
| Rejected (e : error).    (* the thrown [AppError] *)

(** The handler of [POST /trigger]. *)
Definition post_trigger (r : CrawlerRouter) : trigger_response * CrawlerRouter :=
  if crawlInProgress r
  then (Rejected (AppError "A crawl is already in progress" 409), r)
  else (Accepted, mkCrawlerRouter true (S (children r)) (S (spawned r))).

(** The ['close'] listener of a spawned child. *)
Definition on_close (code : nat) (r : CrawlerRouter) : CrawlerRouter :=
  mkCrawlerRouter false (pred (children r)) (spawned r).

(** The handler of [GET /status]. *)
Definition get_status (r : CrawlerRouter) : bool := crawlInProgress r.

(** One step of the router: a request is handled, or a child that is
    running closes. *)
Inductive router_step : CrawlerRouter -> CrawlerRouter -> Prop :=
| step_trigger r : router_step r (snd (post_trigger r))
| step_status r : router_step r r
| step_close r code : 0 < children r -> router_step r (on_close code r).

Inductive reachable : CrawlerRouter -> Prop :=
| reach_init : reachable createCrawlerRouter
| reach_step r r' : reachable r -> router_step r r' -> reachable r'.

(** ** [SharePointClient] ([src/crawler/sharepoint-client.ts]) *)

(** [String.prototype.toLowerCase] on one code unit below 256: the
    letters A to Z and U+00C0 to U+00DE, without the sign U+00D7. *)
Definition lower_char (c : Ascii.ascii) : Ascii.ascii :=
  let n := Ascii.nat_of_ascii c in
  if (Nat.leb 65 n && Nat.leb n 90)
     || (Nat.leb 192 n && Nat.leb n 222 && negb (Nat.eqb n 215))
  then Ascii.ascii_of_nat (n + 32) else c.

Fixpoint toLowerCase (s : string) : string :=
  match s with
  | EmptyString => EmptyString
  | String c rest => String (lower_char c) (toLowerCase rest)
  end.

Definition DOT : Ascii.ascii := Ascii.ascii_of_nat 46.

Module SharePointClient.

(** [getContentType]: [filename.toLowerCase().split('.').pop()] and the
    [switch] on it; [pop] of an empty array would be [undefined], which
    takes the [default] branch. *)
Definition getContentType (filename : string) : string :=
  match last (split_on DOT (toLowerCase filename)) with
  | Some ext =>
      if String.eqb ext "pdf" then "application/pdf"
      else if String.eqb ext "docx"
      then "application/vnd.openxmlformats-officedocument.wordprocessingml.document"
      else if String.eqb ext "doc" then "application/msword"
      else "application/octet-stream"
  | None => "application/octet-stream"
  end.

End SharePointClient.

(** ** The API server ([src/api/server.ts]) *)

Module Server.

(** The fields of [Server] that change: [this.indexWatcher], and the
    closure state of the crawler router mounted by [setupRoutes]. *)
Record server := mkServer {
  indexWatcher : option IndexWatcher;
  crawlerRouter : CrawlerRouter
}.

(** [new Server()] *)
Definition new : server := mkServer None createCrawlerRouter.

(** The body of [GET /health]. *)
Record health := mkHealth {
  indexLoaded : bool;
  health_stats : option stats_value
}.

Inductive request :=
| GET_health
| POST_api_query (body : QueryRequest)
| GET_api_query_stats
| POST_api_crawler_trigger
| GET_api_crawler_status
| Other_route.

Inductive response :=
| Health (h : health)
| Answer (r : QueryResponse)
| Stats (s : stats_value)
| CrawlAccepted
| CrawlStatus (inProgress : bool)
| RouteNotFound.

(** What happens to a server process once it listens. *)
Inductive server_event :=
| Request (req : request)
    (* a request arrives *)
| DiskChanged (f : FS)
    (* another process (a crawler) changed the directories *)
| WatchEvent (eventType filename : string)
    (* [fs.watch] reports a change in the watched directory *)
| ChildClosed (code : nat).
    (* a spawned crawler exits *)

(** [initialize]; the watcher the server creates is watcher 0. *)
Definition initialize (s : server) : M server :=
  try_catch
    (log Info "Initializing server..." NoData ;;
     ex <- indexExists ;;
     iw <- (if (ex : bool) then
              load ;;
              log Info "FAISS index loaded successfully" NoData ;;
              iw <- start (mkIndexWatcher 0 []) ;;
              ret (Some iw)
            else
              log Warn "FAISS index not found. Please run the crawler first." NoData ;;
              log Warn "Server will start but queries will fail until index is created."
                  NoData ;;
              ret (indexWatcher s)) ;;
     (* setupMiddleware(); setupRoutes(); setupErrorHandling() *)
     log Info "Server initialized successfully" NoData ;;
     ret (mkServer iw createCrawlerRouter))
    (fun e =>
       log Error "Failed to initialize server" (WithError (error_message e)) ;;
       throw e).

(** The handler of [GET /health]. *)
Definition get_health : M health :=
  st <- getStats ;;
  ret (mkHealth (match st with Some _ => true | None => false end) st).

Section Routes.

Variable chain_call :
  FaissStore -> string -> nat -> result (string * list (Document * option nat)).

(** One request through the request logger and the routes of
    [setupRoutes]; an error thrown by a handler goes to the error
    middleware. *)
Definition handle (s : server) (req : request) : M (response * server) :=
  log Info "Incoming request" NoData ;;
  match req with
  | GET_health => h <- get_health ;; ret (Health h, s)
  | POST_api_query body => r <- post_query chain_call body ;; ret (Answer r, s)
  | GET_api_query_stats => st <- get_stats_route ;; ret (Stats st, s)
  | POST_api_crawler_trigger =>
      match post_trigger (crawlerRouter s) with
      | (Accepted, router) =>
          log Info "Manual crawl triggered" NoData ;;
          ret (CrawlAccepted, mkServer (indexWatcher s) router)
      | (Rejected e, _) => throw e
      end
  | GET_api_crawler_status => ret (CrawlStatus (get_status (crawlerRouter s)), s)
  | Other_route => ret (RouteNotFound, s)
  end.

(** The callback the watcher gave to [fs.watch], with the reload it
    awaits, once for every [FSWatcher] that is open; [initialize] calls
    [start] once, so that a server has at most one. *)
Definition watch_callback (iw : IndexWatcher) (eventType filename : string) : M unit :=
  for_each (List.filter (fun open => open) (fswatchers iw))
    (fun _ =>
       if String.eqb filename "stats.json" && String.eqb eventType "change" then
         on_fs_event iw eventType filename ;; reload
       else ret tt).

(** One event in the life of the process. *)
Definition step (s : server) (ev : server_event) : M server :=
  match ev with
  | Request req => r <- handle s req ;; ret (snd r)
  | DiskChanged f => modify (set_fs f) ;; ret s
  | WatchEvent eventType filename =>
      match indexWatcher s with
      | Some iw => watch_callback iw eventType filename ;; ret s
      | None => ret s
      end
  | ChildClosed code =>
      if Nat.ltb 0 (children (crawlerRouter s)) then
        (if Nat.eqb code 0 then log Info "Crawl completed successfully" NoData
         else log Error "Crawl failed" (WithExitCode code)) ;;
        ret (mkServer (indexWatcher s) (on_close code (crawlerRouter s)))
      else ret s
  end.

(** A run of the process; an event whose handling throws (the error goes
    to the error middleware) leaves the server object as it was. *)
Fixpoint run (s : server) (evs : list server_event) (w : World) : server * World :=
  match evs with
  | [] => (s, w)
  | ev :: rest =>
      match step s ev w with
      | (Ok s', w') => run s' rest w'
      | (Err _, w') => run s rest w'
      end
  end.

End Routes.

End Server.

(** * Specification vocabulary *)

(** The file systems recorded by a trace, newest first: the instants at
    which another process could look at the disk. *)
Fixpoint instants (evs : list event) : list FS :=
  match evs with
  | [] => []
  | Wrote f :: rest => f :: instants rest
  | _ :: rest => instants rest
  end.

(** The delays slept, newest first. *)
Fixpoint sleeps (evs : list event) : list nat :=
  match evs with
  | [] => []
  | Sleep ms :: rest => ms :: sleeps rest
  | _ :: rest => sleeps rest
  end.

Definition is_IndexNotFound (e : error) : bool :=
  match e with IndexNotFound => true | _ => false end.

Definition throws_IndexNotFound {A} (r : result A) : bool :=
  match r with
  | Err e => is_IndexNotFound e
  | Ok _ => false
  end.

(** [extends φ w w']: from [w] to [w'] the trace only grew, and by no
    event that [φ] selects. *)
Definition extends (φ : event -> bool) (w w' : World) : Prop :=
  exists new, events w' = new ++ events w /\ forallb (fun e => negb (φ e)) new = true.

(** No registered listener would produce an event that [φ] selects. *)
Definition ok_listeners (φ : event -> bool) (w : World) : Prop :=
  forallb (fun l => match l with ReloadOnUpdate i => negb (φ (ReloadInvoked i)) end)
          (listeners w) = true.

(** [quiet φ m]: running [m] keeps [ok_listeners] and extends the trace
    without any event selected by [φ], whatever the oracle answers. *)
Definition quiet (φ : event -> bool) {A} (m : M A) : Prop :=
  forall w, ok_listeners φ w ->
    ok_listeners φ (snd (m w)) /\ extends φ w (snd (m w)).

(** The disk after the [mkdir] and after the token was written. *)
Definition mkdir_fs (w : World) : FS :=
  put_dir Production (Some (default ∅ (production (fs w)))) (fs w).

Definition locked_fs (w : World) : FS :=
  put_dir Production
    (Some (<[lock_name := PidText (pid w)]> (default ∅ (production (fs w)))))
    (fs w).

(** The world right after the first round of [acquireLock] took the lock. *)
Definition after_acquire (w : World) : World :=
  push_event (Log Debug "Lock acquired" NoData)
    (push_event (Wrote (locked_fs w))
       (set_fs (locked_fs w)
          (push_event (Wrote (mkdir_fs w)) (set_fs (mkdir_fs w) w)))).

(** How a call of [releaseLock] ends. *)
Inductive release_outcome (w w' : World) : Prop :=
| nothing_to_release :
    fs_exists_file Production lock_name (fs w) = false ->
    fs w' = fs w ->
    events w' = Enter_releaseLock :: events w ->
    release_outcome w w'
| lock_released d :
    production (fs w) = Some d ->
    fs w' = put_dir Production (Some (delete lock_name d)) (fs w) ->
    events w' = Log Debug "Lock released" NoData :: Wrote (fs w')
                  :: Enter_releaseLock :: events w ->
    release_outcome w w'
| release_failed :
    faults w <> [] ->
    fs w' = fs w ->
    events w' = Log Warn "Failed to release lock" (WithError "EIO: i/o error")
                  :: Enter_releaseLock :: events w ->
    release_outcome w w'.

(** What [acquireLock] guarantees, whatever the oracle answers: when it
    returns, the production directory exists (the loop created it with
    [mkdir] before creating the token); when it throws, the error is the
    timeout or a rejected [fs] call. *)
Definition acquireLock_post (r : result unit * World) : Prop :=
  match r with
  | (Ok _, w') => fs_exists_dir Production (fs w') = true
  | (Err e, _) => is_IndexNotFound e = false
  end.

(** The directory [save] builds at the temporary path. *)
Definition new_generation_dir (w : World) (docs : list Document) (st : IndexStats)
    : gmap string blob :=
  <[stats_name := JSON_stringify st]>
    (<[docstore_name := DocstoreFile docs]>
       (<[faiss_name := FaissIndexFile docs]> (default ∅ (temp (fs w))))).

(** The disk between the two renames of the swap. *)
Definition swap_window (w : World) (docs : list Document) (st : IndexStats)
    (d : gmap string blob) : FS :=
  mkFS None (Some (new_generation_dir w docs st))
       (Some (<[lock_name := PidText (pid w)]> d)).

(** The predicate that selects no event: [extends nothing w w'] says that
    the trace of [w'] is the trace of [w] with new events on top. *)
Definition nothing : event -> bool := fun _ => false.

(** What [releaseLock] adds to the trace after the event that marks its
    entry: nothing (no token to remove), the new disk and 'Lock released',
    or the warning 'Failed to release lock'. *)
Inductive release_trace : list event -> Prop :=
| rt_nothing : release_trace []
| rt_released f : release_trace [Log Debug "Lock released" NoData; Wrote f]
| rt_failed : release_trace [Log Warn "Failed to release lock" (WithError "EIO: i/o error")].

(** How many 'Failed to process' errors the logger received. *)
Fixpoint failures_logged (evs : list event) : nat :=
  match evs with
  | [] => 0
  | Log Error msg _ :: rest =>
      (if String.eqb msg "Failed to process" then 1 else 0) + failures_logged rest
  | _ :: rest => failures_logged rest
  end.

(** While a child is running the flag is set, and the flag is set only
    while a child is running. *)
Definition router_inv (r : CrawlerRouter) : Prop :=
  children r = (if crawlInProgress r then 1 else 0).

(** The events in which watcher [id] calls its reload callback. *)
Definition is_reload (id : nat) (e : event) : bool :=
  match e with
  | ReloadInvoked i => Nat.eqb id i
  | _ => false
  end.

(** ** Reading a text *)

(** Every character of [s] satisfies [P]. *)
Fixpoint all_chars (P : Ascii.ascii -> bool) (s : string) : bool :=
  match s with
  | EmptyString => true
  | String c rest => P c && all_chars P rest
  end.

(** [s] is empty or made of white space only. *)
Definition blank (s : string) : bool := all_chars is_js_space s.

(** ** What the loops of a crawl compute *)

Section CrawlLoops.

Variable downloadDocument : string -> result string.
Variable pdfParse : string -> result string.
Variable mammoth_extractRawText : string -> result string.
Variable splitText : string -> result (list string).
Variable now : nat.

Local Abbreviation fetch :=
  (fetch_and_process downloadDocument pdfParse mammoth_extractRawText).

(** The documents the loop of [main] pushes to [processedDocuments]. *)
Definition successes (docs : list DocumentMetadata) : list ProcessedDocument :=
  flat_map (fun d => match fetch d with Ok pd => [pd] | Err _ => [] end) docs.

(** The errors the loop of [main] pushes to [errors]. *)
Definition failures (docs : list DocumentMetadata) : list CrawlError :=
  flat_map (fun d => match fetch d with
                     | Ok _ => []
                     | Err e => [mkCrawlError (doc_filename d) (error_message e) now]
                     end) docs.

(** The LangChain documents the loop of [createIndex] collects for one
    processed document. *)
Definition chunks_of (pd : ProcessedDocument) : list Document :=
  match splitText (pd_content pd) with
  | Ok textChunks => map to_Document (make_chunks pd textChunks)
  | Err _ => []
  end.

Definition splits (pd : ProcessedDocument) : bool := is_ok (splitText (pd_content pd)).

(** The document as [createIndex] leaves it: with its chunks set. *)
Definition chunked (pd : ProcessedDocument) : ProcessedDocument :=
  mkProcessedDocument (pd_metadata pd) (pd_content pd)
    match splitText (pd_content pd) with
    | Ok textChunks => make_chunks pd textChunks
    | Err _ => []
    end.

End CrawlLoops.

(** ** The outcome of a crawl, in terms of its listing *)

(** What becomes of a listed document before indexing: its text was
    extracted, or it is given up with a message. *)
Inductive verdict :=
| Extracted (text : string)
| GivenUp (message : string).

Definition pdf_type : string := "application/pdf".
Definition word_types : list string :=
  ["application/vnd.openxmlformats-officedocument.wordprocessingml.document";
   "application/msword"].

Section CrawlSpec.

Variable downloadDocument : string -> result string.
Variable pdfParse : string -> result string.
Variable mammoth_extractRawText : string -> result string.
Variable splitText : string -> result (list string).
Variable now : nat.

(** The text of a listed document as its extractor returns it: the PDF
    extractor for a PDF, the Word extractor for the two Word types, none
    for any other type. *)
Definition raw_text (d : DocumentMetadata) : verdict :=
  match downloadDocument (doc_path d) with
  | Err e => GivenUp (error_message e)
  | Ok bytes =>
      if bool_decide (doc_contentType d = pdf_type) then
        match pdfParse bytes with
        | Ok text => Extracted text
        | Err e => GivenUp ("PDF parsing failed: " +:+ error_message e)
        end
      else if bool_decide (doc_contentType d ∈ word_types) then
        match mammoth_extractRawText bytes with
        | Ok text => Extracted text
        | Err e => GivenUp ("Word document parsing failed: " +:+ error_message e)
        end
      else GivenUp ("Unsupported content type: " +:+ doc_contentType d)
  end.

(** A document is extracted when its cleaned text is not blank. *)
Definition extraction (d : DocumentMetadata) : verdict :=
  match raw_text d with
  | Extracted text =>
      if blank (cleanText text)
      then GivenUp "No text content extracted from document"
      else Extracted (cleanText text)
  | GivenUp message => GivenUp message
  end.

(** The errors recorded for the documents that are given up, one each,
    in the order of the listing. *)
Definition given_up (docs : list DocumentMetadata) : list CrawlError :=
  flat_map (fun d => match extraction d with
                     | Extracted _ => []
                     | GivenUp message => [mkCrawlError (doc_filename d) message now]
                     end) docs.

(** The segments of one document as index entries: segment [i] of
    [total], under the identity of the document. *)
Fixpoint numbered (d : DocumentMetadata) (total i : nat) (segments : list string)
    : list Document :=
  match segments with
  | [] => []
  | segment :: rest =>
      mkDocument segment
        (mkChunkMetadata (doc_id d) (doc_filename d) (doc_url d) i total)
      :: numbered d total (S i) rest
  end.

Definition entries_of (d : DocumentMetadata) : list Document :=
  match extraction d with
  | Extracted text =>
      match splitText text with
      | Ok segments => numbered d (length segments) 0 segments
      | Err _ => []
      end
  | GivenUp _ => []
  end.

(** What the index of a listing must hold: the numbered segments of its
    extracted documents, in the order of the listing, and nothing else. *)
Definition expected_generation (docs : list DocumentMetadata) : list Document :=
  flat_map entries_of docs.

(** The splitter accepts the text of every extracted document. *)
Definition splitter_accepts (docs : list DocumentMetadata) : bool :=
  forallb (fun d => match extraction d with
                    | Extracted text => is_ok (splitText text)
                    | GivenUp _ => true
                    end) docs.

End CrawlSpec.

(** ** What a computation leaves alone *)

(** [preserves R m]: whatever the state and the oracle, running [m] takes
    the world to one related to it by [R], whether [m] returns or throws. *)
Definition preserves (R : World -> World -> Prop) {A} (m : M A) : Prop :=
  forall w, R w (snd (m w)).

(** [on_error R m]: the same, for the runs of [m] that throw. *)
Definition on_error (R : World -> World -> Prop) {A} (m : M A) : Prop :=
  forall w e w', m w = (Err e, w') -> R w w'.

(** [never_throws m]: [m] returns, whatever the state and the oracle. *)
Definition never_throws {A} (m : M A) : Prop :=
  forall w, exists a, fst (m w) = Ok a.

(** The fields of the [VectorStore] object other than the trace. *)
Definition same_object (w w' : World) : Prop :=
  vectorStore w' = vectorStore w /\ stats w' = stats w /\
  listeners w' = listeners w /\ pid w' = pid w.

(** Nothing but the trace changed: the disk, the object and the oracle
    are as they were. *)
Definition only_logged (w w' : World) : Prop :=
  fs w' = fs w /\ same_object w w' /\ faults w' = faults w.

(** An oracle that has no failure left has none afterwards. *)
Definition still_silent (w w' : World) : Prop :=
  faults w = [] -> faults w' = [].

(** The reload callback of watcher [wid] was not called, and the
    listeners are those of [w]. *)
Definition same_reloads (wid : nat) (w w' : World) : Prop :=
  reloads_of wid (events w') = reloads_of wid (events w) /\
  listeners w' = listeners w.

(** [ends_with_emit R st m]: a run of [m] that returns ends with
    [emit('indexUpdated', st)], and what came before it is within [R]. *)
Definition ends_with_emit (R : World -> World -> Prop) (st : IndexStats)
    {A} (m : M A) : Prop :=
  forall w u w', m w = (Ok u, w') ->
    exists w7, R w w7 /\ w' = snd (emit_indexUpdated st w7).

(** A directory that holds the generation [store] with the sidecar [st]. *)
Definition holds_generation (d : gmap string blob) (docs : list Document)
    (st : IndexStats) : Prop :=
  d !! faiss_name = Some (FaissIndexFile docs) /\
  d !! docstore_name = Some (DocstoreFile docs) /\
  d !! stats_name = Some (StatsJson st).

(** What a sidecar gives a reader that had no stats: the value of its
    text when that is JSON and not [null], and nothing otherwise. *)
Definition sidecar_value (d : gmap string blob) : option stats_value :=
  match d !! stats_name with
  | None => None
  | Some (FaissIndexFile _) | Some (Garbage _) | Some (JsonText JNull) => None
  | Some b => Some (Parsed b)
  end.

(** How many listeners of 'indexUpdated' watcher [id] has registered. *)
Definition subscriptions (id : nat) (ls : list listener) : nat :=
  length (List.filter (fun l => match l with ReloadOnUpdate i => Nat.eqb id i end) ls).

(** How many of the [FSWatcher]s [ws] are open. *)
Definition open_count (ws : list bool) : nat :=
  length (List.filter (fun open => open) ws).

(** The reports of a change of the sidecar among [actions]. *)
Definition is_change (a : action) : bool :=
  match a with
  | FsEvent eventType filename =>
      String.eqb filename "stats.json" && String.eqb eventType "change"
  | _ => false
  end.

Definition changes (actions : list action) : nat :=
  length (List.filter is_change actions).

(** [start] called [n] times in a row on the same watcher object. *)
Fixpoint start_times (n : nat) (iw : IndexWatcher) : M IndexWatcher :=
  match n with
  | 0 => ret iw
  | S n' => iw' <- start iw ;; start_times n' iw'
  end.

(** ** More on texts *)

Definition is_not (c : Ascii.ascii) : Ascii.ascii -> bool :=
  fun x => negb (Ascii.eqb x c).

(** No two characters [c] stand next to each other in [s]. *)
Fixpoint no_double (c : Ascii.ascii) (s : string) : bool :=
  match s with
  | String x (String y _ as rest) =>
      negb (Ascii.eqb x c && Ascii.eqb y c) && no_double c rest
  | _ => true
  end.

(** [s] neither starts nor ends with white space. *)
Definition trimmed (s : string) : Prop := trim s = s.

(** ** Sample data, used to instantiate the theorems below *)

Definition sample_meta (i n : nat) : ChunkMetadata :=
  mkChunkMetadata "doc-1" "policy.pdf" "https://contoso.example/policy.pdf" i n.

Definition docs_old : list Document := [mkDocument "old text" (sample_meta 0 1)].
Definition docs_new : list Document := [mkDocument "new text" (sample_meta 0 1)].
Definition gen_old : FaissStore := Indexed docs_old.
Definition gen_new : FaissStore := Indexed docs_new.
Definition stats_old : IndexStats := mkIndexStats 1 1 100 0.
Definition stats_new : IndexStats := mkIndexStats 1 1 200 0.

(** A generation on disk, without and with its sidecar. *)
Definition index_files (g : list Document) : gmap string blob :=
  <[docstore_name := DocstoreFile g]> (<[faiss_name := FaissIndexFile g]> ∅).

Definition generation_dir (g : list Document) (s : IndexStats) : gmap string blob :=
  <[stats_name := StatsJson s]> (index_files g).

Definition empty_disk : FS := mkFS None None None.
Definition disk_old : FS := mkFS (Some (generation_dir docs_old stats_old)) None None.

(** A reader that loaded [gen_old] with its stats, on a disk where another
    writer has since published [gen_new] without a sidecar. *)
Definition stale_reader : World :=
  mkWorld (mkFS (Some (index_files docs_new)) None None)
          (Some gen_old) (Some (Parsed (StatsJson stats_old))) [] 7 [] [].

(** A disk on which a crashed writer left its lock token. *)
Definition stale_dir : gmap string blob :=
  <[lock_name := PidText 4242]> (generation_dir docs_old stats_old).
Definition disk_locked : FS := mkFS (Some stale_dir) None None.

(** A listing of three documents: a PDF, an archive (no extractor for its
    content type) and a Word document; and collaborators that serve
    them. *)
Definition doc_a : DocumentMetadata :=
  mkDocumentMetadata "id-a" "a.pdf" "https://contoso.example/a.pdf"
    "/sites/kb/a.pdf" 0 14 "application/pdf" "Documents".
Definition doc_b : DocumentMetadata :=
  mkDocumentMetadata "id-b" "b.zip" "https://contoso.example/b.zip"
    "/sites/kb/b.zip" 0 99 "application/octet-stream" "Documents".
Definition doc_c : DocumentMetadata :=
  mkDocumentMetadata "id-c" "c.doc" "https://contoso.example/c.doc"
    "/sites/kb/c.doc" 0 4 "application/msword" "Documents".

Definition sample_listing : list DocumentMetadata := [doc_a; doc_b; doc_c].
Definition sample_download (path : string) : result string := Ok path.
Definition sample_pdfParse (buffer : string) : result string := Ok "AAAA BBBB CCCC".
Definition sample_mammoth (buffer : string) : result string := Ok "DDDD".

(** A splitter that cuts at every space, to run the crawl on the sample
    listing. *)
Definition split_at_spaces (text : string) : result (list string) :=
  Ok (split_on SP text).

(** The chain is never reached in the examples below. *)
Definition no_chain (store : FaissStore) (q : string) (k : nat)
    : result (string * list (Document * option nat)) :=
  Err (LibraryError "chain not available").

Definition sample_query : QueryRequest :=
  mkQueryRequest "What is the policy on remote work?" None.

(** A reader that starts its watcher before any crawl, after which a crawl
    in the same process saves a first generation and the sidecar is
    reported as changed. *)
Definition early_watcher : IndexWatcher := mkIndexWatcher 1 [].
Definition later_actions : list action :=
  [DoSave gen_new stats_new; FsEvent "change" "stats.json"; DoLoad].

(** A splitter that rejects every text. *)
Definition rejecting_splitter (text : string) : result (list string) :=
  Err (LibraryError "splitter failed").

(** An extractor that finds no text layer: it returns white space only. *)
Definition scanned_pdfParse (buffer : string) : result string :=
  Ok (String SP (String LF (String SP EmptyString))).

(** A production directory that lost its index file: the document store
    and the sidecar are there, [faiss.index] is not. *)
Definition torn_dir : gmap string blob :=
  <[stats_name := StatsJson stats_old]> (<[docstore_name := DocstoreFile docs_old]> ∅).
Definition torn_disk : FS := mkFS (Some torn_dir) None None.

(** A processed document of three words. *)
Definition sample_processed : ProcessedDocument :=
  mkProcessedDocument doc_a "AAAA BBBB CCCC" [].

(** * Properties *)

(** ** Reading the trace *)

Lemma cons_prefix {A} (a : A) l n old :
  l = n ++ old -> a :: l = (a :: n) ++ old.
Proof. intros ->. reflexivity. Qed.

Lemma app_prefix {A} (m l n old : list A) :
  l = n ++ old -> m ++ l = (m ++ n) ++ old.
Proof. intros ->. apply app_assoc. Qed.

(** [l = ?new ++ old] for a list [l] built on top of [old]. *)
Ltac prefix_solve :=
  repeat first [ eapply cons_prefix | eapply app_prefix ];
  match goal with |- ?old = _ => exact (eq_refl ([] ++ old)) end.

Lemma instants_app l1 l2 : instants (l1 ++ l2) = instants l1 ++ instants l2.
Proof.
  induction l1 as [|[] l1 IH]; simpl; rewrite ?IH; reflexivity.
Qed.

Lemma sleeps_app l1 l2 : sleeps (l1 ++ l2) = sleeps l1 ++ sleeps l2.
Proof.
  induction l1 as [|[] l1 IH]; simpl; rewrite ?IH; reflexivity.
Qed.

Lemma extends_refl φ w : extends φ w w.
Proof. exists []. split; reflexivity. Qed.

Lemma extends_trans φ w1 w2 w3 :
  extends φ w1 w2 -> extends φ w2 w3 -> extends φ w1 w3.
Proof.
  intros (n1 & E1 & F1) (n2 & E2 & F2).
  exists (n2 ++ n1). split.
  - rewrite E2, E1. apply app_assoc.
  - rewrite forallb_app, F1, F2. reflexivity.
Qed.

Lemma extends_push φ e w :
  φ e = false -> extends φ w (push_event e w).
Proof. intros H. exists [e]. split; [reflexivity|]. simpl. rewrite H. reflexivity. Qed.

Section Quiet.

Variable φ : event -> bool.

Lemma quiet_ret {A} (a : A) : quiet φ (ret a).
Proof. intros w H. split; [exact H | apply extends_refl]. Qed.

Lemma quiet_throw {A} (e : error) : quiet φ (@throw A e).
Proof. intros w H. split; [exact H | apply extends_refl]. Qed.

Lemma quiet_lift {A} (r : result A) : quiet φ (lift r).
Proof. intros w H. split; [exact H | apply extends_refl]. Qed.

Lemma quiet_get {A} (proj : World -> A) : quiet φ (get proj).
Proof. intros w H. split; [exact H | apply extends_refl]. Qed.

Lemma quiet_bind {A B} (m : M A) (k : A -> M B) :
  quiet φ m -> (forall a, quiet φ (k a)) -> quiet φ (bind m k).
Proof.
  intros Hm Hk w H. unfold bind.
  destruct (Hm w H) as [H1 E1]. destruct (m w) as [[a|e] w1]; simpl in *.
  - destruct (Hk a w1 H1) as [H2 E2]. split; [exact H2|].
    eapply extends_trans; eassumption.
  - split; assumption.
Qed.

Lemma quiet_try {A} (m : M A) (h : error -> M A) :
  quiet φ m -> (forall e, quiet φ (h e)) -> quiet φ (try_catch m h).
Proof.
  intros Hm Hh w H. unfold try_catch.
  destruct (Hm w H) as [H1 E1]. destruct (m w) as [[a|e] w1]; simpl in *.
  - split; assumption.
  - destruct (Hh e w1 H1) as [H2 E2]. split; [exact H2|].
    eapply extends_trans; eassumption.
Qed.

Lemma quiet_tick : quiet φ tick.
Proof.
  intros w H. unfold tick. destruct (faults w); simpl.
  - split; [exact H | apply extends_refl].
  - split; [exact H | exists []; split; reflexivity].
Qed.

Lemma quiet_push (e : event) : φ e = false -> quiet φ (modify (push_event e)).
Proof. intros He w H. split; [exact H | apply extends_push, He]. Qed.

Lemma quiet_log lvl msg data :
  φ (Log lvl msg data) = false -> quiet φ (log lvl msg data).
Proof. apply quiet_push. Qed.

Lemma quiet_set_vectorStore v : quiet φ (modify (set_vectorStore v)).
Proof. intros w H. split; [exact H | exists []; split; reflexivity]. Qed.

Lemma quiet_set_stats s : quiet φ (modify (set_stats s)).
Proof. intros w H. split; [exact H | exists []; split; reflexivity]. Qed.

Lemma quiet_if {A} (b : bool) (m1 m2 : M A) :
  quiet φ m1 -> quiet φ m2 -> quiet φ (if b then m1 else m2).
Proof. destruct b; auto. Qed.

Hypothesis φ_wrote : forall f, φ (Wrote f) = false.

Lemma quiet_io_write (op : FS -> result FS) : quiet φ (io_write op).
Proof.
  intros w H. unfold io_write, bind, tick, throw.
  destruct (faults w) as [|[] o]; simpl;
    try (split; [exact H | exists []; split; reflexivity]);
    destruct (op (fs w)) as [f'|e]; simpl;
    try (split; [exact H | exists []; split; reflexivity]);
    (split; [exact H|]; exists [Wrote f']; split; [reflexivity|];
     simpl; rewrite φ_wrote; reflexivity).
Qed.

Lemma quiet_io_read {A} (op : FS -> result A) : quiet φ (io_read op).
Proof.
  intros w H. unfold io_read, bind, tick, throw.
  destruct (faults w) as [|[] o]; simpl;
    (split; [exact H | exists []; split; reflexivity]).
Qed.

Lemma quiet_external {A} what (a : A) : quiet φ (external what a).
Proof.
  intros w H. unfold external, bind, tick, throw, ret.
  destruct (faults w) as [|[] o]; simpl;
    (split; [exact H | exists []; split; reflexivity]).
Qed.

End Quiet.

(** ** The [VectorStore] methods are quiet *)

Ltac quiet_step :=
  lazymatch goal with
  | |- quiet _ (bind _ _) => apply quiet_bind; [| intros ?]
  | |- quiet _ (try_catch _ _) => apply quiet_try; [| intros ?]
  | |- quiet _ (ret _) => apply quiet_ret
  | |- quiet _ (throw _) => apply quiet_throw
  | |- quiet _ (lift _) => apply quiet_lift
  | |- quiet _ (get _) => apply quiet_get
  | |- quiet _ (existsSync_dir _) => apply quiet_get
  | |- quiet _ (existsSync_file _ _) => apply quiet_get
  | |- quiet _ tick => apply quiet_tick
  | |- quiet _ (io_read _) => apply quiet_io_read
  | |- quiet _ (external _ _) => apply quiet_external
  | |- quiet _ (io_write _) => apply quiet_io_write; solve [auto | reflexivity]
  | |- quiet _ (log _ _ _) => apply quiet_log; solve [auto | reflexivity]
  | |- quiet _ (modify (push_event _)) => apply quiet_push; solve [auto | reflexivity]
  | |- quiet _ (modify (set_vectorStore _)) => apply quiet_set_vectorStore
  | |- quiet _ (modify (set_stats _)) => apply quiet_set_stats
  | |- quiet _ (if ?b then _ else _) => destruct b
  | |- quiet _ (match ?x with _ => _ end) => destruct x
  end.

Ltac quiet_auto := repeat quiet_step.

Section QuietVectorStore.

Variable φ : event -> bool.
Hypothesis φ_wrote : forall f, φ (Wrote f) = false.
Hypothesis φ_sleep : forall ms, φ (Sleep ms) = false.
Hypothesis φ_enter : φ Enter_releaseLock = false.
Hypothesis φ_emit : forall s, φ (Emit s) = false.
Hypothesis φ_log : forall lvl msg data,
  String.eqb msg "Failed to process" = false -> φ (Log lvl msg data) = false.

Local Hint Resolve φ_wrote φ_sleep φ_enter φ_emit : core.
Local Hint Extern 1 (φ (Log _ _ _) = false) => apply φ_log; reflexivity : core.

Lemma quiet_acquireLock_loop n d : quiet φ (acquireLock_loop n d).
Proof.
  induction n as [|n IH]; simpl.
  - apply quiet_throw.
  - quiet_auto. exact IH.
Qed.

Lemma quiet_acquireLock n d : quiet φ (acquireLock n d).
Proof. apply quiet_acquireLock_loop. Qed.

Lemma quiet_releaseLock : quiet φ releaseLock.
Proof. unfold releaseLock. quiet_auto. Qed.

Lemma quiet_loadStats : quiet φ loadStats.
Proof. unfold loadStats. quiet_auto. Qed.

Lemma quiet_load : quiet φ load.
Proof.
  unfold load, acquireLock_default.
  quiet_auto; auto using quiet_acquireLock, quiet_loadStats, quiet_releaseLock.
Qed.

Lemma quiet_listeners s ls :
  forall w,
    forallb (fun l => match l with ReloadOnUpdate i => negb (φ (ReloadInvoked i)) end) ls = true ->
    ok_listeners φ w ->
    ok_listeners φ (snd (for_each ls (run_listener s) w)) /\
    extends φ w (snd (for_each ls (run_listener s) w)).
Proof.
  induction ls as [|[i] ls IH]; intros w Hls Hw; simpl.
  - split; [exact Hw | apply extends_refl].
  - simpl in Hls. apply andb_prop in Hls as [Hi Hls].
    apply negb_true_iff in Hi.
    unfold bind at 1. simpl.
    set (w1 := push_event (ReloadInvoked i) (push_event (Log Info "Index updated event received" (WithStats (Some (StatsObject s)))) w)).
    destruct (IH w1 Hls Hw) as [H1 E1]. split; [exact H1|].
    eapply extends_trans; [|exact E1].
    exists [ReloadInvoked i; Log Info "Index updated event received" (WithStats (Some (StatsObject s)))].
    split; [reflexivity|]. simpl. rewrite Hi, φ_log by reflexivity. reflexivity.
Qed.

Lemma quiet_emit_indexUpdated s : quiet φ (emit_indexUpdated s).
Proof.
  intros w H. unfold emit_indexUpdated, bind, modify, get. simpl.
  destruct (quiet_listeners s (listeners w) (push_event (Emit s) w) H H) as [H1 E1].
  split; [exact H1|].
  eapply extends_trans; [|exact E1]. apply extends_push. auto.
Qed.

Lemma quiet_FaissStore_save store p : quiet φ (FaissStore_save store p).
Proof. unfold FaissStore_save. quiet_auto. Qed.

Lemma quiet_save store st : quiet φ (save store st).
Proof.
  unfold save, acquireLock_default.
  quiet_auto;
    auto using quiet_acquireLock, quiet_releaseLock, quiet_emit_indexUpdated,
               quiet_FaissStore_save.
Qed.

Lemma quiet_reload : quiet φ reload.
Proof. unfold reload. quiet_auto; auto using quiet_load. Qed.

End QuietVectorStore.

(** ** Evaluation when the oracle is silent *)

(** Symbolic execution: unfold the monad, the world and the file-system
    primitives; finite maps, the lock loop and [emit] stay folded. *)
Ltac run_m :=
  repeat
    (progress
       (lazy beta iota zeta delta
          [bind try_catch io_write io_read external tick get modify throw ret
           lift log existsSync_dir existsSync_file
           push_event set_fs set_vectorStore set_stats set_listeners set_faults
           dir_at put_dir from_option id
           fs_exists_dir fs_exists_file fs_mkdir_p fs_writeFile fs_readFile
           fs_unlink fs_rm_rf fs_rename fs_faiss_save fs_faiss_load
           JSON_parse JSON_stringify
           releaseLock loadStats getVectorStore getStats
           lock_name stats_name docstore_name faiss_name
           error_message is_IndexNotFound throws_IndexNotFound is_ok
           acquireLock acquireLock_default];
        cbn [fs vectorStore stats listeners pid events faults
             production temp backup fst snd])).

(** The same when every world in the goal is given by its fields. *)
Ltac run_c :=
  lazy beta iota zeta delta
    [bind try_catch io_write io_read external tick get modify throw ret
     lift log existsSync_dir existsSync_file
     push_event set_fs set_vectorStore set_stats set_listeners set_faults
     dir_at put_dir from_option id
     fs_exists_dir fs_exists_file fs_mkdir_p fs_writeFile fs_readFile
     fs_unlink fs_rm_rf fs_rename fs_faiss_save fs_faiss_load
     JSON_parse JSON_stringify
     releaseLock loadStats getVectorStore getStats
     lock_name stats_name docstore_name faiss_name
     error_message is_IndexNotFound throws_IndexNotFound is_ok
     acquireLock acquireLock_default
     fs vectorStore stats listeners pid events faults
     production temp backup fst snd].

Ltac names := unfold lock_name, stats_name, docstore_name, faiss_name in *.

(** Lookups in the directories the program builds. *)
Ltac maps :=
  repeat (first [ rewrite lookup_insert_eq
                | rewrite lookup_insert_ne by discriminate
                | rewrite lookup_delete_eq
                | rewrite lookup_delete_ne by discriminate
                | rewrite lookup_empty ];
          run_m).

Lemma acquireLock_loop_held n delay :
  forall w d holder,
    faults w = [] ->
    production (fs w) = Some d ->
    d !! lock_name = Some holder ->
    exists w',
      acquireLock_loop n delay w = (Err LockTimeout, w') /\
      fs w' = fs w /\ faults w' = [] /\
      vectorStore w' = vectorStore w /\ stats w' = stats w /\
      listeners w' = listeners w /\ pid w' = pid w /\
      sleeps (events w') = repeat delay n ++ sleeps (events w).
Proof.
  induction n as [|n IH]; intros w d holder Ho Hp Hl.
  - exists w. simpl. repeat split; auto.
  - destruct w as [[pr t b] v s l p ev o]. simpl in Ho, Hp. subst o pr.
    cbn [acquireLock_loop]. names. run_m. rewrite Hl. run_m.
    match goal with
    | |- context [acquireLock_loop n delay ?w0] =>
        destruct (IH w0 d holder eq_refl eq_refl Hl)
          as (w' & Hrun & Hfs & Hfa & Hv & Hs & Hli & Hpi & Hsl)
    end.
    exists w'. rewrite Hrun. simpl in *.
    repeat split; try assumption. rewrite Hsl.
    change (delay :: sleeps ev) with ([delay] ++ sleeps ev).
    rewrite app_assoc, <- repeat_cons. reflexivity.
Qed.

Lemma acquireLock_loop_free n delay w :
  faults w = [] ->
  fs_exists_file Production lock_name (fs w) = false ->
  acquireLock_loop (S n) delay w = (Ok tt, after_acquire w).
Proof.
  intros Ho Hl.
  destruct w as [[pr t b] v s l p ev o]. simpl in Ho. subst o.
  unfold fs_exists_file in Hl. simpl in Hl. unfold after_acquire, locked_fs, mkdir_fs.
  cbn [acquireLock_loop]. names.
  destruct pr as [d|]; run_m.
  - destruct (d !! ".lock"); [discriminate|]. reflexivity.
  - rewrite lookup_empty. reflexivity.
Qed.

(** [releaseLock] never throws; it leaves the object alone. *)
Lemma releaseLock_spec w :
  exists w',
    releaseLock w = (Ok tt, w') /\
    vectorStore w' = vectorStore w /\ stats w' = stats w /\
    listeners w' = listeners w /\ pid w' = pid w /\
    (faults w = [] -> faults w' = []) /\
    release_outcome w w'.
Proof.
  destruct w as [[pr t b] v s l p ev o].
  names. run_m.
  destruct pr as [d|]; run_m.
  - destruct (d !! ".lock") as [x|] eqn:Hl; run_m.
    + destruct o as [|[] o]; run_m; rewrite ?Hl; run_m;
        (eexists; split; [reflexivity|]; simpl; repeat split; try discriminate).
      * eapply lock_released; reflexivity.
      * apply release_failed; [discriminate | reflexivity..].
      * eapply lock_released; reflexivity.
    + eexists; split; [reflexivity|]; simpl; repeat split; auto.
      apply nothing_to_release; simpl; [|reflexivity..].
      unfold fs_exists_file. simpl. names. rewrite Hl. reflexivity.
  - eexists; split; [reflexivity|]; simpl; repeat split; auto.
    apply nothing_to_release; reflexivity.
Qed.

(** After [releaseLock] the token is gone, unless removing it failed. *)
Lemma release_outcome_unlocked w w' :
  release_outcome w w' ->
  fs_exists_file Production lock_name (fs w') = false \/
  events w' = Log Warn "Failed to release lock" (WithError "EIO: i/o error")
                :: Enter_releaseLock :: events w.
Proof.
  intros [Hl Hfs _ | d Hp Hfs _ | _ _ Hev].
  - left. rewrite Hfs. exact Hl.
  - left. rewrite Hfs. unfold fs_exists_file. simpl.
    rewrite lookup_delete_eq. reflexivity.
  - right. exact Hev.
Qed.

(** [loadStats] never throws.  With the sidecar missing it leaves
    [this.stats] as it was; with a sidecar that is JSON it stores the
    value of that text; with any other sidecar, or when reading fails, it
    stores [null]. *)
Lemma loadStats_spec w :
  exists w',
    loadStats w = (Ok tt, w') /\
    fs w' = fs w /\ vectorStore w' = vectorStore w /\
    listeners w' = listeners w /\ pid w' = pid w /\
    (faults w = [] ->
     faults w' = [] /\
     stats w' =
       match production (fs w) with
       | Some d =>
           match d !! stats_name with
           | None => stats w
           | Some b =>
               match JSON_parse b with
               | Ok v => v
               | Err _ => None
               end
           end
       | None => stats w
       end /\
     sleeps (events w') = sleeps (events w) /\
     instants (events w') = instants (events w)).
Proof.
  destruct w as [[pr t b] v s l p ev o].
  names. run_m.
  destruct pr as [d|]; run_m.
  - destruct (d !! "stats.json") as [x|] eqn:Hs; run_m.
    + destruct o as [|[] o]; run_m; rewrite ?Hs; run_m;
        try (eexists; split; [reflexivity|]; simpl; repeat split; discriminate).
      * destruct x as [| | | |[]|]; run_m;
          (eexists; split; [reflexivity|]; simpl; repeat split).
      * destruct x as [| | | |[]|]; run_m;
          (eexists; split; [reflexivity|]; simpl; repeat split; discriminate).
    + eexists; split; [reflexivity|]; simpl; repeat split; auto.
  - eexists; split; [reflexivity|]; simpl; repeat split; auto.
Qed.

(** [emit] never throws and touches neither the disk nor the object. *)
Lemma emit_indexUpdated_spec (s : IndexStats) (w : World) :
  exists w' new,
    emit_indexUpdated s w = (Ok tt, w') /\
    events w' = new ++ events w /\
    instants new = [] /\ sleeps new = [] /\
    fs w' = fs w /\ vectorStore w' = vectorStore w /\ stats w' = stats w /\
    listeners w' = listeners w /\ faults w' = faults w.
Proof.
  unfold emit_indexUpdated. unfold bind at 1. unfold modify at 1.
  unfold bind at 1. unfold get at 1.
  change (listeners (push_event (Emit s) w)) with (listeners w).
  assert (H : forall ls w0, exists w' new,
             for_each ls (run_listener s) w0 = (Ok tt, w') /\
             events w' = new ++ events w0 /\
             instants new = [] /\ sleeps new = [] /\
             fs w' = fs w0 /\ vectorStore w' = vectorStore w0 /\
             stats w' = stats w0 /\ listeners w' = listeners w0 /\
             faults w' = faults w0).
  { induction ls as [|[i] ls IH]; intros w0.
    - exists w0, []. simpl. repeat split; reflexivity.
    - cbn [for_each run_listener]. unfold bind at 1. unfold bind at 1.
      unfold log at 1, modify at 1, modify at 1.
      destruct (IH (push_event (ReloadInvoked i)
                      (push_event (Log Info "Index updated event received"
                                     (WithStats (Some (StatsObject s)))) w0)))
        as (w' & new & Hrun & Hev & Hi & Hs & Hrest).
      exists w', (new ++ [ReloadInvoked i;
                          Log Info "Index updated event received" (WithStats (Some (StatsObject s)))]).
      split; [exact Hrun|]. split.
      { rewrite Hev. simpl. rewrite <- app_assoc. reflexivity. }
      split.
      { clear -Hi. induction new as [|[] new IHn]; simpl in *;
          try discriminate; auto. }
      split.
      { clear -Hs. induction new as [|[] new IHn]; simpl in *;
          try discriminate; auto. }
      exact Hrest. }
  destruct (H (listeners w) (push_event (Emit s) w))
    as (w' & new & Hrun & Hev & Hi & Hs & Hrest).
  exists w', (new ++ [Emit s]).
  split; [exact Hrun|]. split.
  { rewrite Hev. simpl. rewrite <- app_assoc. reflexivity. }
  split.
  { clear -Hi. induction new as [|[] new IHn]; simpl in *;
      try discriminate; auto. }
  split.
  { clear -Hs. induction new as [|[] new IHn]; simpl in *;
      try discriminate; auto. }
  exact Hrest.
Qed.

(** ** Running a method step by step *)

Lemma run_bind {A B} (m : M A) (k : A -> M B) w a w1 r :
  m w = (Ok a, w1) -> k a w1 = r -> bind m k w = r.
Proof. intros Hm Hk. unfold bind. rewrite Hm. exact Hk. Qed.

Lemma run_bind_err {A B} (m : M A) (k : A -> M B) w e w1 :
  m w = (Err e, w1) -> bind m k w = (Err e, w1).
Proof. intros Hm. unfold bind. rewrite Hm. reflexivity. Qed.

Lemma run_try_ok {A} (m : M A) (h : error -> M A) w a w1 :
  m w = (Ok a, w1) -> try_catch m h w = (Ok a, w1).
Proof. intros Hm. unfold try_catch. rewrite Hm. reflexivity. Qed.

Lemma run_try_err {A} (m : M A) (h : error -> M A) w e w1 r :
  m w = (Err e, w1) -> h e w1 = r -> try_catch m h w = r.
Proof. intros Hm Hh. unfold try_catch. rewrite Hm. exact Hh. Qed.

Lemma run_io_write (op : FS -> result FS) w f' :
  faults w = [] -> op (fs w) = Ok f' ->
  io_write op w = (Ok tt, push_event (Wrote f') (set_fs f' w)).
Proof.
  intros Ho Hop. unfold io_write, bind, tick. rewrite Ho, Hop. reflexivity.
Qed.

Lemma run_io_read {A} (op : FS -> result A) w r :
  faults w = [] -> op (fs w) = r -> io_read op w = (r, w).
Proof.
  intros Ho Hop. unfold io_read, bind, tick. rewrite Ho, Hop. reflexivity.
Qed.

Lemma run_external {A} what (a : A) w :
  faults w = [] -> external what a w = (Ok a, w).
Proof. intros Ho. unfold external, bind, tick. rewrite Ho. reflexivity. Qed.

Lemma run_if {A} (b : bool) (m1 m2 : M A) w r :
  (if b then m1 w else m2 w) = r -> (if b then m1 else m2) w = r.
Proof. destruct b; auto. Qed.

Lemma releaseLock_total w : releaseLock w = (Ok tt, snd (releaseLock w)).
Proof. destruct (releaseLock_spec w) as (w' & H & _). rewrite H. reflexivity. Qed.

Lemma loadStats_total w : loadStats w = (Ok tt, snd (loadStats w)).
Proof. destruct (loadStats_spec w) as (w' & H & _). rewrite H. reflexivity. Qed.

Lemma emit_indexUpdated_total s w :
  emit_indexUpdated s w = (Ok tt, snd (emit_indexUpdated s w)).
Proof.
  destruct (emit_indexUpdated_spec s w) as (w' & new & H & _).
  rewrite H. reflexivity.
Qed.

(** Facts about the disk of a world given by its history. *)
Ltac fs_eval :=
  lazy beta iota zeta delta
    [push_event set_fs set_vectorStore set_stats set_listeners set_faults
     fs vectorStore stats listeners pid events faults
     production temp backup dir_at put_dir from_option id
     fs_exists_dir fs_exists_file fs_mkdir_p fs_writeFile fs_readFile
     fs_unlink fs_rm_rf fs_rename fs_faiss_save fs_faiss_load
     JSON_parse JSON_stringify after_acquire locked_fs mkdir_fs
     lock_name stats_name docstore_name faiss_name];
  repeat (first [ rewrite lookup_insert_eq
                | rewrite lookup_insert_ne by discriminate
                | rewrite lookup_delete_eq
                | rewrite lookup_delete_ne by discriminate
                | rewrite lookup_empty ]).

Ltac fs_solve :=
  fs_eval;
  repeat match goal with
         | H : _ !! _ = _ |- _ => rewrite H
         end;
  first [ reflexivity
        | assumption
        | match goal with
          | |- context [match ?x !! ?k with _ => _ end] =>
              destruct (x !! k); reflexivity
          end ].

(** One step of a method whose oracle is silent. *)
Ltac exec1 :=
  lazymatch goal with
  | |- ret _ _ = _ => reflexivity
  | |- throw _ _ = _ => reflexivity
  | |- lift _ _ = _ => reflexivity
  | |- get _ _ = _ => reflexivity
  | |- existsSync_dir _ _ = _ => reflexivity
  | |- existsSync_file _ _ = _ => reflexivity
  | |- modify _ _ = _ => reflexivity
  | |- log _ _ _ _ = _ => reflexivity
  | |- io_write _ _ = _ => apply run_io_write; [fs_solve | fs_solve]
  | |- FaissStore_save (Indexed _) _ _ = _ =>
      unfold FaissStore_save; apply run_io_write; [fs_solve | fs_solve]
  | |- io_read _ _ = _ => apply run_io_read; [fs_solve | fs_solve]
  | |- external _ _ _ = _ => apply run_external; fs_solve
  | |- bind _ _ _ = _ => eapply run_bind; [exec1 | cbv beta; exec1]
  | |- (if ?c then _ else _) _ = _ =>
      let c' := eval lazy beta iota zeta delta
                  [push_event set_fs set_vectorStore set_stats set_listeners
                   set_faults fs vectorStore stats listeners pid events faults
                   production temp backup dir_at put_dir from_option id
                   fs_exists_dir fs_exists_file after_acquire locked_fs mkdir_fs
                   lock_name stats_name docstore_name faiss_name] in c in
      change c with c'; cbv iota;
      lazymatch goal with
      | |- (if _ then _ else _) _ = _ => idtac
      | |- _ => exec1
      end
  | |- acquireLock_default _ = _ =>
      unfold acquireLock_default, acquireLock;
      apply acquireLock_loop_free; fs_solve
  | |- acquireLock_loop (S _) _ _ = _ => apply acquireLock_loop_free; fs_solve
  | |- releaseLock _ = _ => apply releaseLock_total
  | |- loadStats _ = _ => apply loadStats_total
  | |- emit_indexUpdated _ _ = _ => apply emit_indexUpdated_total
  | |- _ => idtac
  end.

(** ** C2: the lock token *)

Lemma save_lock_held w d holder store st :
  faults w = [] ->
  production (fs w) = Some d ->
  d !! lock_name = Some holder ->
  exists w2,
    save store st w = (Err LockTimeout, w2) /\
    fs w2 = put_dir Production (Some (delete lock_name d)) (fs w) /\
    vectorStore w2 = vectorStore w /\ stats w2 = stats w /\
    sleeps (events w2) = repeat 1000 30 ++ sleeps (events w).
Proof.
  intros Ho Hp Hl.
  destruct (acquireLock_loop_held 30 1000 w d holder Ho Hp Hl)
    as (w1 & Hrun & Hfs & Hfa & Hv & Hs & Hli & Hpi & Hsl).
  unfold save, acquireLock_default, acquireLock.
  unfold try_catch at 1. unfold bind at 1. rewrite Hrun.
  destruct w1 as [f1 v1 s1 l1 p1 ev1 o1]. simpl in Hfs, Hfa, Hv, Hs, Hli, Hpi, Hsl.
  subst f1 o1 v1 s1.
  destruct (fs w) as [pr t b] eqn:Hw. simpl in Hp. subst pr.
  names. run_m. repeat (rewrite Hl; run_m).
  eexists. split; [reflexivity|]. simpl. rewrite Hsl. repeat split; reflexivity.
Qed.



(** ** C3: [load] and [indexExists] on a missing index *)


Ltac break_inner_match :=
  match goal with
  | |- context [match ?x with _ => _ end] =>
      lazymatch x with
      | context [match _ with _ => _ end] => fail
      | context [acquireLock_loop] => fail
      | _ => destruct x eqn:?
      end
  end.

Lemma acquireLock_loop_post n delay :
  forall w, acquireLock_post (acquireLock_loop n delay w).
Proof.
  induction n as [|n IH]; intros w.
  - reflexivity.
  - destruct w as [[pr t b] v s l p ev o].
    cbn [acquireLock_loop]. unfold acquireLock_post. run_c.
    repeat (break_inner_match; run_c);
      try reflexivity; try discriminate;
      try (match goal with
           | |- context [acquireLock_loop n delay ?w0] => apply (IH w0)
           end).
Qed.


Ltac break_all :=
  repeat (break_inner_match; run_c); try reflexivity; try discriminate.

(** The [catch] blocks of [load] and [save] rethrow what they caught. *)
Lemma release_then_rethrow {A} lvl msg data (e : error) (w : World) :
  fst ((releaseLock ;; log lvl msg data ;; @throw A e) w) = Err e.
Proof.
  destruct (releaseLock_spec w) as (w' & Hrel & _).
  unfold bind at 1. rewrite Hrel. reflexivity.
Qed.

Lemma fs_faiss_load_error p f e :
  fs_faiss_load p f = Err e -> is_IndexNotFound e = false.
Proof.
  unfold fs_faiss_load.
  destruct (dir_at p f) as [d|]; [|intros [= <-]; reflexivity].
  destruct (d !! faiss_name) as [[]|]; destruct (d !! docstore_name) as [[]|];
    intros [= <-]; reflexivity.
Qed.

(** The guard [if (!existsSync(config.faiss.indexPath))] of [load] stands
    after [acquireLock], which has created that directory: whatever the
    disk holds and whatever I/O call fails, [load] never throws its
    'Index not found' error. *)
Lemma load_never_IndexNotFound (w : World) :
  throws_IndexNotFound (fst (load w)) = false.
Proof.
  unfold load, acquireLock_default, acquireLock.
  unfold try_catch at 1. unfold bind at 1.
  pose proof (acquireLock_loop_post 30 1000 w) as Hacq.
  destruct (acquireLock_loop 30 1000 w) as [[[]|e] w1]; simpl in Hacq.
  - unfold bind at 1. unfold existsSync_dir, get. rewrite Hacq.
    unfold bind at 1. unfold ret at 1.
    unfold bind at 1. unfold log at 1, modify at 1.
    unfold bind at 1.
    match goal with
    | |- context [io_read ?op ?w0] =>
        destruct (io_read op w0) as [[v|e] w2] eqn:Hread
    end.
    + unfold bind at 1. unfold modify at 1.
      unfold bind at 1.
      match goal with
      | |- context [loadStats ?w0] =>
          destruct (loadStats_spec w0) as (w3 & Hls & _); rewrite Hls
      end.
      unfold bind at 1.
      destruct (releaseLock_spec w3) as (w4 & Hrel & _). rewrite Hrel.
      reflexivity.
    + rewrite release_then_rethrow. simpl.
      revert Hread. unfold io_read, bind, tick, throw.
      match goal with
      | |- context [faults ?w0] => destruct (faults w0) as [|[] o]
      end; simpl.
      * intros [= H _]. eapply fs_faiss_load_error, H.
      * intros [= <- _]. reflexivity.
      * intros [= H _]. eapply fs_faiss_load_error, H.
  - rewrite release_then_rethrow. exact Hacq.
Qed.

Lemma load_absent_eval (w : World) :
  faults w = [] ->
  production (fs w) = None ->
  exists w',
    load w = (Err (FsError ENOENT), w') /\
    fs w' = put_dir Production (Some ∅) (fs w) /\
    vectorStore w' = vectorStore w /\ stats w' = stats w.
Proof.
  intros Ho Hp.
  assert (Hl : fs_exists_file Production lock_name (fs w) = false).
  { unfold fs_exists_file. simpl. rewrite Hp. reflexivity. }
  unfold load, acquireLock_default, acquireLock.
  unfold try_catch at 1. unfold bind at 1.
  rewrite (acquireLock_loop_free 29 1000 w Ho Hl).
  unfold after_acquire, locked_fs, mkdir_fs.
  destruct w as [[pr t b] v s l p ev o]. simpl in Ho, Hp. subst o pr.
  unfold releaseLock, fs_faiss_load, fs_unlink, fs_exists_file. names. run_m. maps.
  eexists. split; [reflexivity|]. simpl.
  rewrite delete_insert_id by apply lookup_empty. repeat split.
Qed.

(** C3.  On a disk where the production path is absent (and no I/O call
    fails), [indexExists] answers [false] and [load] fails; but [load]
    fails with the [ENOENT] of the FAISS loader, not with 'Index not found',
    because [acquireLock] has created the production directory before the
    guard looks for it.  After the failed [load] the production path
    exists, as an empty directory, and [indexExists] still answers
    [false]. *)
Theorem load_missing_index (w : World) :
  faults w = [] ->
  production (fs w) = None ->
  fst (indexExists w) = Ok false /\
  fst (load w) = Err (FsError ENOENT) /\
  throws_IndexNotFound (fst (load w)) = false /\
  production (fs (snd (load w))) = Some ∅ /\
  fst (indexExists (snd (load w))) = Ok false.
Proof.
  intros Ho Hp.
  destruct (load_absent_eval w Ho Hp) as (w' & Hload & Hfs & _).
  rewrite Hload. simpl.
  unfold indexExists, fs_exists_dir, fs_exists_file. run_m.
  rewrite Hp, Hfs. simpl. rewrite lookup_empty. repeat split; reflexivity.
Qed.

Lemma load_missing_index_witness :
  fst (load (fresh empty_disk 7 [])) = Err (FsError ENOENT) /\
  production (fs (snd (load (fresh empty_disk 7 [])))) = Some ∅.
Proof.
  destruct (load_missing_index (fresh empty_disk 7 []))
    as (_ & H1 & _ & H2 & _); [reflexivity | reflexivity |].
  split; [exact H1 | exact H2].
Defined.

(** ** C4: the stats sidecar *)

Lemma load_eval (w : World) (d : gmap string blob) (g' g : list Document) :
  faults w = [] ->
  production (fs w) = Some d ->
  d !! lock_name = None ->
  d !! faiss_name = Some (FaissIndexFile g') ->
  d !! docstore_name = Some (DocstoreFile g) ->
  exists w',
    load w = (Ok (Indexed g), w') /\
    vectorStore w' = Some (Indexed g) /\
    fs w' = fs w /\
    listeners w' = listeners w /\
    faults w' = [] /\
    stats w' =
      match d !! stats_name with
      | None => stats w
      | Some b =>
          match JSON_parse b with
          | Ok v => v
          | Err _ => None
          end
      end.
Proof.
  intros Ho Hp Hl Hf Hd.
  assert (Hfree : fs_exists_file Production lock_name (fs w) = false).
  { unfold fs_exists_file. simpl. rewrite Hp, Hl. reflexivity. }
  unfold load, acquireLock_default, acquireLock.
  unfold try_catch at 1. unfold bind at 1.
  rewrite (acquireLock_loop_free 29 1000 w Ho Hfree).
  unfold after_acquire, locked_fs, mkdir_fs.
  destruct w as [[pr t b] v s l p ev o]. simpl in Ho, Hp. subst o pr.
  names. run_m.
  repeat (first [progress maps | rewrite Hf | rewrite Hd]; run_m).
  destruct (d !! "stats.json") as [x|] eqn:Hs; run_m;
    repeat (first [progress maps | rewrite Hs]; run_m);
    [destruct x as [| | | |[]|]; run_m;
     repeat (first [progress maps | rewrite Hs]; run_m)|];
    rewrite delete_insert_id by assumption;
    (eexists; split; [reflexivity|]; simpl; repeat split).
Qed.

(** C4.  With the lock free, no I/O failure and a readable generation in
    the production path, [load] returns that generation whatever the
    sidecar holds, and leaves the disk as it found it.  [this.stats]
    becomes the value of the sidecar when that is JSON, and [null] when
    it is corrupt (not JSON); when the sidecar is missing, [this.stats] is
    not reset: it keeps the value it had before the call. *)
Theorem load_sidecar_outcome (w : World) (d : gmap string blob) (g' g : list Document) :
  faults w = [] ->
  production (fs w) = Some d ->
  d !! lock_name = None ->
  d !! faiss_name = Some (FaissIndexFile g') ->
  d !! docstore_name = Some (DocstoreFile g) ->
  fst (load w) = Ok (Indexed g) /\
  vectorStore (snd (load w)) = Some (Indexed g) /\
  fs (snd (load w)) = fs w /\
  stats (snd (load w)) =
    match d !! stats_name with
    | None => stats w
    | Some _ => sidecar_value d
    end.
Proof.
  intros Ho Hp Hl Hf Hd.
  destruct (load_eval w d g' g Ho Hp Hl Hf Hd)
    as (w' & Hload & Hv & Hfs & _ & _ & Hst).
  rewrite Hload. simpl. repeat split; try assumption.
  rewrite Hst. unfold sidecar_value.
  destruct (d !! stats_name) as [[| | | |[]|]|]; reflexivity.
Qed.

Lemma load_sidecar_outcome_witness :
  fst (load stale_reader) = Ok gen_new /\
  stats (snd (load stale_reader)) = Some (Parsed (StatsJson stats_old)).
Proof.
  destruct (load_sidecar_outcome stale_reader (index_files docs_new) docs_new docs_new)
    as (H1 & _ & _ & H2); [reflexivity..|].
  split; [exact H1 | exact H2].
Defined.

(** ** C1: what the production path holds while [save] runs *)

Lemma save_eval (w : World) (docs : list Document) (st : IndexStats) :
  faults w = [] ->
  fs_exists_file Production lock_name (fs w) = false ->
  exists w' new,
    save (Indexed docs) st w = (Ok tt, w') /\
    events w' = new ++ events w /\
    In (swap_window w docs st (default ∅ (production (fs w)))) (instants new) /\
    production (fs w') = Some (delete lock_name (new_generation_dir w docs st)) /\
    temp (fs w') = None /\
    backup (fs w') =
      Some (<[lock_name := PidText (pid w)]> (default ∅ (production (fs w)))) /\
    vectorStore w' = Some (Indexed docs) /\ stats w' = Some (StatsObject st) /\
    listeners w' = listeners w /\ faults w' = [].
Proof.
  intros Ho Hl.
  destruct w as [[pr t b] v s l p ev o]. simpl in Ho. subst o.
  assert (Hl' : default ∅ pr !! ".lock" = None).
  { revert Hl. unfold fs_exists_file. simpl. names.
    destruct pr as [d|]; simpl; [|intros _; apply lookup_empty].
    destruct (d !! ".lock"); [discriminate | reflexivity]. }
  clear Hl.
  names. unfold swap_window, new_generation_dir.
  cbn [pid events fs production listeners].
  destruct pr as [d|]; destruct b as [bdir|]; cbn [default from_option id] in *.
  all: match goal with
       | |- context [save ?g ?s0 ?W] =>
           eassert (Hrun : save g s0 W = (Ok tt, _))
       end; [unfold save; apply run_try_ok; exec1|].
  all: match type of Hrun with
       | _ = (_, snd (emit_indexUpdated _ (push_event _ (snd (releaseLock ?W6))))) =>
           destruct (releaseLock_spec W6)
             as (w6 & Hrel & Hv6 & Hs6 & Hl6 & _ & Hf6 & Hout);
           rewrite Hrel in Hrun; cbn [snd] in Hrun
       end.
  all: match type of Hrun with
       | _ = (_, snd (emit_indexUpdated ?s0 ?W7)) =>
           destruct (emit_indexUpdated_spec s0 W7)
             as (w8 & newe & Hemit & Hev8 & Hi8 & _ & Hfs8 & Hv8 & Hs8 & Hl8 & Hf8);
           rewrite Hemit in Hrun; cbn [snd] in Hrun
       end.
  all: destruct Hout as [Hno Hfs6 Hev6 | dx Hpx Hfs6 Hev6 | Hfa _ _];
         [| | exfalso; apply Hfa; reflexivity].
  all: exists w8; eexists; split; [exact Hrun|].
  all: specialize (Hf6 eq_refl).
  all: cbn [push_event set_fs set_stats set_vectorStore fs events vectorStore stats
            listeners faults after_acquire]
         in Hev8, Hfs8, Hv8, Hs8, Hl8, Hf8, Hv6, Hs6, Hl6, Hf6.
  all: rewrite Hev8, Hfs8, Hv8, Hs8, Hl8, Hf8, Hv6, Hs6, Hl6, Hf6.
  all: cbn [push_event set_fs set_stats set_vectorStore fs events vectorStore stats
            production temp backup put_dir after_acquire] in *.
  all: rewrite Hev6, Hfs6; cbn [production temp backup].
  all: split; [prefix_solve|].
  all: split;
         [rewrite instants_app, Hi8; names; unfold JSON_stringify;
          cbn [instants app]; repeat (first [left; reflexivity | right])|].
  all: names; unfold JSON_stringify; repeat split.
  1, 3, 5, 7: rewrite delete_id; [reflexivity|];
        match goal with
        | |- ?m !! ?k = None =>
            destruct (m !! k) eqn:E; [exfalso|reflexivity];
            revert Hno;
            change (match m !! k with Some _ => true | None => false end = false
                    -> False);
            rewrite E; discriminate
        end.
  all: injection Hpx as <-; reflexivity.
Qed.

(** C1.  A [save] of a store that has an index over an existing
    generation (lock free, no I/O failure) succeeds, and one of the instants it goes through is the disk between
    its two renames: there the production path does not exist at all
    (neither the old generation nor the new one is visible), the old
    generation sits at the backup path together with the lock token, which
    the first rename carried away, and a reader that calls [load] at that
    instant takes the lock and fails. *)
Theorem save_swap_window (w : World) (d : gmap string blob) (docs : list Document)
    (st : IndexStats) :
  faults w = [] ->
  production (fs w) = Some d ->
  d !! lock_name = None ->
  exists new,
    fst (save (Indexed docs) st w) = Ok tt /\
    events (snd (save (Indexed docs) st w)) = new ++ events w /\
    In (swap_window w docs st d) (instants new) /\
    production (swap_window w docs st d) = None /\
    backup (swap_window w docs st d) = Some (<[lock_name := PidText (pid w)]> d) /\
    fs_exists_file Production lock_name (swap_window w docs st d) = false /\
    forall reader_pid,
      fst (load (fresh (swap_window w docs st d) reader_pid [])) = Err (FsError ENOENT).
Proof.
  intros Ho Hp Hl.
  assert (Hfree : fs_exists_file Production lock_name (fs w) = false).
  { unfold fs_exists_file. simpl. rewrite Hp, Hl. reflexivity. }
  destruct (save_eval w docs st Ho Hfree) as (w' & new & Hrun & Hev & Hin & _).
  rewrite Hp in Hin. simpl in Hin.
  exists new. rewrite Hrun. simpl.
  split; [reflexivity|]. split; [exact Hev|]. split; [exact Hin|].
  split; [reflexivity|]. split; [reflexivity|]. split; [reflexivity|].
  intros reader_pid.
  destruct (load_absent_eval (fresh (swap_window w docs st d) reader_pid []))
    as (w2 & Hload & _); [reflexivity | reflexivity |].
  rewrite Hload. reflexivity.
Qed.

Lemma save_swap_window_witness :
  exists new,
    fst (save gen_new stats_new (fresh disk_old 7 [])) = Ok tt /\
    In (swap_window (fresh disk_old 7 []) docs_new stats_new
          (generation_dir docs_old stats_old)) (instants new).
Proof.
  destruct (save_swap_window (fresh disk_old 7 [])
              (generation_dir docs_old stats_old) docs_new stats_new)
    as (new & H1 & _ & H2 & _); [reflexivity..|].
  exists new. split; [exact H1 | exact H2].
Defined.

(** A store without index is refused by the library after it has made
    the temporary directory: [save] fails, and of the disk only the
    existence of the production and temporary directories may have
    changed. *)
Lemma save_uninitialised (w : World) (st : IndexStats) :
  faults w = [] ->
  fs_exists_file Production lock_name (fs w) = false ->
  exists e w',
    save Uninitialised st w = (Err e, w') /\
    production (fs w') = Some (default ∅ (production (fs w))) /\
    temp (fs w') = Some (default ∅ (temp (fs w))) /\
    backup (fs w') = backup (fs w) /\
    vectorStore w' = vectorStore w /\ stats w' = stats w /\
    listeners w' = listeners w /\ faults w' = [].
Proof.
  intros Ho Hl.
  destruct w as [[pr t b] v s l p ev o]. simpl in Ho. subst o.
  assert (Hl' : default ∅ pr !! ".lock" = None).
  { revert Hl. unfold fs_exists_file. simpl. names.
    destruct pr as [d|]; simpl; [|intros _; apply lookup_empty].
    destruct (d !! ".lock"); [discriminate | reflexivity]. }
  clear Hl. names.
  cbn [pid events fs production temp backup listeners vectorStore stats faults].
  destruct pr as [d|]; destruct t as [tdir|]; cbn [default from_option id] in *.
  all: match goal with
       | |- context [save ?g ?s0 ?W] =>
           eassert (Hrun : save g s0 W = (Err _, _))
       end;
       [unfold save; eapply run_try_err;
        [eapply run_bind; [exec1|]; cbv beta;
         eapply run_bind; [exec1|]; cbv beta;
         eapply run_bind; [exec1|]; cbv beta;
         apply run_bind_err; unfold FaissStore_save;
         eapply run_bind; [exec1|]; reflexivity
        |cbv beta; eapply run_bind; [apply releaseLock_total|]; reflexivity]|].
  all: match type of Hrun with
       | _ = (_, push_event _ (snd (releaseLock ?W6))) =>
           destruct (releaseLock_spec W6)
             as (w6 & Hrel & Hv6 & Hs6 & Hl6 & _ & Hf6 & Hout);
           rewrite Hrel in Hrun; cbn [snd] in Hrun
       end.
  all: destruct Hout as [Hno Hfs6 Hev6 | dx Hpx Hfs6 Hev6 | Hfa _ _];
         [exfalso; revert Hno; fs_eval; discriminate
         | | exfalso; apply Hfa; reflexivity].
  all: eexists _, _; split; [exact Hrun|].
  all: specialize (Hf6 eq_refl).
  all: cbn [push_event set_fs set_stats set_vectorStore fs events vectorStore stats
            listeners faults after_acquire production temp backup put_dir]
         in Hfs6, Hv6, Hs6, Hl6, Hf6, Hpx |- *.
  all: rewrite Hfs6, Hv6, Hs6, Hl6, Hf6; cbn [production temp backup].
  all: injection Hpx as <-.
  all: rewrite delete_insert_id by exact Hl'; repeat split.
Qed.

(** ** C5: the lock is released on every failing path *)

Lemma ok_listeners_nothing w : ok_listeners nothing w.
Proof. unfold ok_listeners. induction (listeners w) as [|[i] ls IH]; auto. Qed.

Lemma grows {A} (m : M A) w :
  quiet nothing m -> exists new, events (snd (m w)) = new ++ events w.
Proof.
  intros Hq. destruct (Hq w (ok_listeners_nothing w)) as [_ (new & Hev & _)].
  exists new. exact Hev.
Qed.

(** A [try] block followed by the [catch] of [load] and [save]: when the
    whole throws, the block threw, then [releaseLock] ran, then the error
    was logged and rethrown. *)
Lemma catch_releases {A} (body : M A) msg w e w' :
  quiet nothing body ->
  try_catch body
    (fun e0 => releaseLock ;; log Error msg (WithError (error_message e0)) ;; throw e0)
    w = (Err e, w') ->
  exists before rel,
    events w' = Log Error msg (WithError (error_message e))
                  :: rel ++ Enter_releaseLock :: before ++ events w /\
    release_trace rel /\
    (fs_exists_file Production lock_name (fs w') = false \/
     rel = [Log Warn "Failed to release lock" (WithError "EIO: i/o error")]).
Proof.
  intros Hq. unfold try_catch.
  destruct (grows body w Hq) as (before & Hbefore).
  destruct (body w) as [[a|e0] w1]; [discriminate|]. simpl in Hbefore.
  destruct (releaseLock_spec w1) as (w2 & Hrel & _ & _ & _ & _ & _ & Hout).
  unfold bind at 1. rewrite Hrel.
  unfold bind, log, modify, throw. intros [= <- <-]. simpl.
  exists before.
  destruct Hout as [Hno Hfs Hev | d Hp Hfs Hev | Hfa Hfs Hev]; rewrite Hev, Hbefore.
  - exists []. split; [reflexivity|]. split; [constructor|].
    left. rewrite Hfs. exact Hno.
  - exists [Log Debug "Lock released" NoData; Wrote (fs w2)].
    split; [reflexivity|]. split; [constructor|].
    left. rewrite Hfs. unfold fs_exists_file. simpl.
    rewrite lookup_delete_eq. reflexivity.
  - exists [Log Warn "Failed to release lock" (WithError "EIO: i/o error")].
    split; [reflexivity|]. split; [constructor|]. right. reflexivity.
Qed.

(** C5.  Whatever the disk holds and whichever I/O calls fail, a [save] or
    a [load] that ends with an error has, after everything else it did
    ([before]), entered [releaseLock], and only then logged the error and
    rethrown it.  When that error reaches the caller the lock token is not
    on disk, with one exception: removing the token was itself a call
    that failed, which [releaseLock] only logs as a warning. *)
Theorem error_paths_release_lock :
  (forall store st w e w',
     save store st w = (Err e, w') ->
     exists before rel,
       events w' = Log Error "Failed to save FAISS index" (WithError (error_message e))
                     :: rel ++ Enter_releaseLock :: before ++ events w /\
       release_trace rel /\
       (fs_exists_file Production lock_name (fs w') = false \/
        rel = [Log Warn "Failed to release lock" (WithError "EIO: i/o error")])) /\
  (forall w e w',
     load w = (Err e, w') ->
     exists before rel,
       events w' = Log Error "Failed to load FAISS index" (WithError (error_message e))
                     :: rel ++ Enter_releaseLock :: before ++ events w /\
       release_trace rel /\
       (fs_exists_file Production lock_name (fs w') = false \/
        rel = [Log Warn "Failed to release lock" (WithError "EIO: i/o error")])).
Proof.
  split.
  - intros store st w e w'. unfold save. apply catch_releases.
    unfold acquireLock_default. quiet_auto;
      try (apply quiet_acquireLock || apply quiet_releaseLock
           || apply quiet_emit_indexUpdated || apply quiet_FaissStore_save);
      intros; reflexivity.
  - intros w e w'. unfold load. apply catch_releases.
    unfold acquireLock_default. quiet_auto;
      try (apply quiet_acquireLock || apply quiet_releaseLock
           || apply quiet_loadStats); intros; reflexivity.
Qed.

Lemma error_paths_release_lock_witness :
  exists before rel,
    events (snd (save gen_new stats_new (fresh disk_locked 7 [])))
    = Log Error "Failed to save FAISS index"
          (WithError "Failed to acquire lock after maximum retries")
        :: rel ++ Enter_releaseLock :: before ++ [] /\
    release_trace rel.
Proof.
  destruct (proj1 error_paths_release_lock gen_new stats_new
              (fresh disk_locked 7 []) LockTimeout
              (snd (save gen_new stats_new (fresh disk_locked 7 []))))
    as (before & rel & Hev & Hrel & _).
  - destruct (save_lock_held (fresh disk_locked 7 []) stale_dir (PidText 4242)
                gen_new stats_new) as (w2 & Hsave & _); [reflexivity..|].
    rewrite Hsave. reflexivity.
  - exists before, rel. split; [exact Hev | exact Hrel].
Defined.

(** The exception: a [load] whose index read fails and whose [unlink] of
    the token then fails too ends with the read error, and the token it
    wrote itself (it holds this process's pid, 7) is still on disk. *)
Lemma lock_left_when_unlink_fails :
  fst (load (fresh disk_old 7 [false; false; true; true])) = Err (FsError EIO) /\
  fs_exists_file Production lock_name (fs (fresh disk_old 7 [false; false; true; true]))
    = false /\
  production (fs (snd (load (fresh disk_old 7 [false; false; true; true]))))
    ≫= (.!! lock_name) = Some (PidText 7).
Proof. vm_compute. auto. Qed.

(** ** Chunking: what [chunkDocument] itself decides *)

(** Where a text is cut is the splitter's business.  [chunkDocument] adds
    the numbering: one chunk per segment the splitter returned, in the
    same order; chunk [i] carries segment [i], the index [i], the number
    of segments, and the identity of its document. *)
Lemma make_chunks_indexed (doc : ProcessedDocument) (textChunks : list string) :
  length (make_chunks doc textChunks) = length textChunks /\
  map content (make_chunks doc textChunks) = textChunks /\
  forall i segment,
    textChunks !! i = Some segment ->
    make_chunks doc textChunks !! i
    = Some (mkDocumentChunk segment
              (mkChunkMetadata (doc_id (pd_metadata doc))
                 (doc_filename (pd_metadata doc)) (doc_url (pd_metadata doc))
                 i (length textChunks))).
Proof.
  unfold make_chunks. split; [apply length_imap|]. split.
  - generalize (length textChunks) as total. intros total.
    apply list_eq. intros i.
    rewrite list_lookup_fmap, list_lookup_imap.
    destruct (textChunks !! i); reflexivity.
  - intros i segment Hi. rewrite list_lookup_imap, Hi. reflexivity.
Qed.

(** When the splitter accepts the text, [chunkDocument] returns the
    numbered segments and logs their number. *)
Lemma chunkDocument_eval splitText (doc : ProcessedDocument) textChunks w :
  splitText (pd_content doc) = Ok textChunks ->
  chunkDocument splitText doc w
  = (Ok (make_chunks doc textChunks),
     push_event (Log Debug "Split into chunks" NoData) w).
Proof.
  intros Hs. unfold chunkDocument, try_catch, bind, lift, ret. rewrite Hs. reflexivity.
Qed.

(** ** Frames: what a method leaves alone under any oracle *)

Lemma bind_ok_inv {A B} (m : M A) (k : A -> M B) w b w' :
  bind m k w = (Ok b, w') ->
  exists a w1, m w = (Ok a, w1) /\ k a w1 = (Ok b, w').
Proof.
  unfold bind. destruct (m w) as [[a|e] w1]; [|discriminate].
  intros H. exists a, w1. split; [reflexivity | exact H].
Qed.

Lemma bind_err_inv {A B} (m : M A) (k : A -> M B) w e w' :
  bind m k w = (Err e, w') ->
  m w = (Err e, w') \/ exists a w1, m w = (Ok a, w1) /\ k a w1 = (Err e, w').
Proof.
  unfold bind. destruct (m w) as [[a|e0] w1].
  - intros H. right. exists a, w1. split; [reflexivity | exact H].
  - intros [= <- <-]. left. reflexivity.
Qed.

(** What cannot throw. *)

Lemma never_throws_ret {A} (a : A) : never_throws (ret a).
Proof. intros w. exists a. reflexivity. Qed.

Lemma never_throws_modify f : never_throws (modify f).
Proof. intros w. exists tt. reflexivity. Qed.

Lemma never_throws_log lvl msg data : never_throws (log lvl msg data).
Proof. intros w. exists tt. reflexivity. Qed.


Lemma never_throws_bind {A B} (m : M A) (k : A -> M B) :
  never_throws m -> (forall a, never_throws (k a)) -> never_throws (bind m k).
Proof.
  intros Hm Hk w. unfold bind. destruct (Hm w) as [a Ha].
  destruct (m w) as [[a'|e] w1]; simpl in Ha; [|discriminate].
  apply Hk.
Qed.

Lemma never_throws_releaseLock : never_throws releaseLock.
Proof. intros w. exists tt. rewrite releaseLock_total. reflexivity. Qed.

Lemma never_throws_loadStats : never_throws loadStats.
Proof. intros w. exists tt. rewrite loadStats_total. reflexivity. Qed.

Lemma never_throws_emit_indexUpdated s : never_throws (emit_indexUpdated s).
Proof. intros w. exists tt. rewrite emit_indexUpdated_total. reflexivity. Qed.

(** The [catch] blocks of [load] and [save] always rethrow. *)
Lemma try_rethrow_ok_inv {A} (m : M A) lvl msg (w : World) a w' :
  try_catch m
    (fun e => releaseLock ;; log lvl msg (WithError (error_message e)) ;; throw e) w
  = (Ok a, w') ->
  m w = (Ok a, w').
Proof.
  unfold try_catch. destruct (m w) as [[a0|e] w1]; [auto|].
  intros H. pose proof (release_then_rethrow (A:=A) lvl msg
                          (WithError (error_message e)) e w1) as Hr.
  rewrite H in Hr. discriminate.
Qed.

Section Preserves.

Variable R : World -> World -> Prop.
Hypothesis R_refl : forall w, R w w.
Hypothesis R_trans : forall w1 w2 w3, R w1 w2 -> R w2 w3 -> R w1 w3.

Lemma preserves_ret {A} (a : A) : preserves R (ret a).
Proof. intros w. apply R_refl. Qed.

Lemma preserves_throw {A} (e : error) : preserves R (@throw A e).
Proof. intros w. apply R_refl. Qed.

Lemma preserves_lift {A} (r : result A) : preserves R (lift r).
Proof. intros w. apply R_refl. Qed.

Lemma preserves_get {A} (proj : World -> A) : preserves R (get proj).
Proof. intros w. apply R_refl. Qed.

Lemma preserves_existsSync_dir p : preserves R (existsSync_dir p).
Proof. intros w. apply R_refl. Qed.

Lemma preserves_existsSync_file p name : preserves R (existsSync_file p name).
Proof. intros w. apply R_refl. Qed.

Lemma preserves_bind {A B} (m : M A) (k : A -> M B) :
  preserves R m -> (forall a, preserves R (k a)) -> preserves R (bind m k).
Proof.
  intros Hm Hk w. unfold bind. specialize (Hm w).
  destruct (m w) as [[a|e] w1]; simpl in *; [|exact Hm].
  eapply R_trans; [exact Hm | apply Hk].
Qed.

Lemma preserves_try {A} (m : M A) (h : error -> M A) :
  preserves R m -> (forall e, preserves R (h e)) -> preserves R (try_catch m h).
Proof.
  intros Hm Hh w. unfold try_catch. specialize (Hm w).
  destruct (m w) as [[a|e] w1]; simpl in *; [exact Hm|].
  eapply R_trans; [exact Hm | apply Hh].
Qed.

Lemma preserves_if {A} (b : bool) (m1 m2 : M A) :
  preserves R m1 -> preserves R m2 -> preserves R (if b then m1 else m2).
Proof. destruct b; auto. Qed.

Lemma preserves_on_error {A} (m : M A) : preserves R m -> on_error R m.
Proof. intros Hm w e w' H. specialize (Hm w). rewrite H in Hm. exact Hm. Qed.

Lemma never_throws_on_error {A} (m : M A) : never_throws m -> on_error R m.
Proof. intros Hm w e w' H. destruct (Hm w) as [a Ha]. rewrite H in Ha. discriminate. Qed.

(** A sequence throws in its first part, or after it. *)
Lemma on_error_bind {A B} (m : M A) (k : A -> M B) :
  preserves R m -> (forall a, on_error R (k a)) -> on_error R (bind m k).
Proof.
  intros Hm Hk w e w' H. apply bind_err_inv in H as [H | (a & w1 & H1 & H2)].
  - eapply preserves_on_error; eassumption.
  - eapply R_trans; [|eapply Hk; exact H2].
    specialize (Hm w). rewrite H1 in Hm. exact Hm.
Qed.

Lemma on_error_try {A} (m : M A) (h : error -> M A) :
  on_error R m -> (forall e, preserves R (h e)) -> on_error R (try_catch m h).
Proof.
  intros Hm Hh w e w'. unfold try_catch.
  destruct (m w) as [[a|e0] w1] eqn:Hrun; [discriminate|].
  intros H. eapply R_trans; [eapply Hm; exact Hrun|].
  specialize (Hh e0 w1). rewrite H in Hh. exact Hh.
Qed.

Hypothesis R_log : forall lvl msg data w, R w (push_event (Log lvl msg data) w).

Lemma preserves_log lvl msg data : preserves R (log lvl msg data).
Proof. intros w. apply R_log. Qed.

Lemma preserves_for_each {A} (l : list A) (body : A -> M unit) :
  (forall x, preserves R (body x)) -> preserves R (for_each l body).
Proof.
  intros Hb. induction l as [|x l IH]; simpl.
  - apply preserves_ret.
  - apply preserves_bind; [apply Hb | intros _; exact IH].
Qed.

Hypothesis R_tick : forall w, R w (snd (tick w)).

Lemma preserves_io_read {A} (op : FS -> result A) : preserves R (io_read op).
Proof.
  intros w. unfold io_read, bind. specialize (R_tick w).
  destruct (tick w) as [[[]|e] w1]; simpl in *; exact R_tick.
Qed.


Hypothesis R_fs : forall f w, R w (set_fs f w).
Hypothesis R_wrote : forall f w, R w (push_event (Wrote f) w).

Lemma preserves_io_write (op : FS -> result FS) : preserves R (io_write op).
Proof.
  intros w. unfold io_write, bind. pose proof (R_tick w) as Ht.
  destruct (tick w) as [[[]|e] w1]; simpl in *; try exact Ht.
  destruct (op (fs w1)) as [f'|e]; simpl; [|exact Ht].
  eapply R_trans; [exact Ht|].
  eapply R_trans; [apply (R_fs f')|apply R_wrote].
Qed.

Hypothesis R_sleep : forall ms w, R w (push_event (Sleep ms) w).
Hypothesis R_enter : forall w, R w (push_event Enter_releaseLock w).

Lemma preserves_acquireLock_loop n delay : preserves R (acquireLock_loop n delay).
Proof.
  induction n as [|n IH]; cbn [acquireLock_loop].
  - apply preserves_throw.
  - apply preserves_bind.
    + apply preserves_try.
      * apply preserves_bind; [apply preserves_io_write|]. intros _.
        apply preserves_bind; [apply preserves_get|]. intros p.
        apply preserves_bind; [apply preserves_io_write|]. intros _.
        apply preserves_bind; [apply preserves_log | intros _; apply preserves_ret].
      * intros [[]| | | | | | |];
          try apply preserves_throw.
        apply preserves_bind; [apply preserves_log|]. intros _.
        apply preserves_bind; [intros w; apply R_sleep | intros _; apply preserves_ret].
    + intros []; [apply preserves_ret | exact IH].
Qed.

Lemma preserves_acquireLock_default : preserves R acquireLock_default.
Proof. apply preserves_acquireLock_loop. Qed.

Lemma preserves_releaseLock : preserves R releaseLock.
Proof.
  unfold releaseLock.
  apply preserves_bind; [intros w; apply R_enter|]. intros _.
  apply preserves_try.
  - apply preserves_bind; [apply preserves_existsSync_file|]. intros [].
    + apply preserves_bind; [apply preserves_io_write | intros _; apply preserves_log].
    + apply preserves_ret.
  - intros e. apply preserves_log.
Qed.

Hypothesis R_stats : forall s w, R w (set_stats s w).

Lemma preserves_loadStats : preserves R loadStats.
Proof.
  unfold loadStats. apply preserves_try.
  - apply preserves_bind; [apply preserves_existsSync_file|]. intros [].
    + apply preserves_bind; [apply preserves_io_read|]. intros data.
      apply preserves_bind; [apply preserves_lift|]. intros s.
      intros w. apply R_stats.
    + apply preserves_ret.
  - intros e. apply preserves_bind; [apply preserves_log|]. intros _.
    intros w. apply R_stats.
Qed.

Hypothesis R_vectorStore : forall v w, R w (set_vectorStore v w).

Lemma preserves_load : preserves R load.
Proof.
  unfold load. apply preserves_try.
  - apply preserves_bind; [apply preserves_acquireLock_default|]. intros _.
    apply preserves_bind; [apply preserves_existsSync_dir|]. intros ex.
    apply preserves_bind;
      [apply preserves_if; [apply preserves_ret | apply preserves_throw]|]. intros _.
    apply preserves_bind; [apply preserves_log|]. intros _.
    apply preserves_bind; [apply preserves_io_read|]. intros v.
    apply preserves_bind; [intros w; apply R_vectorStore|]. intros _.
    apply preserves_bind; [apply preserves_loadStats|]. intros _.
    apply preserves_bind; [apply preserves_releaseLock|]. intros _.
    apply preserves_bind; [apply preserves_get|]. intros st.
    apply preserves_bind; [apply preserves_log | intros _; apply preserves_ret].
  - intros e.
    apply preserves_bind; [apply preserves_releaseLock|]. intros _.
    apply preserves_bind; [apply preserves_log | intros _; apply preserves_throw].
Qed.

Lemma preserves_FaissStore_save store p : preserves R (FaissStore_save store p).
Proof.
  destruct store as [|docs]; simpl; [|apply preserves_io_write].
  apply preserves_bind; [apply preserves_io_write | intros _; apply preserves_throw].
Qed.

(** The first rename of the swap, with what precedes it. *)
Lemma preserves_swap_out :
  preserves R
    (exb <- existsSync_dir Backup ;;
     (if (exb : bool) then io_write (fs_rm_rf Backup) else ret tt) ;;
     io_write (fs_rename Production Backup)).
Proof.
  apply preserves_bind; [apply preserves_existsSync_dir|]. intros exb.
  apply preserves_bind;
    [apply preserves_if; [apply preserves_io_write | apply preserves_ret]|].
  intros _. apply preserves_io_write.
Qed.

(** A [save] that throws has not reached its [emit]. *)
Lemma on_error_save store st : on_error R (save store st).
Proof.
  unfold save. apply on_error_try.
  - apply on_error_bind; [apply preserves_acquireLock_default|]. intros _.
    apply on_error_bind; [apply preserves_log|]. intros _.
    do 3 (apply on_error_bind;
            [first [apply preserves_io_write | apply preserves_FaissStore_save]|];
          intros _).
    apply on_error_bind; [apply preserves_existsSync_dir|]. intros ex.
    apply on_error_bind;
      [apply preserves_if; [apply preserves_swap_out | apply preserves_ret]|].
    intros _.
    apply on_error_bind; [apply preserves_io_write|]. intros _.
    apply never_throws_on_error.
    apply never_throws_bind; [apply never_throws_modify|]. intros _.
    apply never_throws_bind; [apply never_throws_modify|]. intros _.
    apply never_throws_bind; [apply never_throws_releaseLock|]. intros _.
    apply never_throws_bind; [apply never_throws_log|]. intros _.
    apply never_throws_emit_indexUpdated.
  - intros e.
    apply preserves_bind; [apply preserves_releaseLock|]. intros _.
    apply preserves_bind; [apply preserves_log | intros _; apply preserves_throw].
Qed.

(** A [save] that returns has done its [emit] last, and once. *)
Lemma ends_with_emit_bind {A B} st (m : M A) (k : A -> M B) :
  preserves R m -> (forall a, ends_with_emit R st (k a)) ->
  ends_with_emit R st (bind m k).
Proof.
  intros Hm Hk w u w' H. apply bind_ok_inv in H as (a & w1 & H1 & H2).
  destruct (Hk a w1 u w' H2) as (w7 & HR & Heq).
  exists w7. split; [|exact Heq].
  eapply R_trans; [|exact HR]. specialize (Hm w). rewrite H1 in Hm. exact Hm.
Qed.

Lemma ends_with_emit_save store st : ends_with_emit R st (save store st).
Proof.
  intros w u w' H. unfold save in H. apply try_rethrow_ok_inv in H.
  revert w u w' H.
  apply ends_with_emit_bind; [apply preserves_acquireLock_default|]. intros _.
  apply ends_with_emit_bind; [apply preserves_log|]. intros _.
  do 3 (apply ends_with_emit_bind;
            [first [apply preserves_io_write | apply preserves_FaissStore_save]|];
          intros _).
  apply ends_with_emit_bind; [apply preserves_existsSync_dir|]. intros ex.
  apply ends_with_emit_bind;
    [apply preserves_if; [apply preserves_swap_out | apply preserves_ret]|].
  intros _.
  apply ends_with_emit_bind; [apply preserves_io_write|]. intros _.
  apply ends_with_emit_bind; [intros w; apply R_vectorStore|]. intros _.
  apply ends_with_emit_bind; [intros w; apply R_stats|]. intros _.
  apply ends_with_emit_bind; [apply preserves_releaseLock|]. intros _.
  apply ends_with_emit_bind; [apply preserves_log|]. intros _.
  intros w u w' H. exists w. split; [apply R_refl|]. rewrite H. reflexivity.
Qed.

Hypothesis R_emit : forall s w, R w (push_event (Emit s) w).
Hypothesis R_reload : forall i w, R w (push_event (ReloadInvoked i) w).

Lemma preserves_emit_indexUpdated s : preserves R (emit_indexUpdated s).
Proof.
  unfold emit_indexUpdated.
  apply preserves_bind; [intros w; apply R_emit|]. intros _.
  apply preserves_bind; [apply preserves_get|]. intros ls.
  apply preserves_for_each. intros [id]. simpl.
  apply preserves_bind; [apply preserves_log | intros _ w; apply R_reload].
Qed.

Lemma preserves_save store st : preserves R (save store st).
Proof.
  unfold save. apply preserves_try.
  - apply preserves_bind; [apply preserves_acquireLock_default|]. intros _.
    apply preserves_bind; [apply preserves_log|]. intros _.
    do 3 (apply preserves_bind;
            [first [apply preserves_io_write | apply preserves_FaissStore_save]|];
          intros _).
    apply preserves_bind; [apply preserves_existsSync_dir|]. intros ex.
    apply preserves_bind;
      [apply preserves_if; [apply preserves_swap_out | apply preserves_ret]|].
    intros _.
    apply preserves_bind; [apply preserves_io_write|]. intros _.
    apply preserves_bind; [intros w; apply R_vectorStore|]. intros _.
    apply preserves_bind; [intros w; apply R_stats|]. intros _.
    apply preserves_bind; [apply preserves_releaseLock|]. intros _.
    apply preserves_bind; [apply preserves_log | intros _; apply preserves_emit_indexUpdated].
  - intros e.
    apply preserves_bind; [apply preserves_releaseLock|]. intros _.
    apply preserves_bind; [apply preserves_log | intros _; apply preserves_throw].
Qed.

End Preserves.

(** The relations the frames are used with. *)

Lemma same_object_refl w : same_object w w.
Proof. repeat split. Qed.

Lemma same_object_trans w1 w2 w3 :
  same_object w1 w2 -> same_object w2 w3 -> same_object w1 w3.
Proof.
  intros (A1 & A2 & A3 & A4) (B1 & B2 & B3 & B4).
  repeat split; congruence.
Qed.

Lemma same_object_event e w : same_object w (push_event e w).
Proof. repeat split. Qed.

Lemma same_object_tick w : same_object w (snd (tick w)).
Proof. unfold tick. destruct (faults w); repeat split. Qed.

Lemma same_object_fs f w : same_object w (set_fs f w).
Proof. repeat split. Qed.


Lemma still_silent_refl w : still_silent w w.
Proof. intros H. exact H. Qed.

Lemma still_silent_trans w1 w2 w3 :
  still_silent w1 w2 -> still_silent w2 w3 -> still_silent w1 w3.
Proof. unfold still_silent. auto. Qed.

Lemma still_silent_tick w : still_silent w (snd (tick w)).
Proof. unfold still_silent, tick. intros H. rewrite H. exact H. Qed.

Lemma only_logged_refl w : only_logged w w.
Proof. repeat split. Qed.

Lemma only_logged_trans w1 w2 w3 :
  only_logged w1 w2 -> only_logged w2 w3 -> only_logged w1 w3.
Proof.
  intros (A0 & A & A5) (B0 & B & B5).
  split; [congruence|]. split; [eapply same_object_trans; eassumption | congruence].
Qed.

Lemma only_logged_event e w : only_logged w (push_event e w).
Proof. repeat split. Qed.

Lemma same_reloads_refl wid w : same_reloads wid w w.
Proof. split; reflexivity. Qed.

Lemma same_reloads_trans wid w1 w2 w3 :
  same_reloads wid w1 w2 -> same_reloads wid w2 w3 -> same_reloads wid w1 w3.
Proof. intros [A1 A2] [B1 B2]. split; congruence. Qed.

Lemma same_reloads_tick wid w : same_reloads wid w (snd (tick w)).
Proof. unfold tick. destruct (faults w); split; reflexivity. Qed.

Ltac by_still_silent :=
  first [ exact still_silent_refl | exact still_silent_trans
        | exact still_silent_tick | unfold still_silent; auto ].

Ltac by_same_object :=
  first [ exact same_object_refl | exact same_object_trans | exact same_object_tick
        | intros; apply same_object_event | intros; apply same_object_fs ].

Ltac by_only_logged :=
  first [ exact only_logged_refl | exact only_logged_trans
        | intros; apply only_logged_event ].

Ltac by_same_reloads wid :=
  first [ exact (same_reloads_refl wid) | exact (same_reloads_trans wid)
        | exact (same_reloads_tick wid) | intros; split; reflexivity ].

(** The two methods that hold the lock never touch the object's listeners
    or its pid, and keep a silent oracle silent. *)
Lemma silent_load : preserves still_silent load.
Proof.
  apply preserves_load; by_still_silent.
Qed.

Lemma silent_save store st : preserves still_silent (save store st).
Proof.
  apply preserves_save; by_still_silent.
Qed.

Lemma object_acquireLock : preserves same_object acquireLock_default.
Proof.
  apply preserves_acquireLock_default; by_same_object.
Qed.

Lemma object_releaseLock : preserves same_object releaseLock.
Proof.
  apply preserves_releaseLock; by_same_object.
Qed.


Lemma object_io_read {A} (op : FS -> result A) : preserves same_object (io_read op).
Proof.
  apply preserves_io_read; by_same_object.
Qed.


Lemma object_log lvl msg data : preserves same_object (log lvl msg data).
Proof. apply preserves_log; by_same_object. Qed.

(** ** Blank texts *)

Lemma trimEnd_head c s :
  is_js_space c = false -> trimEnd (String c s) = String c (trimEnd s).
Proof. intros H. simpl. rewrite H. reflexivity. Qed.

Lemma trim_blank s : blank s = true -> trim s = EmptyString.
Proof.
  unfold trim, blank. induction s as [|c s IH]; simpl; [reflexivity|].
  intros H. apply andb_prop in H as [Hc Hs]. rewrite Hc. apply IH, Hs.
Qed.

Lemma trimStart_nonblank s :
  blank s = false ->
  exists c t, trimStart s = String c t /\ is_js_space c = false.
Proof.
  unfold blank. induction s as [|c s IH]; simpl; [discriminate|].
  destruct (is_js_space c) eqn:E; simpl; [exact IH | eauto].
Qed.

Lemma is_empty_trim s : is_empty (trim s) = blank s.
Proof.
  destruct (blank s) eqn:Hb.
  - rewrite (trim_blank s Hb). reflexivity.
  - destruct (trimStart_nonblank s Hb) as (c & t & Ht & Hc).
    unfold trim. rewrite Ht, (trimEnd_head c t Hc). reflexivity.
Qed.

(** ** C7: a crawl with documents that fail extraction *)

Lemma failures_logged_app l1 l2 :
  failures_logged (l1 ++ l2) = failures_logged l1 + failures_logged l2.
Proof.
  induction l1 as [|[[] msg data| | | | |] l1 IH]; simpl; rewrite ?IH; lia.
Qed.

Lemma sum_chunks_from (docs : list ProcessedDocument) (n : nat) :
  foldl (fun sum doc => sum + length (pd_chunks doc)) n docs
  = n + length (flat_map (fun doc => map to_Document (pd_chunks doc)) docs).
Proof.
  revert n. induction docs as [|doc docs IH]; intros n; simpl.
  - lia.
  - rewrite IH, length_app, length_map. lia.
Qed.

Lemma fromDocuments_cases (docs : list Document) :
  (Nat.ltb 0 (length docs) = false /\ fromDocuments docs = Uninitialised) \/
  (Nat.ltb 0 (length docs) = true /\ fromDocuments docs = Indexed docs).
Proof. destruct docs; auto. Qed.

Section CrawlerProperties.

Variable sp_initialize : result unit.
Variable listDocuments : result (list DocumentMetadata).
Variable downloadDocument : string -> result string.
Variable pdfParse : string -> result string.
Variable mammoth_extractRawText : string -> result string.
Variable splitText : string -> result (list string).
Variable now : nat.

Local Abbreviation fetch :=
  (fetch_and_process downloadDocument pdfParse mammoth_extractRawText).
Local Abbreviation crawl_one' :=
  (crawl_one downloadDocument pdfParse mammoth_extractRawText now).
Local Abbreviation crawl_loop' :=
  (crawl_loop downloadDocument pdfParse mammoth_extractRawText now).
Local Abbreviation main' :=
  (main sp_initialize listDocuments downloadDocument pdfParse
        mammoth_extractRawText splitText now).
Local Abbreviation extraction' :=
  (extraction downloadDocument pdfParse mammoth_extractRawText).
Local Abbreviation given_up' :=
  (given_up downloadDocument pdfParse mammoth_extractRawText now).
Local Abbreviation entries_of' :=
  (entries_of downloadDocument pdfParse mammoth_extractRawText splitText).
Local Abbreviation splitter_accepts' :=
  (splitter_accepts downloadDocument pdfParse mammoth_extractRawText splitText).
Local Abbreviation successes' :=
  (successes downloadDocument pdfParse mammoth_extractRawText).
Local Abbreviation failures' :=
  (failures downloadDocument pdfParse mammoth_extractRawText now).
Local Abbreviation chunks_of' := (chunks_of splitText).
Local Abbreviation expected_generation' :=
  (expected_generation downloadDocument pdfParse mammoth_extractRawText splitText).
Local Abbreviation splits' := (splits splitText).
Local Abbreviation chunked' := (chunked splitText).

Lemma length_successes docs :
  length (successes' docs) + length (failures' docs) = length docs.
Proof.
  unfold successes, failures.
  induction docs as [|d docs IH]; simpl; [reflexivity|].
  rewrite !length_app.
  destruct (fetch d); simpl; lia.
Qed.

(** *** The loop against the listing *)

(** The two awaited calls of the loop body give a document exactly when
    the listing says it is extracted, with the cleaned text as content;
    otherwise they throw the error whose message the listing gives. *)
Lemma fetch_extraction (d : DocumentMetadata) :
  match fetch d with
  | Ok pd =>
      exists text, extraction' d = Extracted text /\
                   pd = mkProcessedDocument d text []
  | Err e => extraction' d = GivenUp (error_message e)
  end.
Proof.
  unfold fetch_and_process, extraction, raw_text, rbind.
  destruct (downloadDocument (doc_path d)) as [bytes|e]; [|reflexivity].
  unfold processDocument, processPDF, processWord, pdf_type, word_types.
  assert (Hclean : forall text,
    (if is_empty (cleanText text) || is_empty (trim (cleanText text))
     then @Err ProcessedDocument (Failure "No text content extracted from document")
     else Ok (mkProcessedDocument d (cleanText text) []))
    = if blank (cleanText text)
      then Err (Failure "No text content extracted from document")
      else Ok (mkProcessedDocument d (cleanText text) [])).
  { intros text. rewrite is_empty_trim.
    destruct (cleanText text); reflexivity. }
  destruct (String.eqb_spec (doc_contentType d) "application/pdf") as [Hpdf|Hpdf].
  { rewrite bool_decide_true by exact Hpdf.
    destruct (pdfParse bytes) as [text|e]; simpl; [|reflexivity].
    rewrite Hclean. destruct (blank (cleanText text)); eauto. }
  rewrite bool_decide_false by exact Hpdf.
  destruct (String.eqb_spec (doc_contentType d)
              "application/vnd.openxmlformats-officedocument.wordprocessingml.document")
    as [Hx|Hx]; [|destruct (String.eqb_spec (doc_contentType d) "application/msword")
                    as [Hw|Hw]]; cbn [orb].
  - rewrite bool_decide_true by (rewrite Hx; apply list_elem_of_here).
    destruct (mammoth_extractRawText bytes) as [text|e]; simpl; [|reflexivity].
    rewrite Hclean. destruct (blank (cleanText text)); eauto.
  - rewrite bool_decide_true
      by (rewrite Hw; apply list_elem_of_further, list_elem_of_here).
    destruct (mammoth_extractRawText bytes) as [text|e]; simpl; [|reflexivity].
    rewrite Hclean. destruct (blank (cleanText text)); eauto.
  - rewrite bool_decide_false; [reflexivity|].
    intros H. apply elem_of_cons in H as [H|H]; [contradiction|].
    apply list_elem_of_singleton in H. contradiction.
Qed.

Lemma failures_given_up docs : failures' docs = given_up' docs.
Proof.
  unfold failures, given_up.
  induction docs as [|d docs IH]; simpl; [reflexivity|]. rewrite IH. f_equal.
  pose proof (fetch_extraction d) as H.
  destruct (fetch d) as [pd|e]; [destruct H as (text & -> & _)|rewrite H]; reflexivity.
Qed.

(** The numbering of [chunkDocument] against the numbering of the
    listing. *)
Lemma numbered_chunks (d : DocumentMetadata) (text : string) (total : nat)
    (segments : list string) :
  forall k,
    map to_Document
      (imap (fun index content =>
               mkDocumentChunk content
                 (mkChunkMetadata (doc_id d) (doc_filename d) (doc_url d)
                    (k + index) total)) segments)
    = numbered d total k segments.
Proof.
  induction segments as [|segment rest IH]; intros k; [reflexivity|].
  cbn [imap map numbered]. rewrite Nat.add_0_r. f_equal.
  rewrite <- IH. f_equal. apply imap_ext. intros i x _. simpl.
  rewrite Nat.add_succ_r. reflexivity.
Qed.

Lemma chunks_entries docs :
  flat_map chunks_of' (successes' docs) = expected_generation' docs.
Proof.
  unfold successes, expected_generation.
  induction docs as [|d docs IH]; simpl; [reflexivity|].
  rewrite flat_map_app, IH. f_equal.
  pose proof (fetch_extraction d) as H. unfold entries_of.
  destruct (fetch d) as [pd|e].
  - destruct H as (text & -> & ->). simpl. rewrite app_nil_r.
    unfold chunks_of. simpl.
    destruct (splitText text) as [segments|e]; [|reflexivity].
    unfold make_chunks. simpl. apply (numbered_chunks d text _ segments 0).
  - rewrite H. reflexivity.
Qed.

Lemma splits_accepts docs :
  forallb splits' (successes' docs) = splitter_accepts' docs.
Proof.
  unfold successes, splitter_accepts.
  induction docs as [|d docs IH]; simpl; [reflexivity|].
  rewrite forallb_app, IH. f_equal.
  pose proof (fetch_extraction d) as H.
  destruct (fetch d) as [pd|e].
  - destruct H as (text & -> & ->). simpl. unfold splits. simpl.
    apply andb_true_r.
  - rewrite H. reflexivity.
Qed.

(** The loop goes through the whole listing: every document that fails is
    logged and recorded, and the loop carries on with the next one. *)
Lemma crawl_loop_eval docs :
  forall cs w,
  exists w' new,
    crawl_loop' docs cs w =
      (Ok (mkCrawlState (errors cs ++ failures' docs)
             (documentsProcessed cs + length (successes' docs))
             (documentsSkipped cs + length (failures' docs))
             (processedDocuments cs ++ successes' docs)), w') /\
    events w' = new ++ events w /\
    failures_logged new = length (failures' docs) /\
    instants new = [] /\
    fs w' = fs w /\ faults w' = faults w /\ pid w' = pid w.
Proof.
  induction docs as [|d docs IH]; intros cs w.
  - exists w, []. simpl. rewrite !app_nil_r, !Nat.add_0_r.
    destruct cs. repeat split; reflexivity.
  - cbn [crawl_loop]. unfold successes, failures. cbn [flat_map].
    fold (successes' docs). fold (failures' docs).
    unfold crawl_one. unfold fetch_and_process at 1.
    fold (fetch d).
    destruct (fetch d) as [pd|e] eqn:Hf.
    + match goal with
      | |- context [bind ?m ?k w] =>
          eassert (Hstep : m w = (Ok _, _)) by (apply run_try_ok; exec1)
      end.
      match type of Hstep with
      | _ = (Ok ?cs1, ?w1) =>
          destruct (IH cs1 w1) as (w' & new & Hrun & Hev & Hfl & Hi & Hfs & Hfa & Hpid)
      end.
      exists w'. eexists. split.
      { eapply run_bind; [exact Hstep|]. rewrite Hrun. cbn.
        rewrite <- !app_assoc. cbn. rewrite Nat.add_succ_r. reflexivity. }
      split; [rewrite Hev; cbn; prefix_solve|].
      split; [rewrite failures_logged_app, Hfl; cbn; lia|].
      split; [rewrite instants_app, Hi; reflexivity|].
      repeat split; assumption.
    + match goal with
      | |- context [bind ?m ?k w] =>
          eassert (Hstep : m w = (Ok _, _))
            by (eapply run_try_err;
                [eapply run_bind; [exec1 | cbv beta; apply run_bind_err; reflexivity]
                | cbv beta zeta; exec1])
      end.
      match type of Hstep with
      | _ = (Ok ?cs1, ?w1) =>
          destruct (IH cs1 w1) as (w' & new & Hrun & Hev & Hfl & Hi & Hfs & Hfa & Hpid)
      end.
      exists w'. eexists. split.
      { eapply run_bind; [exact Hstep|]. rewrite Hrun. cbn.
        rewrite <- !app_assoc. cbn. rewrite Nat.add_succ_r. reflexivity. }
      split; [rewrite Hev; cbn; prefix_solve|].
      split; [rewrite failures_logged_app, Hfl; cbn; lia|].
      split; [rewrite instants_app, Hi; reflexivity|].
      repeat split; assumption.
Qed.

Lemma chunks_of_chunked pds :
  flat_map (fun doc => map to_Document (pd_chunks doc)) (map chunked' pds)
  = flat_map chunks_of' pds.
Proof.
  induction pds as [|pd pds IH]; simpl; [reflexivity|].
  rewrite IH. unfold chunks_of. destruct (splitText (pd_content pd)); reflexivity.
Qed.

(** [chunk_all] returns only when the splitter accepted every text, and
    then with the chunks of all the documents; it never touches the
    disk, the object or the oracle. *)
Lemma chunk_all_cases pds :
  forall w,
    match chunk_all splitText pds w with
    | (Ok r, w') =>
        only_logged w w' /\
        forallb splits' pds = true /\
        r = (map chunked' pds, flat_map chunks_of' pds)
    | (Err _, w') =>
        only_logged w w' /\ forallb splits' pds = false
    end.
Proof.
  induction pds as [|pd pds IH]; intros w.
  - simpl. split; [apply only_logged_refl | auto].
  - cbn [chunk_all forallb flat_map map].
    unfold bind at 1. unfold chunkDocument, try_catch. unfold bind at 1. unfold lift.
    unfold splits at 1 3, chunks_of at 1, chunked at 1.
    destruct (splitText (pd_content pd)) as [textChunks|e]; cbn [is_ok andb].
    + unfold bind at 1. unfold log at 1, modify at 1. unfold ret at 1.
      unfold bind at 1.
      match goal with
      | |- context [chunk_all splitText pds ?w0] =>
          specialize (IH w0); destruct (chunk_all splitText pds w0) as [[r|e] w1]
      end.
      * destruct IH as (Hlog & Hs & ->). unfold ret.
        split; [|auto].
        eapply only_logged_trans; [apply only_logged_event | exact Hlog].
      * destruct IH as (Hlog & Hs). split; [|exact Hs].
        eapply only_logged_trans; [apply only_logged_event | exact Hlog].
    + unfold bind, log, modify, throw.
      split; [apply only_logged_event | reflexivity].
Qed.

(** [createIndex] returns only with the chunks of all the documents. *)
Lemma createIndex_on_ok pds w built w' :
  createIndex splitText pds w = (Ok built, w') ->
  forallb splits' pds = true /\
  built = (fromDocuments (flat_map chunks_of' pds), map chunked' pds).
Proof.
  unfold createIndex, try_catch.
  match goal with
  | |- context [match ?m w with _ => _ end] => destruct (m w) as [[b|e] w1] eqn:Hbody
  end; [|unfold bind, log, modify, throw; discriminate].
  intros [= <- <-].
  apply bind_ok_inv in Hbody as ([] & w2 & _ & Hbody).
  apply bind_ok_inv in Hbody as (r & w3 & Hchunk & Hbody).
  pose proof (chunk_all_cases pds w2) as Hr. rewrite Hchunk in Hr.
  destruct Hr as (_ & Hs & ->). cbn [fst snd] in Hbody.
  apply bind_ok_inv in Hbody as ([] & w4 & _ & Hbody).
  apply bind_ok_inv in Hbody as (store & w5 & Hext & Hbody).
  assert (store = fromDocuments (flat_map chunks_of' pds)) as ->.
  { revert Hext. unfold external, bind, tick, throw, ret.
    destruct (faults w4) as [|[] o]; simpl; congruence. }
  apply bind_ok_inv in Hbody as ([] & w6 & _ & Hbody).
  injection Hbody as <- _. auto.
Qed.

(** With a silent oracle [createIndex] is decided by the splitter, and
    only logs. *)
Lemma createIndex_eval pds w :
  faults w = [] ->
  exists w',
    only_logged w w' /\
    if forallb splits' pds
    then createIndex splitText pds w
         = (Ok (fromDocuments (flat_map chunks_of' pds), map chunked' pds), w')
    else exists e, createIndex splitText pds w = (Err e, w').
Proof.
  intros Ho.
  pose (W0 := push_event (Log Info "Creating FAISS index for documents" NoData) w).
  pose proof (chunk_all_cases pds W0) as Hr.
  destruct (chunk_all splitText pds W0) as [[r|e] w1] eqn:Hchunk.
  - destruct Hr as (Hlog & -> & ->).
    assert (Ho1 : faults w1 = []).
    { destruct Hlog as (_ & _ & ->). exact Ho. }
    eexists. split; cycle 1.
    { unfold createIndex. apply run_try_ok.
      eapply run_bind; [reflexivity|]. cbv beta.
      eapply run_bind; [exact Hchunk|]. cbv beta.
      eapply run_bind; [reflexivity|]. cbv beta.
      eapply run_bind; [apply run_external; exact Ho1|]. cbv beta.
      eapply run_bind; [reflexivity|]. reflexivity. }
    eapply only_logged_trans; [|apply only_logged_event].
    eapply only_logged_trans; [|apply only_logged_event].
    eapply only_logged_trans; [apply only_logged_event | exact Hlog].
  - destruct Hr as (Hlog & ->).
    eexists. split; cycle 1.
    { exists e. unfold createIndex. eapply run_try_err.
      - eapply run_bind; [reflexivity|]. cbv beta.
        apply run_bind_err. exact Hchunk.
      - reflexivity. }
    eapply only_logged_trans; [|apply only_logged_event].
    eapply only_logged_trans; [apply only_logged_event | exact Hlog].
Qed.

(** The loop over the listing only logs. *)
Lemma preserves_crawl_loop docs :
  forall cs, preserves only_logged (crawl_loop' docs cs).
Proof.
  assert (Hrefl := only_logged_refl). assert (Htrans := only_logged_trans).
  assert (Hev := only_logged_event).
  induction docs as [|d docs IH]; intros cs; cbn [crawl_loop].
  - apply preserves_ret, Hrefl.
  - apply preserves_bind; [exact Htrans| |intros cs'; apply IH].
    unfold crawl_one. apply preserves_try; [exact Htrans| |].
    + apply preserves_bind; [exact Htrans | apply preserves_log; intros; apply Hev |]. intros _.
      apply preserves_bind; [exact Htrans | apply preserves_lift, Hrefl |]. intros pd.
      apply preserves_bind; [exact Htrans | apply preserves_log; intros; apply Hev |]. intros _.
      apply preserves_ret, Hrefl.
    + intros e.
      apply preserves_bind; [exact Htrans | apply preserves_log; intros; apply Hev |]. intros _.
      apply preserves_ret, Hrefl.
Qed.

(** The body of [main] up to the call of [createIndex]. *)
Lemma main_reaches_createIndex docs w :
  sp_initialize = Ok tt ->
  listDocuments = Ok docs ->
  exists w1,
    only_logged w w1 /\
    forall (rest : CrawlState -> M nat) r,
      (log Info "Creating FAISS index" NoData ;;
       rest (mkCrawlState (failures' docs) (length (successes' docs))
               (length (failures' docs)) (successes' docs))) w1 = r ->
      (log Info "Starting SharePoint crawler" NoData ;;
       lift sp_initialize ;;
       documents <- lift listDocuments ;;
       log Info "Found documents to process" NoData ;;
       cs <- crawl_loop' documents (mkCrawlState [] 0 0 []) ;;
       log Info "Creating FAISS index" NoData ;;
       rest cs) w = r.
Proof.
  intros Hinit Hlist.
  pose (W0 := push_event (Log Info "Found documents to process" NoData)
                (push_event (Log Info "Starting SharePoint crawler" NoData) w)).
  destruct (crawl_loop_eval docs (mkCrawlState [] 0 0 []) W0)
    as (w1 & new1 & Hloop & _).
  cbn [errors documentsProcessed documentsSkipped processedDocuments app Nat.add]
    in Hloop.
  exists w1. split.
  { pose proof (preserves_crawl_loop docs (mkCrawlState [] 0 0 []) W0) as H.
    rewrite Hloop in H. cbn [snd] in H.
    eapply only_logged_trans; [|exact H].
    eapply only_logged_trans; apply only_logged_event. }
  intros rest r Hrest.
  eapply run_bind; [reflexivity|]. cbv beta.
  rewrite Hinit. eapply run_bind; [reflexivity|]. cbv beta.
  rewrite Hlist. eapply run_bind; [reflexivity|]. cbv beta.
  eapply run_bind; [reflexivity|]. cbv beta.
  eapply run_bind; [exact Hloop|]. cbv beta. exact Hrest.
Qed.

(** C7, as the code has it.  Let a crawl list [N] documents of which [K]
    are given up (their download or extraction throws, their type has no
    extractor, or their text is blank), with no I/O failure and the lock
    free.  [main] goes through the whole listing and ends with an exit
    code.  When the splitter accepts the text of every extracted document
    and the listing yields at least one index entry, the code is 0:
    [main] reports 'Crawl completed' with [documentsProcessed = N - K],
    [documentsSkipped = K] and [errorCount = K], and, when [K > 0], 'Crawl
    completed with errors' with the [K] errors, one per document given
    up; the generation it published at the production path holds exactly
    the numbered segments of the [N - K] extracted documents, and the
    stats written with it have [totalDocuments = N - K] and [totalChunks]
    equal to the number of entries.  Otherwise (no entry at all, as when
    [K = N], or a text the splitter rejects) the code is 1, 'Crawl
    failed' is logged, and nothing is published: every directory holds
    what it held before. *)
Theorem crawl_partial_failure (docs : list DocumentMetadata) (w : World) :
  faults w = [] ->
  fs_exists_file Production lock_name (fs w) = false ->
  sp_initialize = Ok tt ->
  listDocuments = Ok docs ->
  let N := length docs in
  let K := length (given_up' docs) in
  let gen := expected_generation' docs in
  let st := mkIndexStats (N - K) (length gen) now 0 in
  K <= N /\
  exists code w',
    main' w = (Ok code, w') /\
    if splitter_accepts' docs && Nat.ltb 0 (length gen)
    then
      code = 0 /\
      In (Log Info "Crawl completed" (WithSummary (N - K) K (length gen) K))
         (events w') /\
      (0 < K ->
       In (Log Warn "Crawl completed with errors" (WithErrors (given_up' docs)))
          (events w')) /\
      vectorStore w' = Some (Indexed gen) /\ stats w' = Some (StatsObject st) /\
      exists dprod,
        production (fs w') = Some dprod /\
        dprod !! faiss_name = Some (FaissIndexFile gen) /\
        dprod !! docstore_name = Some (DocstoreFile gen) /\
        dprod !! stats_name = Some (StatsJson st)
    else
      code = 1 /\
      (exists e, In (Log Error "Crawl failed" (WithError (error_message e)))
                    (events w')) /\
      default ∅ (production (fs w')) = default ∅ (production (fs w)) /\
      default ∅ (temp (fs w')) = default ∅ (temp (fs w)) /\
      backup (fs w') = backup (fs w).
Proof.
  intros Ho Hl Hinit Hlist N K gen st.
  assert (HNK : length (successes' docs) = N - K /\ K <= N).
  { pose proof (length_successes docs) as H. rewrite failures_given_up in H.
    subst N K. lia. }
  destruct HNK as [HN HKN]. split; [exact HKN|].
  assert (HK : length (failures' docs) = K) by (rewrite failures_given_up; reflexivity).
  destruct (main_reaches_createIndex docs w Hinit Hlist) as (w1 & Hlog1 & Hprefix).
  pose (W1 := push_event (Log Info "Creating FAISS index" NoData) w1).
  assert (HW1 : only_logged w W1).
  { eapply only_logged_trans; [exact Hlog1 | apply only_logged_event]. }
  destruct (createIndex_eval (successes' docs) W1) as (w2 & Hlog2 & Hci).
  { destruct HW1 as (_ & _ & ->). exact Ho. }
  assert (HW2 : only_logged w w2) by (eapply only_logged_trans; eassumption).
  rewrite splits_accepts, chunks_entries in Hci. fold gen in Hci.
  destruct (splitter_accepts' docs); cbn [andb].
  2:{ (* the splitter rejects a text *)
    destruct Hci as (e & Hci).
    exists 1. eexists. split.
    { unfold main. eapply run_try_err.
      - apply Hprefix. eapply run_bind; [reflexivity|]. cbv beta.
        apply run_bind_err. exact Hci.
      - reflexivity. }
    cbn [events fs push_event]. destruct HW2 as (-> & _).
    split; [reflexivity|]. split; [exists e; left; reflexivity|]. auto. }
  pose (W3 := set_listeners [] (set_stats None (set_vectorStore None
                (push_event (Log Info "Saving FAISS index" NoData) w2)))).
  assert (HfsW3 : fs W3 = fs w) by (destruct HW2 as (H & _); exact H).
  assert (HoW3 : faults W3 = []).
  { destruct HW2 as (_ & _ & H). simpl. rewrite H. exact Ho. }
  assert (HlW3 : fs_exists_file Production lock_name (fs W3) = false)
    by (rewrite HfsW3; exact Hl).
  assert (Hgen : sum_chunks (map chunked' (successes' docs)) = length gen).
  { unfold sum_chunks. rewrite sum_chunks_from, chunks_of_chunked, chunks_entries.
    reflexivity. }
  destruct (fromDocuments_cases gen) as [[Hlt Hfd]|[Hlt Hfd]];
    rewrite Hlt; rewrite Hfd in Hci.
  { (* nothing to index *)
    destruct (save_uninitialised W3 st HoW3 HlW3)
      as (e & w4 & Hsave & Hp4 & Ht4 & Hb4 & _).
    exists 1. eexists. split.
    { unfold main. eapply run_try_err.
      - apply Hprefix. eapply run_bind; [reflexivity|]. cbv beta.
        eapply run_bind; [exact Hci|]. cbv beta zeta.
        cbn [fst snd errors documentsProcessed documentsSkipped processedDocuments].
        rewrite Hgen, HN.
        eapply run_bind; [reflexivity|]. cbv beta.
        eapply run_bind; [reflexivity|]. cbv beta.
        apply run_bind_err. exact Hsave.
      - reflexivity. }
    cbn [events fs push_event]. rewrite Hp4, Ht4, Hb4, HfsW3.
    split; [reflexivity|]. split; [exists e; left; reflexivity|]. auto. }
  (* at least one entry *)
  destruct (save_eval W3 gen st HoW3 HlW3)
    as (w4 & new4 & Hsave & Hev4 & _ & Hprod & _ & _ & Hv4 & Hs4 & _).
  set (summary := Log Info "Crawl completed" (WithSummary (N - K) K (length gen) K)).
  assert (Hrun : exists w',
    main' w = (Ok 0, w') /\ fs w' = fs w4 /\ vectorStore w' = vectorStore w4 /\
    stats w' = stats w4 /\ In summary (events w') /\
    (0 < K -> In (Log Warn "Crawl completed with errors" (WithErrors (given_up' docs)))
                 (events w'))).
  { destruct (Nat.ltb 0 K) eqn:HltK.
    - exists (push_event (Log Warn "Crawl completed with errors" (WithErrors (given_up' docs)))
                (push_event summary w4)).
      split; [|simpl; auto 10].
      unfold main. apply run_try_ok.
      apply Hprefix. eapply run_bind; [reflexivity|]. cbv beta.
      eapply run_bind; [exact Hci|]. cbv beta zeta.
      cbn [fst snd errors documentsProcessed documentsSkipped processedDocuments].
      rewrite Hgen, HN, HK, failures_given_up.
      eapply run_bind; [reflexivity|]. cbv beta.
      eapply run_bind; [reflexivity|]. cbv beta.
      eapply run_bind; [exact Hsave|]. cbv beta.
      eapply run_bind; [reflexivity|]. cbv beta.
      fold K. rewrite HltK.
      eapply run_bind; [reflexivity|]. reflexivity.
    - exists (push_event summary w4).
      split; [|simpl; repeat split; auto;
               intros HposK; apply Nat.ltb_lt in HposK; congruence].
      unfold main. apply run_try_ok.
      apply Hprefix. eapply run_bind; [reflexivity|]. cbv beta.
      eapply run_bind; [exact Hci|]. cbv beta zeta.
      cbn [fst snd errors documentsProcessed documentsSkipped processedDocuments].
      rewrite Hgen, HN, HK, failures_given_up.
      eapply run_bind; [reflexivity|]. cbv beta.
      eapply run_bind; [reflexivity|]. cbv beta.
      eapply run_bind; [exact Hsave|]. cbv beta.
      eapply run_bind; [reflexivity|]. cbv beta.
      fold K. rewrite HltK.
      eapply run_bind; [reflexivity|]. reflexivity. }
  destruct Hrun as (w' & Hmain & Hfs' & Hv' & Hs' & Hsum & Herr).
  exists 0, w'. split; [exact Hmain|].
  rewrite Hfs', Hv', Hs', Hprod, Hv4, Hs4.
  split; [reflexivity|]. split; [exact Hsum|]. split; [exact Herr|].
  split; [reflexivity|]. split; [reflexivity|].
  exists (delete lock_name (new_generation_dir W3 gen st)).
  split; [reflexivity|].
  unfold new_generation_dir, JSON_stringify; names.
  rewrite !lookup_delete_ne by discriminate.
  repeat split;
    repeat first [ rewrite lookup_insert_eq
                 | rewrite lookup_insert_ne by discriminate ]; reflexivity.
Qed.

End CrawlerProperties.

Lemma crawl_partial_failure_witness :
  exists w',
    main (Ok tt) (Ok sample_listing) sample_download sample_pdfParse
         sample_mammoth split_at_spaces 0 (fresh empty_disk 7 []) = (Ok 0, w') /\
    In (Log Info "Crawl completed" (WithSummary 2 1 4 1)) (events w') /\
    stats w' = Some (StatsObject (mkIndexStats 2 4 0 0)).
Proof.
  destruct (crawl_partial_failure (Ok tt) (Ok sample_listing) sample_download
              sample_pdfParse sample_mammoth split_at_spaces 0
              sample_listing (fresh empty_disk 7 []) eq_refl eq_refl eq_refl eq_refl)
    as (_ & code & w' & Hmain & Hcase).
  vm_compute in Hcase.
  destruct Hcase as (-> & Hsum & _ & _ & Hst & _).
  exists w'. split; [exact Hmain|]. split; [exact Hsum | exact Hst].
Defined.

(** A listing whose only document has no extractor ([K = N = 1]): the
    store built from no entry is refused by the library, the crawl ends
    with code 1, and the production path holds no generation and no
    stats. *)
Lemma crawl_of_failures_publishes_nothing :
  fst (main (Ok tt) (Ok [doc_b]) sample_download sample_pdfParse sample_mammoth
         split_at_spaces 0 (fresh empty_disk 7 [])) = Ok 1 /\
  production (fs (snd (main (Ok tt) (Ok [doc_b]) sample_download sample_pdfParse
                         sample_mammoth split_at_spaces 0 (fresh empty_disk 7 []))))
  = Some ∅.
Proof. vm_compute. auto. Qed.

(** ** C8: a query when no generation is loaded *)

Section QueryProperties.

Variable chain_call :
  FaissStore -> string -> nat -> result (string * list (Document * option nat)).

(** C8 (as the code has it).  When nothing is loaded, [getVectorStore]
    throws 'Vector store not loaded'; the query route catches it and
    answers a query that is not blank with the generic
    [AppError('Failed to process query', 500)], the error it gives for any
    failure of the query; a blank query (empty once [trim] has removed
    its white space, U+00A0 included) is rejected before that with
    [AppError('Query is required', 400)].  Either way the chain is not
    called, and the disk, the loaded store, the stats and the listeners
    are what they were. *)
Theorem query_without_index (req : QueryRequest) (w : World) :
  vectorStore w = None ->
  fst (getVectorStore w) = Err NotLoaded /\
  fst (post_query chain_call req w) =
    (if is_empty (trim (query req))
     then Err (AppError "Query is required" 400)
     else Err (AppError "Failed to process query" 500)) /\
  fs (snd (post_query chain_call req w)) = fs w /\
  vectorStore (snd (post_query chain_call req w)) = None /\
  stats (snd (post_query chain_call req w)) = stats w /\
  listeners (snd (post_query chain_call req w)) = listeners w.
Proof.
  intros Hv. destruct w as [f v s l p ev o]. simpl in Hv. subst v.
  split; [reflexivity|].
  unfold post_query.
  assert (Hblank : (is_empty (query req) || is_empty (trim (query req)))
                   = is_empty (trim (query req))).
  { destruct (query req); reflexivity. }
  rewrite Hblank.
  destruct (is_empty (trim (query req))); repeat split.
Qed.

End QueryProperties.

Lemma query_without_index_witness :
  fst (post_query no_chain sample_query (fresh empty_disk 7 []))
  = Err (AppError "Failed to process query" 500).
Proof.
  apply (query_without_index no_chain sample_query (fresh empty_disk 7 [])).
  reflexivity.
Defined.

(** A reader started before any build: the caller of the query route gets
    the generic error of the route, with status 500, not the store's
    'Vector store not loaded'. *)
Lemma query_error_is_generic :
  fst (getVectorStore (fresh empty_disk 7 [])) = Err NotLoaded /\
  fst (post_query no_chain sample_query (fresh empty_disk 7 []))
  = Err (AppError "Failed to process query" 500) /\
  fst (post_query no_chain (mkQueryRequest "   " None) (fresh empty_disk 7 []))
  = Err (AppError "Query is required" 400).
Proof. repeat split. Qed.

(** ** C9: one crawl at a time *)

Lemma router_inv_reachable r : reachable r -> router_inv r.
Proof.
  induction 1 as [|r r' Hr IH Hstep]; [reflexivity|].
  unfold router_inv in *.
  destruct Hstep as [r | r | r code Hpos].
  - unfold post_trigger. destruct (crawlInProgress r) eqn:E; simpl.
    + rewrite E. exact IH.
    + rewrite IH. reflexivity.
  - exact IH.
  - simpl. destruct (crawlInProgress r); [rewrite IH; reflexivity | lia].
Qed.

(** C9.  In every state the router can reach (requests handled and
    children closing, in any order), at most one spawned crawl is running,
    and it is running exactly when the in-process flag [crawlInProgress]
    is set.  A trigger that arrives while the flag is set is answered at
    once with [AppError('A crawl is already in progress', 409)]: it spawns
    nothing and leaves the router as it was.  The flag is a variable of
    the router's closure; no file is involved. *)
Theorem trigger_while_in_progress (r : CrawlerRouter) :
  reachable r ->
  children r <= 1 /\
  (children r = 1 <-> crawlInProgress r = true) /\
  (crawlInProgress r = true ->
   post_trigger r = (Rejected (AppError "A crawl is already in progress" 409), r)) /\
  (crawlInProgress r = false ->
   fst (post_trigger r) = Accepted /\
   children (snd (post_trigger r)) = 1 /\
   crawlInProgress (snd (post_trigger r)) = true).
Proof.
  intros Hr. pose proof (router_inv_reachable r Hr) as Hinv.
  unfold router_inv in Hinv. unfold post_trigger.
  destruct (crawlInProgress r); rewrite Hinv; simpl.
  - repeat split; auto; discriminate.
  - repeat split; auto; try discriminate; try lia.
Qed.

Lemma trigger_while_in_progress_witness :
  post_trigger (snd (post_trigger createCrawlerRouter))
  = (Rejected (AppError "A crawl is already in progress" 409),
     snd (post_trigger createCrawlerRouter)).
Proof.
  apply (trigger_while_in_progress (snd (post_trigger createCrawlerRouter))).
  - eapply reach_step; [apply reach_init | apply step_trigger].
  - reflexivity.
Defined.

(** ** C10: a watcher started before the index exists *)

Lemma reloads_of_quiet id new old :
  forallb (fun e => negb (is_reload id e)) new = true ->
  reloads_of id (new ++ old) = reloads_of id old.
Proof.
  induction new as [|e new IH]; simpl; [reflexivity|].
  intros H. apply andb_prop in H as [He Hn]. specialize (IH Hn).
  destruct e; simpl in *; try exact IH.
  apply negb_true_iff in He. rewrite He. exact IH.
Qed.

Lemma quiet_reloads id {A} (m : M A) w :
  quiet (is_reload id) m ->
  ok_listeners (is_reload id) w ->
  ok_listeners (is_reload id) (snd (m w)) /\
  reloads_of id (events (snd (m w))) = reloads_of id (events w).
Proof.
  intros Hq Hok. destruct (Hq w Hok) as [Hok' (new & Hev & Hnew)].
  split; [exact Hok'|]. rewrite Hev. apply reloads_of_quiet, Hnew.
Qed.

(** Without an open file-system watcher, nothing that happens to the
    reader process makes watcher [id] call its reload callback, as long as
    its listener is not registered. *)
Lemma run_action_quiet iw a :
  watcher iw = None -> quiet (is_reload (watcher_id iw)) (run_action iw a).
Proof.
  intros Hw. destruct a as [store st | | | eventType name]; simpl.
  - apply quiet_try; [|intros; apply quiet_ret].
    apply quiet_save; intros; reflexivity.
  - apply quiet_try; [|intros; apply quiet_ret].
    apply quiet_bind; [|intros; apply quiet_ret].
    apply quiet_load; intros; reflexivity.
  - apply quiet_reload; intros; reflexivity.
  - unfold deliver_fs_event. destruct iw as [id [|open older]]; [|discriminate].
    apply quiet_ret.
Qed.

Lemma run_actions_quiet iw actions :
  watcher iw = None ->
  forall w,
    ok_listeners (is_reload (watcher_id iw)) w ->
    reloads_of (watcher_id iw) (events (run_actions iw actions w))
    = reloads_of (watcher_id iw) (events w).
Proof.
  intros Hw. induction actions as [|a actions IH]; intros w Hok; simpl.
  - reflexivity.
  - destruct (quiet_reloads (watcher_id iw) (run_action iw a) w
                (run_action_quiet iw a Hw) Hok) as [Hok' Hre].
    rewrite (IH _ Hok'). exact Hre.
Qed.

(** C10.  When the production path does not exist, [start] returns after
    its warning: [this.watcher] stays unset and no listener of
    'indexUpdated' is added.  From then on, whatever happens in the process
    (saves, successful or not, loads, reloads, changes reported for any
    file of the index directory), the reload callback of this watcher is
    never called, provided no listener of this watcher had been registered
    before. *)
Theorem start_before_index_exists (iw : IndexWatcher) (w : World)
    (actions : list action) :
  production (fs w) = None ->
  watcher iw = None ->
  ok_listeners (is_reload (watcher_id iw)) w ->
  fst (start iw w) = Ok iw /\
  listeners (snd (start iw w)) = listeners w /\
  fs (snd (start iw w)) = fs w /\
  events (snd (start iw w))
    = Log Warn "Index path does not exist. Watcher not started." NoData :: events w /\
  reloads_of (watcher_id iw) (events (run_actions iw actions (snd (start iw w))))
    = reloads_of (watcher_id iw) (events w).
Proof.
  intros Hp Hw Hok.
  assert (Hstart : start iw w =
            (Ok iw, push_event
                      (Log Warn "Index path does not exist. Watcher not started." NoData) w)).
  { unfold start, existsSync_dir, get, bind, fs_exists_dir. simpl.
    rewrite Hp. reflexivity. }
  rewrite Hstart. simpl. repeat split.
  rewrite (run_actions_quiet iw actions Hw); [reflexivity|exact Hok].
Qed.

Lemma start_before_index_exists_witness :
  reloads_of 1 (events (run_actions early_watcher later_actions
                          (snd (start early_watcher (fresh empty_disk 7 [])))))
  = 0.
Proof.
  apply (start_before_index_exists early_watcher (fresh empty_disk 7 []) later_actions);
    reflexivity.
Defined.

(** * Further properties of the code *)

(** ** [VectorStore]: what [load] and [save] do to the object *)

(** The end of [load], once the index was read: it cannot throw, and the
    store it returns is the one it has installed. *)
Lemma load_tail_spec (v : FaissStore) (w : World) :
  exists w',
    (modify (set_vectorStore (Some v)) ;;
     loadStats ;;
     releaseLock ;;
     st <- get stats ;;
     log Info "FAISS index loaded successfully" (WithStats st) ;;
     ret v) w = (Ok v, w') /\
    vectorStore w' = Some v /\ listeners w' = listeners w /\ pid w' = pid w.
Proof.
  unfold bind at 1. unfold modify at 1.
  destruct (loadStats_spec (set_vectorStore (Some v) w))
    as (w1 & H1 & _ & Hv1 & Hl1 & Hp1 & _).
  unfold bind at 1. rewrite H1.
  destruct (releaseLock_spec w1) as (w2 & H2 & Hv2 & _ & Hl2 & Hp2 & _).
  unfold bind at 1. rewrite H2.
  eexists. split; [reflexivity|]. simpl.
  rewrite Hv2, Hv1, Hl2, Hl1, Hp2, Hp1. repeat split.
Qed.

Lemma load_on_error : on_error same_object load.
Proof.
  assert (Hrefl := same_object_refl). assert (Htrans := same_object_trans).
  unfold load. apply on_error_try; [exact Htrans| |].
  - apply on_error_bind; [exact Htrans | apply object_acquireLock |]. intros _.
    apply on_error_bind; [exact Htrans | apply preserves_existsSync_dir, Hrefl |].
    intros ex.
    apply on_error_bind; [exact Htrans | |].
    { apply preserves_if; [apply preserves_ret | apply preserves_throw]; exact Hrefl. }
    intros _.
    apply on_error_bind;
      [exact Htrans | apply object_log |]. intros _.
    apply on_error_bind; [exact Htrans | apply object_io_read |]. intros v.
    apply never_throws_on_error. intros w.
    destruct (load_tail_spec v w) as (w' & H & _). rewrite H. exists v. reflexivity.
  - intros e.
    apply preserves_bind; [exact Htrans | apply object_releaseLock |]. intros _.
    apply preserves_bind;
      [exact Htrans | apply object_log |]. intros _.
    apply preserves_throw, Hrefl.
Qed.

Lemma load_on_ok (w : World) v w' :
  load w = (Ok v, w') ->
  vectorStore w' = Some v /\ listeners w' = listeners w /\ pid w' = pid w.
Proof.
  unfold load. intros H. apply try_rethrow_ok_inv in H.
  apply bind_ok_inv in H as ([] & w1 & Hacq & H).
  pose proof (object_acquireLock w) as (_ & _ & Hl1 & Hp1).
  rewrite Hacq in Hl1, Hp1. simpl in Hl1, Hp1.
  apply bind_ok_inv in H as (ex & w2 & Hex & H).
  injection Hex as <- <-.
  apply bind_ok_inv in H as ([] & w3 & Hguard & H).
  assert (w3 = w1) as -> by (destruct (fs_exists_dir Production (fs w1));
                               [injection Hguard as <-; reflexivity | discriminate]).
  apply bind_ok_inv in H as ([] & w4 & Hlog & H).
  injection Hlog as <-.
  apply bind_ok_inv in H as (v0 & w5 & Hread & H).
  pose proof (object_io_read (fs_faiss_load Production)
                (push_event (Log Info "Loading FAISS index from disk" NoData) w1))
    as (_ & _ & Hl5 & Hp5).
  rewrite Hread in Hl5, Hp5. simpl in Hl5, Hp5.
  destruct (load_tail_spec v0 w5) as (w6 & Htail & Hv & Hl & Hp).
  rewrite Htail in H. injection H as <- <-.
  rewrite Hl, Hp, Hl5, Hp5, Hl1, Hp1. auto.
Qed.

(** X1.  Whatever the disk holds and whichever I/O calls fail: a [load]
    that throws leaves the object as it was, so [getVectorStore] answers as
    before and a generation loaded earlier keeps being served; a [load]
    that returns has installed the store it returns. *)
Theorem load_failure_keeps_store (w : World) :
  match load w with
  | (Ok v, w') =>
      fst (getVectorStore w') = Ok v /\ listeners w' = listeners w
  | (Err e, w') =>
      vectorStore w' = vectorStore w /\ stats w' = stats w /\
      listeners w' = listeners w /\
      fst (getVectorStore w') = fst (getVectorStore w)
  end.
Proof.
  destruct (load w) as [[v|e] w'] eqn:H.
  - apply load_on_ok in H as (Hv & Hl & _).
    split; [|exact Hl]. unfold getVectorStore, bind, get. rewrite Hv. reflexivity.
  - apply load_on_error in H as (Hv & Hs & Hl & _).
    repeat split; try assumption.
    unfold getVectorStore, bind, get. rewrite Hv.
    destruct (vectorStore w); reflexivity.
Qed.

(** A mutating call that returned did what [op] says, and nothing else. *)
Lemma io_write_ok_inv (op : FS -> result FS) (w : World) u w' :
  io_write op w = (Ok u, w') ->
  op (fs w) = Ok (fs w') /\ same_object w w'.
Proof.
  unfold io_write, bind, tick, throw.
  destruct (faults w) as [|[] o]; simpl; try discriminate;
    destruct (op (fs w)) as [f'|e]; try discriminate;
    intros [= _ <-]; simpl; repeat split.
Qed.

(** The end of [save], once the new directory is in place: it cannot
    throw. *)
Lemma save_tail_spec (store : FaissStore) (st : IndexStats) (w : World) :
  exists w',
    (modify (set_vectorStore (Some store)) ;;
     modify (set_stats (Some (StatsObject st))) ;;
     releaseLock ;;
     log Info "FAISS index saved successfully" (WithStats (Some (StatsObject st))) ;;
     emit_indexUpdated st) w = (Ok tt, w') /\
    vectorStore w' = Some store /\ stats w' = Some (StatsObject st) /\
    listeners w' = listeners w /\
    temp (fs w') = temp (fs w) /\ backup (fs w') = backup (fs w) /\
    (production (fs w') = production (fs w) \/
     exists d, production (fs w) = Some d /\
               production (fs w') = Some (delete lock_name d)).
Proof.
  unfold bind at 1. unfold modify at 1.
  unfold bind at 1. unfold modify at 1.
  destruct (releaseLock_spec (set_stats (Some (StatsObject st))
                                (set_vectorStore (Some store) w)))
    as (w1 & H1 & Hv1 & Hs1 & Hl1 & _ & _ & Hout).
  unfold bind at 1. rewrite H1.
  unfold bind at 1. unfold log at 1, modify at 1.
  destruct (emit_indexUpdated_spec st
              (push_event (Log Info "FAISS index saved successfully"
                             (WithStats (Some (StatsObject st)))) w1))
    as (w2 & new & H2 & _ & _ & _ & Hfs2 & Hv2 & Hs2 & Hl2 & _).
  rewrite H2. exists w2. split; [reflexivity|].
  simpl in *. rewrite Hv2, Hs2, Hl2, Hfs2, Hv1, Hs1, Hl1.
  do 3 (split; [reflexivity|]).
  destruct Hout as [_ Hfs _ | d Hp Hfs _ | _ Hfs _]; rewrite Hfs; simpl.
  - auto.
  - repeat split. right. exists d. auto.
  - auto.
Qed.

Lemma save_on_error store st : on_error same_object (save store st).
Proof. apply on_error_save; by_same_object. Qed.

(** A [save] that returns went through every one of its steps. *)
Lemma save_on_ok (store : FaissStore) (st : IndexStats) (w : World) u w' :
  save store st w = (Ok u, w') ->
  store = Indexed (store_docs store) /\
  (exists d, production (fs w') = Some d /\
             holds_generation d (store_docs store) st) /\
  temp (fs w') = None /\
  vectorStore w' = Some store /\ stats w' = Some (StatsObject st) /\
  listeners w' = listeners w.
Proof.
  unfold save. intros H. apply try_rethrow_ok_inv in H.
  apply bind_ok_inv in H as ([] & w1 & Hacq & H).
  pose proof (object_acquireLock w) as (_ & _ & Hl1 & _).
  rewrite Hacq in Hl1. simpl in Hl1.
  apply bind_ok_inv in H as ([] & w1' & Hlog & H). injection Hlog as <-.
  apply bind_ok_inv in H as ([] & w2 & Hmk & H).
  apply io_write_ok_inv in Hmk as (Hfs2 & _ & _ & Hl2 & _).
  apply bind_ok_inv in H as ([] & w3 & Hfa & H).
  destruct store as [|docs]; cbn [FaissStore_save store_docs] in *.
  { apply bind_ok_inv in Hfa as ([] & w3' & _ & Hthrow). discriminate. }
  split; [reflexivity|].
  apply io_write_ok_inv in Hfa as (Hfs3 & _ & _ & Hl3 & _).
  apply bind_ok_inv in H as ([] & w4 & Hst & H).
  apply io_write_ok_inv in Hst as (Hfs4 & _ & _ & Hl4 & _).
  apply bind_ok_inv in H as (ex & w4' & Hex & H). injection Hex as <- <-.
  apply bind_ok_inv in H as ([] & w5 & Hswap & H).
  apply bind_ok_inv in H as ([] & w6 & Hren & H).
  apply io_write_ok_inv in Hren as (Hfs6 & _ & _ & Hl6 & _).
  destruct (save_tail_spec (Indexed docs) st w6)
    as (w7 & Htail & Hv & Hs & Hl7 & Ht7 & _ & Hp7).
  rewrite Htail in H. injection H as <- <-.
  (* the new directory, as the two writes built it *)
  unfold fs_faiss_save in Hfs3. injection Hfs3 as Hfs3.
  assert (Ht4 : exists d4, temp (fs w4) = Some d4 /\ holds_generation d4 docs st).
  { revert Hfs4. unfold fs_writeFile. rewrite <- Hfs3. simpl.
    rewrite lookup_insert_ne by discriminate.
    rewrite lookup_insert_ne by discriminate.
    destruct (default ∅ (temp (fs w2)) !! stats_name);
      intros [= <-]; simpl; eexists; (split; [reflexivity|]);
      unfold holds_generation, JSON_stringify;
      rewrite lookup_insert_eq;
      rewrite !lookup_insert_ne by discriminate;
      rewrite lookup_insert_eq;
      rewrite !lookup_insert_ne by discriminate;
      rewrite lookup_insert_eq; auto. }
  destruct Ht4 as (d4 & Ht4 & Hgen).
  (* after the first rename, or without it, the production path is free *)
  assert (H5 : production (fs w5) = None /\ temp (fs w5) = Some d4 /\
               listeners w5 = listeners w4).
  { revert Hswap. unfold fs_exists_dir. simpl.
    destruct (production (fs w4)) as [dp|] eqn:Hp4.
    - intros Hswap.
      apply bind_ok_inv in Hswap as (exb & w4' & Hexb & Hswap).
      injection Hexb as <- <-.
      apply bind_ok_inv in Hswap as ([] & w4b & Hrm & Hswap).
      assert (Hb : production (fs w4b) = Some dp /\ temp (fs w4b) = Some d4 /\
                   backup (fs w4b) = None /\ listeners w4b = listeners w4).
      { revert Hrm. unfold fs_exists_dir. simpl.
        destruct (backup (fs w4)) as [db|] eqn:Hb4.
        - intros Hrm. apply io_write_ok_inv in Hrm as (Hrm & _ & _ & Hlb & _).
          unfold fs_rm_rf in Hrm. injection Hrm as Hrm. rewrite <- Hrm. simpl. auto.
        - intros [= <-]. auto. }
      destruct Hb as (Hpb & Htb & Hbb & Hlb).
      apply io_write_ok_inv in Hswap as (Hswap & _ & _ & Hl5 & _).
      revert Hswap. unfold fs_rename. simpl. rewrite Hpb, Hbb.
      intros [= <-]. simpl. rewrite Htb, Hl5, Hlb. auto.
    - intros [= <-]. auto. }
  destruct H5 as (Hp5 & Ht5 & Hl5).
  revert Hfs6. unfold fs_rename. simpl. rewrite Ht5, Hp5. intros [= Hfs6].
  rewrite <- Hfs6 in Hp7, Ht7. simpl in Hp7, Ht7.
  split.
  - destruct Hp7 as [Hp7 | (d & [= <-] & Hp7)].
    + exists d4. split; [exact Hp7 | exact Hgen].
    + exists (delete lock_name d4). split; [exact Hp7|].
      destruct Hgen as (G1 & G2 & G3). unfold holds_generation.
      rewrite !lookup_delete_ne by discriminate. auto.
  - split; [exact Ht7|]. split; [exact Hv|]. split; [exact Hs|].
    rewrite Hl7, Hl6, Hl5, Hl4, Hl3, Hl2. exact Hl1.
Qed.

(** X2.  Whatever the disk holds and whichever I/O calls fail: a [save]
    that returns was given a store that has an index, has put the
    documents of that store, with the sidecar, at the production path, has
    removed the temporary directory and has installed the store and the
    stats in the object; a [save] that throws leaves the store and the
    stats of the object as they were. *)
Theorem save_outcome (store : FaissStore) (st : IndexStats) (w : World) :
  match save store st w with
  | (Ok _, w') =>
      store = Indexed (store_docs store) /\
      (exists d, production (fs w') = Some d /\
                 holds_generation d (store_docs store) st) /\
      temp (fs w') = None /\
      vectorStore w' = Some store /\ stats w' = Some (StatsObject st)
  | (Err e, w') =>
      vectorStore w' = vectorStore w /\ stats w' = stats w
  end.
Proof.
  destruct (save store st w) as [[u|e] w'] eqn:H.
  - apply save_on_ok in H as (Hi & Hd & Ht & Hv & Hs & _). auto.
  - apply save_on_error in H as (Hv & Hs & _). auto.
Qed.

(** X3.  Round trip.  After a [save] of a store that has an index,
    which found the lock free and met no I/O failure, any process that
    calls [load] on the disk as [save] left it (the saving process itself
    or another one, with anything or nothing loaded before) gets back a
    store with the documents that were saved; the [load] leaves the disk
    as it found it.  The stats it then has are what [JSON.parse] makes of
    the sidecar [save] wrote: the numbers that were saved, with
    [lastUpdated] as a string, whereas the saving process holds the object
    it was given, with its [Date]. *)
Theorem save_then_load (w reader : World) (docs : list Document) (st : IndexStats) :
  faults w = [] ->
  fs_exists_file Production lock_name (fs w) = false ->
  fs reader = fs (snd (save (Indexed docs) st w)) ->
  faults reader = [] ->
  fst (save (Indexed docs) st w) = Ok tt /\
  fst (getStats (snd (save (Indexed docs) st w))) = Ok (Some (StatsObject st)) /\
  fst (load reader) = Ok (Indexed docs) /\
  fst (getVectorStore (snd (load reader))) = Ok (Indexed docs) /\
  fst (getStats (snd (load reader))) = Ok (Some (Parsed (StatsJson st))) /\
  fs (snd (load reader)) = fs reader.
Proof.
  intros Ho Hfree Hfs Hor.
  destruct (save_eval w docs st Ho Hfree)
    as (w' & new & Hsave & _ & _ & Hprod & _ & _ & _ & Hst' & _).
  rewrite Hsave in Hfs |- *. cbn [snd fst] in Hfs |- *.
  assert (Hp : production (fs reader)
               = Some (delete lock_name (new_generation_dir w docs st)))
    by (rewrite Hfs; exact Hprod).
  destruct (load_eval reader (delete lock_name (new_generation_dir w docs st))
              docs docs Hor) as (r' & Hload & Hv & Hfs' & _ & _ & Hst).
  - exact Hp.
  - apply lookup_delete_eq.
  - unfold new_generation_dir. rewrite lookup_delete_ne by discriminate.
    rewrite !lookup_insert_ne by discriminate. apply lookup_insert_eq.
  - unfold new_generation_dir. rewrite lookup_delete_ne by discriminate.
    rewrite lookup_insert_ne by discriminate. apply lookup_insert_eq.
  - rewrite Hload. cbn [snd fst].
    split; [reflexivity|].
    split; [unfold getStats, get; cbn [fst]; rewrite Hst'; reflexivity|].
    split; [reflexivity|].
    split; [unfold getVectorStore, bind, get; rewrite Hv; reflexivity|].
    split; [|exact Hfs'].
    unfold getStats, get. cbn [fst]. rewrite Hst.
    unfold new_generation_dir, JSON_stringify.
    rewrite lookup_delete_ne by discriminate.
    rewrite lookup_insert_eq. reflexivity.
Qed.

Lemma save_then_load_witness :
  fst (load (snd (save gen_new stats_new (fresh disk_old 7 [])))) = Ok gen_new.
Proof.
  destruct (save_then_load (fresh disk_old 7 [])
              (snd (save gen_new stats_new (fresh disk_old 7 [])))
              docs_new stats_new) as (_ & _ & H & _);
    [reflexivity | reflexivity | reflexivity | vm_compute; reflexivity | exact H].
Defined.

(** A [load] that waits for a lock in vain. *)
Lemma load_lock_held w d holder :
  faults w = [] ->
  production (fs w) = Some d ->
  d !! lock_name = Some holder ->
  exists w2,
    load w = (Err LockTimeout, w2) /\
    fs w2 = put_dir Production (Some (delete lock_name d)) (fs w) /\
    vectorStore w2 = vectorStore w /\ stats w2 = stats w.
Proof.
  intros Ho Hp Hl.
  destruct (acquireLock_loop_held 30 1000 w d holder Ho Hp Hl)
    as (w1 & Hrun & Hfs & Hfa & Hv & Hs & Hli & Hpi & Hsl).
  unfold load, acquireLock_default, acquireLock.
  unfold try_catch at 1. unfold bind at 1. rewrite Hrun.
  destruct w1 as [f1 v1 s1 l1 p1 ev1 o1]. simpl in Hfs, Hfa, Hv, Hs, Hli, Hpi, Hsl.
  subst f1 o1 v1 s1.
  destruct (fs w) as [pr t b] eqn:Hw. simpl in Hp. subst pr.
  names. run_m. repeat (rewrite Hl; run_m).
  eexists. split; [reflexivity|]. simpl. repeat split; reflexivity.
Qed.

(** X4.  A method that gives up on a lock it did not take removes that
    lock.  With a token in place (whoever wrote it, and whether its writer
    is still at work or not) and no I/O failure, a [save] or a [load] fails
    with the timeout after its thirty retries; its [catch] block runs
    [releaseLock], which deletes the token without looking at whose it is.
    A second [save] in the same process, of a store that has an index,
    then finds the lock free and publishes its generation. *)
Theorem giving_up_removes_the_lock (w : World) (d : gmap string blob)
    (holder : blob) (s1 : FaissStore) (docs2 : list Document)
    (st1 st2 : IndexStats) :
  faults w = [] ->
  production (fs w) = Some d ->
  d !! lock_name = Some holder ->
  fst (load w) = Err LockTimeout /\
  production (fs (snd (load w))) = Some (delete lock_name d) /\
  fst (save s1 st1 w) = Err LockTimeout /\
  production (fs (snd (save s1 st1 w))) = Some (delete lock_name d) /\
  fst (save (Indexed docs2) st2 (snd (save s1 st1 w))) = Ok tt /\
  exists d',
    production (fs (snd (save (Indexed docs2) st2 (snd (save s1 st1 w))))) = Some d' /\
    holds_generation d' docs2 st2.
Proof.
  intros Ho Hp Hl.
  destruct (load_lock_held w d holder Ho Hp Hl) as (wl & Hload & Hfsl & _).
  rewrite Hload. cbn [fst snd].
  split; [reflexivity|]. split; [rewrite Hfsl; reflexivity|].
  pose proof (silent_save s1 st1 w Ho) as Ho1.
  destruct (save_lock_held w d holder s1 st1 Ho Hp Hl) as (w1 & H1 & Hfs1 & _).
  rewrite H1 in Ho1 |- *. cbn [fst snd] in Ho1 |- *.
  split; [reflexivity|].
  split; [rewrite Hfs1; reflexivity|].
  assert (Hfree : fs_exists_file Production lock_name (fs w1) = false).
  { rewrite Hfs1. unfold fs_exists_file. simpl. rewrite lookup_delete_eq. reflexivity. }
  destruct (save_eval w1 docs2 st2 Ho1 Hfree) as (w2 & new & H2 & _).
  rewrite H2. cbn [fst snd]. split; [reflexivity|].
  apply save_on_ok in H2 as (_ & Hd & _). exact Hd.
Qed.

Lemma giving_up_removes_the_lock_witness :
  fst (save gen_new stats_new
         (snd (save gen_new stats_new (fresh disk_locked 7 [])))) = Ok tt.
Proof.
  destruct (giving_up_removes_the_lock (fresh disk_locked 7 []) stale_dir
              (PidText 4242) gen_new docs_new stats_new stats_new)
    as (_ & _ & _ & _ & H & _); [reflexivity | reflexivity | reflexivity | exact H].
Defined.

(** What [reload] makes of the outcome of its [load]. *)
Lemma reload_run (w : World) :
  reload w =
  match load w with
  | (Ok v, w') => (Ok tt, push_event (Log Info "Index reloaded successfully" NoData) w')
  | (Err e, w') =>
      (Ok tt, push_event (Log Error "Failed to reload index"
                            (WithError (error_message e))) w')
  end.
Proof.
  unfold reload, try_catch, bind. destruct (load w) as [[v|e] w']; reflexivity.
Qed.

(** X5.  A reload, as the watcher runs it, never throws: a [load] that
    fails is logged and swallowed, and the object keeps the store and the
    stats it had, so queries go on being answered from the generation
    loaded before; a [load] that succeeds installs the store it read. *)
Theorem reload_keeps_serving (w : World) :
  fst (reload w) = Ok tt /\
  match fst (load w) with
  | Ok v => fst (getVectorStore (snd (reload w))) = Ok v
  | Err _ =>
      vectorStore (snd (reload w)) = vectorStore w /\
      stats (snd (reload w)) = stats w /\
      fst (getVectorStore (snd (reload w))) = fst (getVectorStore w)
  end.
Proof.
  rewrite reload_run.
  destruct (load w) as [[v|e] w'] eqn:Hload; cbn [fst snd].
  - split; [reflexivity|].
    apply load_on_ok in Hload as (Hv & _).
    unfold getVectorStore, bind, get. simpl. rewrite Hv. reflexivity.
  - split; [reflexivity|].
    apply load_on_error in Hload as (Hv & Hs & _).
    unfold getVectorStore, bind, get. simpl.
    rewrite Hv, Hs. destruct (vectorStore w); auto.
Qed.




(** ** The crawler: what its exit code tells *)

Section CrawlerExit.

Variable sp_initialize : result unit.
Variable listDocuments : result (list DocumentMetadata).
Variable downloadDocument : string -> result string.
Variable pdfParse : string -> result string.
Variable mammoth_extractRawText : string -> result string.
Variable splitText : string -> result (list string).
Variable now : nat.

Local Abbreviation the_main :=
  (main sp_initialize listDocuments downloadDocument pdfParse
        mammoth_extractRawText splitText now).
Local Abbreviation extracted :=
  (successes downloadDocument pdfParse mammoth_extractRawText).
Local Abbreviation generation_of :=
  (expected_generation downloadDocument pdfParse mammoth_extractRawText splitText).
Local Abbreviation errors_of :=
  (given_up downloadDocument pdfParse mammoth_extractRawText now).
Local Abbreviation accepts :=
  (splitter_accepts downloadDocument pdfParse mammoth_extractRawText splitText).

(** X7.  What the exit code of the crawler tells, whatever the disk holds
    and whichever I/O calls fail.  [main] always ends with code 0 or 1.
    Code 0 is given only after the listing succeeded, the splitter
    accepted the text of every extracted document, and the index entries
    of the listing, of which there is at least one, were put at the
    production path: the numbered segments of exactly the extracted
    documents, with a sidecar whose [totalDocuments] is the number of
    listed documents that were not given up and whose [totalChunks] is
    the number of entries. *)
Theorem crawler_exit_code (w : World) :
  match the_main w with
  | (Ok code, w') =>
      code = 1 \/
      (code = 0 /\
       exists docs d,
         listDocuments = Ok docs /\
         accepts docs = true /\
         0 < length (generation_of docs) /\
         production (fs w') = Some d /\
         holds_generation d (generation_of docs)
           (mkIndexStats (length docs - length (errors_of docs))
              (length (generation_of docs)) now 0))
  | (Err _, _) => False
  end.
Proof.
  unfold main, try_catch.
  match goal with
  | |- context [match ?m w with _ => _ end] => destruct (m w) as [[code|e] w'] eqn:Hbody
  end; [|unfold bind, log, modify, ret; left; reflexivity].
  right.
  apply bind_ok_inv in Hbody as ([] & w1 & _ & Hbody).
  apply bind_ok_inv in Hbody as ([] & w2 & _ & Hbody).
  apply bind_ok_inv in Hbody as (docs & w3 & Hlist & Hbody).
  assert (Hdocs : listDocuments = Ok docs).
  { revert Hlist. unfold lift. congruence. }
  apply bind_ok_inv in Hbody as ([] & w4 & _ & Hbody).
  apply bind_ok_inv in Hbody as (cs & w5 & Hloop & Hbody).
  destruct (crawl_loop_eval downloadDocument pdfParse mammoth_extractRawText now
              docs (mkCrawlState [] 0 0 []) w4) as (w5' & new & Hrun & _).
  rewrite Hrun in Hloop. injection Hloop as <- _.
  cbn [errors documentsProcessed documentsSkipped processedDocuments app Nat.add]
    in Hbody.
  apply bind_ok_inv in Hbody as ([] & w6 & _ & Hbody).
  apply bind_ok_inv in Hbody as (built & w7 & Hci & Hbody).
  apply createIndex_on_ok in Hci as (Hsplit & ->). cbn [fst snd] in Hbody.
  rewrite splits_accepts in Hsplit. rewrite chunks_entries in Hbody.
  apply bind_ok_inv in Hbody as ([] & w8 & _ & Hbody).
  apply bind_ok_inv in Hbody as ([] & w9 & _ & Hbody).
  apply bind_ok_inv in Hbody as ([] & w10 & Hsave & Hbody).
  apply save_on_ok in Hsave as (Hidx & (d & Hp & Hgen) & _).
  destruct (fromDocuments_cases (generation_of docs)) as [[_ Hfd]|[Hlt Hfd]];
    rewrite Hfd in Hidx, Hgen; [discriminate Hidx|].
  cbn [store_docs] in Hgen. apply Nat.ltb_lt in Hlt.
  apply bind_ok_inv in Hbody as ([] & w11 & Hlog1 & Hbody).
  injection Hlog1 as <-.
  apply bind_ok_inv in Hbody as ([] & w12 & Hlog2 & Hbody).
  assert (Hfs : fs w12 = fs w10).
  { revert Hlog2. destruct (Nat.ltb 0 _); intros [= <-]; reflexivity. }
  injection Hbody as <- <-.
  split; [reflexivity|]. exists docs, d.
  split; [exact Hdocs|]. split; [exact Hsplit|]. split; [exact Hlt|].
  split; [rewrite Hfs; exact Hp|].
  revert Hgen. unfold sum_chunks.
  rewrite sum_chunks_from, chunks_of_chunked, chunks_entries.
  pose proof (length_successes downloadDocument pdfParse mammoth_extractRawText
                now docs) as Hlen.
  rewrite failures_given_up in Hlen.
  replace (length docs - length (errors_of docs))
    with (length (extracted docs)) by lia.
  simpl. auto.
Qed.

(** X8.  A crawl that cannot start or cannot chunk writes nothing.  When
    the SharePoint client fails to initialise, when the listing fails, or
    when the splitter rejects the text of one extracted document, [main]
    ends with code 1 and has touched neither the disk (not even the lock)
    nor any object nor the oracle: it has only logged.  A document whose
    chunking fails is thus fatal to the whole crawl, unlike a document
    whose download or extraction fails. *)
Theorem crawl_aborts_before_writing (w : World) :
  is_ok sp_initialize = false \/
  is_ok listDocuments = false \/
  (exists docs, listDocuments = Ok docs /\
                forallb (splits splitText) (extracted docs) = false) ->
  fst (the_main w) = Ok 1 /\
  only_logged w (snd (the_main w)) /\
  exists e, In (Log Error "Crawl failed" (WithError (error_message e)))
               (events (snd (the_main w))).
Proof.
  intros Hcause. unfold main, try_catch.
  match goal with
  | |- context [match ?m w with _ => _ end] =>
      assert (Hbody : exists e w1, m w = (Err e, w1) /\ only_logged w w1)
  end.
  { unfold bind at 1. unfold log at 1, modify at 1.
    destruct sp_initialize as [[]|e0] eqn:Hinit.
    2:{ eexists _, _. split; [reflexivity|]. apply only_logged_event. }
    unfold bind at 1. unfold lift at 1.
    destruct listDocuments as [docs|e0] eqn:Hlist.
    2:{ eexists _, _. split; [reflexivity|]. apply only_logged_event. }
    destruct Hcause as [Hc | [Hc | (docs' & [= <-] & Hsplit)]];
      [discriminate | discriminate |].
    unfold bind at 1. unfold lift at 1.
    unfold bind at 1. unfold log at 1, modify at 1.
    unfold bind at 1.
    match goal with
    | |- context [crawl_loop _ _ _ _ docs ?cs ?w4] =>
        destruct (crawl_loop_eval downloadDocument pdfParse mammoth_extractRawText now
                    docs cs w4) as (w5 & new & Hrun & Hev & _ & _ & Hfs5 & Hfa5 & Hpid5);
        pose proof (preserves_crawl_loop downloadDocument pdfParse
                      mammoth_extractRawText now docs cs w4) as Hobj
    end.
    rewrite Hrun in Hobj |- *. cbn [snd] in Hobj.
    cbn [errors documentsProcessed documentsSkipped processedDocuments app Nat.add].
    unfold bind at 1. unfold log at 1, modify at 1.
    unfold bind at 1. unfold createIndex, try_catch.
    unfold bind at 1. unfold log at 1, modify at 1.
    unfold bind at 1.
    match goal with
    | |- context [chunk_all splitText ?pds ?w6] =>
        pose proof (chunk_all_cases splitText pds w6) as Hr;
        destruct (chunk_all splitText pds w6) as [[r|e1] w7]
    end.
    { destruct Hr as (_ & Hr & _). congruence. }
    destruct Hr as (Hlog & _).
    eexists _, _. split; [reflexivity|].
    eapply only_logged_trans; [|apply only_logged_event].
    eapply only_logged_trans; [|exact Hlog].
    eapply only_logged_trans; [|apply only_logged_event].
    eapply only_logged_trans; [|apply only_logged_event].
    eapply only_logged_trans; [|exact Hobj].
    eapply only_logged_trans; [apply only_logged_event | apply only_logged_event]. }
  destruct Hbody as (e & w1 & -> & Hlog).
  unfold bind, log, modify, ret. cbn [fst snd].
  split; [reflexivity|].
  split; [eapply only_logged_trans; [exact Hlog | apply only_logged_event]|].
  exists e. left. reflexivity.
Qed.

End CrawlerExit.

Lemma crawl_aborts_before_writing_witness :
  fst (main (Ok tt) (Ok sample_listing) sample_download sample_pdfParse
         sample_mammoth rejecting_splitter 0 (fresh disk_old 7 [])) = Ok 1 /\
  fs (snd (main (Ok tt) (Ok sample_listing) sample_download sample_pdfParse
             sample_mammoth rejecting_splitter 0 (fresh disk_old 7 []))) = disk_old.
Proof.
  destruct (crawl_aborts_before_writing (Ok tt) (Ok sample_listing) sample_download
              sample_pdfParse sample_mammoth rejecting_splitter 0 (fresh disk_old 7 []))
    as (H1 & (H2 & _) & _).
  - right. right. exists sample_listing. split; reflexivity.
  - split; [exact H1 | exact H2].
Defined.

(** ** [DocumentProcessor]: what [cleanText] leaves of a text *)

Lemma all_chars_app P s1 s2 :
  all_chars P (s1 +:+ s2) = all_chars P s1 && all_chars P s2.
Proof.
  induction s1 as [|c s1 IH]; simpl; [reflexivity|].
  rewrite IH, andb_assoc. reflexivity.
Qed.

Lemma all_chars_replace_cr_not_CR s : all_chars (is_not CR) (replace_cr s) = true.
Proof.
  induction s as [|c s IH]; simpl; [reflexivity|].
  rewrite IH, andb_true_r. unfold is_not.
  destruct (Ascii.eqb c CR) eqn:E; [reflexivity|]. rewrite E. reflexivity.
Qed.

Lemma all_chars_replace_cr P s :
  P LF = true -> all_chars P s = true -> all_chars P (replace_cr s) = true.
Proof.
  intros HLF. induction s as [|c s IH]; simpl; [reflexivity|].
  intros H. apply andb_prop in H as [Hc Hs]. rewrite (IH Hs), andb_true_r.
  destruct (Ascii.eqb c CR); assumption.
Qed.

Lemma all_chars_replace_crlf P s :
  P LF = true -> all_chars P s = true -> all_chars P (replace_crlf s) = true.
Proof.
  intros HLF.
  enough (H : (all_chars P s = true -> all_chars P (replace_crlf s) = true) /\
              (forall c, all_chars P (String c s) = true ->
                         all_chars P (replace_crlf (String c s)) = true))
    by apply H.
  induction s as [|c2 rest [IH1 IH2]].
  - split; [reflexivity|]. intros c H. exact H.
  - split; [apply IH2|]. intros c1 H.
    cbn [replace_crlf].
    destruct (Ascii.eqb c1 CR && Ascii.eqb c2 LF).
    + simpl in H |- *. rewrite HLF. simpl.
      apply andb_prop in H as [_ H]. apply andb_prop in H as [_ H]. apply IH1, H.
    + cbn [all_chars] in H |- *. apply andb_prop in H as [Hc H].
      rewrite Hc. simpl. apply IH2. exact H.
Qed.

Lemma all_chars_squeeze P c keep s :
  forall run, all_chars P s = true -> all_chars P (squeeze c keep run s) = true.
Proof.
  induction s as [|x s IH]; intros run; simpl; [reflexivity|].
  intros H. apply andb_prop in H as [Hx Hs].
  destruct (Ascii.eqb x c); [destruct (Nat.ltb run keep)|]; simpl;
    rewrite ?Hx; simpl; apply IH, Hs.
Qed.

Lemma all_chars_split_on P sep s :
  all_chars P s = true -> forallb (all_chars P) (split_on sep s) = true.
Proof.
  induction s as [|c s IH]; simpl; [reflexivity|].
  intros H. apply andb_prop in H as [Hc Hs]. specialize (IH Hs).
  destruct (Ascii.eqb c sep); simpl; [exact IH|].
  destruct (split_on sep s) as [|line more]; simpl in *.
  - rewrite Hc. reflexivity.
  - apply andb_prop in IH as [Hl Hm]. rewrite Hc, Hl, Hm. reflexivity.
Qed.

Lemma all_chars_trimStart P s :
  all_chars P s = true -> all_chars P (trimStart s) = true.
Proof.
  induction s as [|c s IH]; simpl; [reflexivity|].
  intros H. destruct (is_js_space c); [|exact H].
  apply andb_prop in H as [_ Hs]. apply IH, Hs.
Qed.

Lemma all_chars_trimEnd P s :
  all_chars P s = true -> all_chars P (trimEnd s) = true.
Proof.
  induction s as [|c s IH]; simpl; [reflexivity|].
  intros H. apply andb_prop in H as [Hc Hs].
  destruct (is_js_space c && is_empty (trimEnd s)); simpl; [reflexivity|].
  rewrite Hc. apply IH, Hs.
Qed.

Lemma all_chars_trim P s : all_chars P s = true -> all_chars P (trim s) = true.
Proof. intros H. apply all_chars_trimEnd, all_chars_trimStart, H. Qed.

Lemma forallb_map_trim P ls :
  forallb (all_chars P) ls = true -> forallb (all_chars P) (map trim ls) = true.
Proof.
  induction ls as [|l ls IH]; simpl; [reflexivity|].
  intros H. apply andb_prop in H as [Hl Hls].
  rewrite (all_chars_trim P l Hl), (IH Hls). reflexivity.
Qed.

Lemma all_chars_join P ls :
  P LF = true -> forallb (all_chars P) ls = true ->
  all_chars P (String.concat (String LF EmptyString) ls) = true.
Proof.
  intros HLF. induction ls as [|l ls IH]; [reflexivity|].
  intros H. cbn [forallb] in H. apply andb_prop in H as [Hl Hls].
  destruct ls as [|l2 ls]; [exact Hl|].
  cbn [String.concat]. rewrite all_chars_app, Hl. simpl. rewrite HLF. simpl.
  apply IH, Hls.
Qed.

(** *** White space at the two ends *)

Lemma trimStart_head s :
  match trimStart s with
  | EmptyString => True
  | String c _ => is_js_space c = false
  end.
Proof.
  induction s as [|c s IH]; simpl; [exact I|].
  destruct (is_js_space c) eqn:E; [exact IH | exact E].
Qed.


Lemma trimEnd_idempotent s : trimEnd (trimEnd s) = trimEnd s.
Proof.
  induction s as [|c s IH]; simpl; [reflexivity|].
  destruct (is_js_space c && is_empty (trimEnd s)) eqn:E; [reflexivity|].
  simpl. rewrite IH, E. reflexivity.
Qed.

Lemma trim_idempotent s : trim (trim s) = trim s.
Proof.
  unfold trim. pose proof (trimStart_head s) as H.
  destruct (trimStart s) as [|c t]; [reflexivity|].
  rewrite (trimEnd_head c t H). simpl trimStart. rewrite H.
  rewrite <- (trimEnd_head c t H). apply trimEnd_idempotent.
Qed.


(** *** Runs of spaces *)

Lemma no_double_tail c x s : no_double c (String x s) = true -> no_double c s = true.
Proof.
  destruct s as [|y s]; [reflexivity|]. cbn [no_double].
  intros H. apply andb_prop in H as [_ H]. exact H.
Qed.

Lemma no_double_cons c x s :
  no_double c s = true ->
  match s with
  | EmptyString => True
  | String y _ => Ascii.eqb x c && Ascii.eqb y c = false
  end ->
  no_double c (String x s) = true.
Proof.
  destruct s as [|y s]; [reflexivity|]. cbn [no_double].
  intros H1 H2. rewrite H1, H2. reflexivity.
Qed.

(** After a character [c] was kept ([run >= 1]) the next one kept is not
    [c]. *)
Lemma no_double_squeeze c s :
  forall run,
    no_double c (squeeze c 1 run s) = true /\
    (1 <= run ->
     match squeeze c 1 run s with
     | EmptyString => True
     | String y _ => Ascii.eqb y c = false
     end).
Proof.
  induction s as [|x s IH]; intros run; simpl; [auto|].
  destruct (Ascii.eqb x c) eqn:Ex.
  - destruct (Nat.ltb run 1) eqn:Hrun.
    + apply Nat.ltb_lt in Hrun. split; [|lia].
      destruct (IH (S run)) as [Hnd Hhead].
      apply no_double_cons; [exact Hnd|].
      specialize (Hhead ltac:(lia)).
      destruct (squeeze c 1 (S run) s); [exact I|].
      rewrite Hhead. apply andb_false_r.
    + apply Nat.ltb_ge in Hrun. destruct (IH run) as [Hnd Hhead].
      split; [exact Hnd | intros _; apply Hhead, Hrun].
  - destruct (IH 0) as [Hnd _]. split.
    + apply no_double_cons; [exact Hnd|].
      destruct (squeeze c 1 0 s); [exact I|]. rewrite Ex. reflexivity.
    + intros _. exact Ex.
Qed.

Lemma split_on_cons sep s : exists line more, split_on sep s = line :: more.
Proof.
  induction s as [|c s (line & more & IH)]; simpl; [eauto|].
  destruct (Ascii.eqb c sep); [eauto|]. rewrite IH. eauto.
Qed.

(** The first line of a text starts as the text does. *)
Lemma split_on_head sep s line more :
  split_on sep s = line :: more ->
  match line with
  | EmptyString => True
  | String y _ => exists t, s = String y t
  end.
Proof.
  destruct s as [|c s]; simpl.
  - intros [= <- _]. exact I.
  - destruct (Ascii.eqb c sep).
    + intros [= <- _]. exact I.
    + destruct (split_on sep s); intros [= <- _]; eauto.
Qed.

Lemma no_double_split_on c sep s :
  no_double c s = true -> forallb (no_double c) (split_on sep s) = true.
Proof.
  induction s as [|x s IH]; [reflexivity|].
  intros H. pose proof (no_double_tail c x s H) as Hs. specialize (IH Hs).
  cbn [split_on]. destruct (Ascii.eqb x sep); [exact IH|].
  destruct (split_on sep s) as [|line more] eqn:Hsplit; [reflexivity|].
  cbn [forallb] in IH |- *. apply andb_prop in IH as [Hl Hm].
  rewrite Hm, andb_true_r.
  apply no_double_cons; [exact Hl|].
  pose proof (split_on_head sep s line more Hsplit) as Hhead.
  destruct line as [|y line]; [exact I|].
  destruct Hhead as (t & ->). cbn [no_double] in H.
  apply andb_prop in H as [H _]. apply negb_true_iff in H. exact H.
Qed.

Lemma no_double_trimStart c s :
  no_double c s = true -> no_double c (trimStart s) = true.
Proof.
  induction s as [|x s IH]; [reflexivity|].
  intros H. cbn [trimStart]. destruct (is_js_space x); [|exact H].
  apply IH. eapply no_double_tail, H.
Qed.

(** [trimEnd] keeps the first character of what it keeps. *)
Lemma trimEnd_first s :
  match trimEnd s with
  | EmptyString => True
  | String y _ => exists t, s = String y t
  end.
Proof.
  destruct s as [|x s]; simpl; [exact I|].
  destruct (is_js_space x && is_empty (trimEnd s)); [exact I | eauto].
Qed.

Lemma no_double_trimEnd c s :
  no_double c s = true -> no_double c (trimEnd s) = true.
Proof.
  induction s as [|x s IH]; [reflexivity|].
  intros H. pose proof (no_double_tail c x s H) as Hs. specialize (IH Hs).
  cbn [trimEnd]. destruct (is_js_space x && is_empty (trimEnd s)); [reflexivity|].
  apply no_double_cons; [exact IH|].
  pose proof (trimEnd_first s) as Hhead.
  destruct (trimEnd s) as [|y t']; [exact I|].
  destruct Hhead as (t & ->). cbn [no_double] in H.
  apply andb_prop in H as [H _]. apply negb_true_iff in H. exact H.
Qed.

Lemma no_double_trim c s : no_double c s = true -> no_double c (trim s) = true.
Proof. intros H. apply no_double_trimEnd, no_double_trimStart, H. Qed.

Lemma no_double_app_LF c s1 s2 :
  Ascii.eqb LF c = false ->
  no_double c s1 = true -> no_double c s2 = true ->
  no_double c (s1 +:+ String LF s2) = true.
Proof.
  intros HLF H1 H2. induction s1 as [|x s1 IH].
  - change (EmptyString +:+ String LF s2) with (String LF s2).
    apply no_double_cons; [exact H2|].
    destruct s2; [exact I|]. rewrite HLF. reflexivity.
  - pose proof (no_double_tail c x s1 H1) as Hs. specialize (IH Hs).
    change (String x s1 +:+ String LF s2) with (String x (s1 +:+ String LF s2)).
    apply no_double_cons; [exact IH|].
    destruct s1 as [|y s1].
    + change (EmptyString +:+ String LF s2) with (String LF s2). cbv iota beta.
      rewrite HLF. apply andb_false_r.
    + change (String y s1 +:+ String LF s2) with (String y (s1 +:+ String LF s2)).
      cbv iota beta.
      cbn [no_double] in H1. apply andb_prop in H1 as [H1 _].
      apply negb_true_iff in H1. exact H1.
Qed.

Lemma no_double_join c ls :
  Ascii.eqb LF c = false ->
  forallb (no_double c) ls = true ->
  no_double c (String.concat (String LF EmptyString) ls) = true.
Proof.
  intros HLF. induction ls as [|l ls IH]; [reflexivity|].
  intros H. cbn [forallb] in H. apply andb_prop in H as [Hl Hls].
  destruct ls as [|l2 ls]; [exact Hl|].
  cbn [String.concat].
  change (String LF EmptyString +:+ ?t) with (String LF t).
  apply no_double_app_LF; [exact HLF | exact Hl | apply IH, Hls].
Qed.

Lemma forallb_map_trim_no_double c ls :
  forallb (no_double c) ls = true -> forallb (no_double c) (map trim ls) = true.
Proof.
  induction ls as [|l ls IH]; simpl; [reflexivity|].
  intros H. apply andb_prop in H as [Hl Hls].
  rewrite (no_double_trim c l Hl), (IH Hls). reflexivity.
Qed.

Lemma cleanText_no_CR text : all_chars (is_not CR) (cleanText text) = true.
Proof.
  unfold cleanText. cbv zeta.
  apply all_chars_trim, all_chars_join; [reflexivity|].
  apply forallb_map_trim, all_chars_split_on.
  do 2 apply all_chars_squeeze. apply all_chars_replace_cr_not_CR.
Qed.

Lemma cleanText_no_double_space text : no_double SP (cleanText text) = true.
Proof.
  unfold cleanText. cbv zeta.
  apply no_double_trim, no_double_join; [reflexivity|].
  apply forallb_map_trim_no_double, no_double_split_on.
  apply (no_double_squeeze SP _ 0).
Qed.

Lemma cleanText_trimmed text : trimmed (cleanText text).
Proof. apply trim_idempotent. Qed.

Lemma cleanText_blank text : blank text = true -> cleanText text = EmptyString.
Proof.
  intros Hb. unfold cleanText. cbv zeta. apply trim_blank. unfold blank in *.
  apply all_chars_join; [reflexivity|].
  apply forallb_map_trim, all_chars_split_on.
  do 2 apply all_chars_squeeze.
  apply all_chars_replace_cr; [reflexivity|].
  apply all_chars_replace_crlf; [reflexivity | exact Hb].
Qed.

(** X9.  The text [cleanText] returns is normalised: it holds no carriage
    return, no two spaces in a row, and neither starts nor ends with white
    space; a text made of white space only is cleaned to the empty
    text. *)
Theorem cleanText_normalised (text : string) :
  all_chars (is_not CR) (cleanText text) = true /\
  no_double SP (cleanText text) = true /\
  trimmed (cleanText text) /\
  (blank text = true -> cleanText text = EmptyString).
Proof.
  split; [apply cleanText_no_CR|].
  split; [apply cleanText_no_double_space|].
  split; [apply cleanText_trimmed | apply cleanText_blank].
Qed.

(** X10.  A document from which the extractor gets white space only (a
    scanned PDF without a text layer, an empty Word file) is rejected with
    'No text content extracted from document', whichever of the supported
    content types it has. *)
Theorem blank_extraction_rejected
    (pdfParse mammoth_extractRawText : string -> result string)
    (buffer : string) (metadata : DocumentMetadata) (text : string) :
  (doc_contentType metadata = "application/pdf" /\ pdfParse buffer = Ok text) \/
  ((doc_contentType metadata
    = "application/vnd.openxmlformats-officedocument.wordprocessingml.document" \/
    doc_contentType metadata = "application/msword") /\
   mammoth_extractRawText buffer = Ok text) ->
  blank text = true ->
  processDocument pdfParse mammoth_extractRawText buffer metadata
  = Err (Failure "No text content extracted from document").
Proof.
  intros Hex Hb. unfold processDocument.
  assert (Hclean : forall r : result string,
            r = Ok text ->
            rbind r (fun extracted =>
                       let content := cleanText extracted in
                       if is_empty content || is_empty (trim content)
                       then Err (Failure "No text content extracted from document")
                       else Ok (mkProcessedDocument metadata content []))
            = Err (Failure "No text content extracted from document")).
  { intros r ->. cbn [rbind]. cbv zeta. rewrite (cleanText_blank text Hb). reflexivity. }
  apply Hclean.
  destruct Hex as [[Hct Hparse] | [[Hct | Hct] Hparse]]; rewrite Hct;
    repeat match goal with
           | |- context [String.eqb ?a ?b] =>
               let v := eval vm_compute in (String.eqb a b) in
               change (String.eqb a b) with v
           end;
    cbn [orb]; cbv iota; unfold processPDF, processWord; rewrite Hparse; reflexivity.
Qed.

Lemma blank_extraction_rejected_witness :
  processDocument scanned_pdfParse sample_mammoth "%PDF" doc_a
  = Err (Failure "No text content extracted from document").
Proof.
  apply (blank_extraction_rejected scanned_pdfParse sample_mammoth "%PDF" doc_a
           (String SP (String LF (String SP EmptyString)))).
  - left. split; reflexivity.
  - reflexivity.
Defined.

(** X11.  A document that [processDocument] accepts carries the metadata
    it was given, no chunk yet, and a content that is not empty and is
    normalised: no carriage return, no two spaces in a row, no white space
    at either end. *)
Theorem processed_document_content
    (pdfParse mammoth_extractRawText : string -> result string)
    (buffer : string) (metadata : DocumentMetadata) :
  match processDocument pdfParse mammoth_extractRawText buffer metadata with
  | Ok pd =>
      pd_metadata pd = metadata /\ pd_chunks pd = [] /\
      is_empty (pd_content pd) = false /\
      all_chars (is_not CR) (pd_content pd) = true /\
      no_double SP (pd_content pd) = true /\
      trimmed (pd_content pd)
  | Err e => exists message, e = Failure message
  end.
Proof.
  unfold processDocument, processPDF, processWord, rbind.
  destruct (String.eqb (doc_contentType metadata) "application/pdf").
  - destruct (pdfParse buffer) as [text|e]; [|eauto].
    destruct (is_empty (cleanText text)) eqn:He; cbn [orb]; [eauto|].
    destruct (is_empty (trim (cleanText text))); [eauto|].
    cbn [pd_metadata pd_chunks pd_content].
    repeat split;
      first [ reflexivity | exact He | apply cleanText_no_CR
            | apply cleanText_no_double_space | apply cleanText_trimmed ].
  - destruct (_ || _); [|eauto].
    destruct (mammoth_extractRawText buffer) as [text|e]; [|eauto].
    destruct (is_empty (cleanText text)) eqn:He; cbn [orb]; [eauto|].
    destruct (is_empty (trim (cleanText text))); [eauto|].
    cbn [pd_metadata pd_chunks pd_content].
    repeat split;
      first [ reflexivity | exact He | apply cleanText_no_CR
            | apply cleanText_no_double_space | apply cleanText_trimmed ].
Qed.

(** ** [SharePointClient]: the content type of a listed file *)

Lemma toLowerCase_app s1 s2 :
  toLowerCase (s1 +:+ s2) = toLowerCase s1 +:+ toLowerCase s2.
Proof. induction s1 as [|c s1 IH]; simpl; [reflexivity|]. rewrite IH. reflexivity. Qed.

(** A text with a separator in it splits into at least two pieces, the
    last of which is the last piece of what follows that separator. *)
Lemma split_on_app_sep sep s1 s2 :
  exists line more,
    split_on sep (s1 +:+ String sep s2) = line :: more /\
    last more = last (split_on sep s2) /\ more <> [].
Proof.
  destruct (split_on_cons sep s2) as (l2 & m2 & H2).
  induction s1 as [|c s1 (line & more & IH & Hlast & Hne)].
  - change (EmptyString +:+ String sep s2) with (String sep s2).
    cbn [split_on]. rewrite Ascii.eqb_refl.
    exists EmptyString, (split_on sep s2). rewrite H2. repeat split. discriminate.
  - change (String c s1 +:+ String sep s2) with (String c (s1 +:+ String sep s2)).
    cbn [split_on]. rewrite IH.
    destruct (Ascii.eqb c sep).
    + exists EmptyString, (line :: more). repeat split; [|discriminate].
      rewrite last_cons, Hlast.
      destruct more as [|x more]; [contradiction|].
      destruct (last (split_on sep s2)) eqn:E; [reflexivity|].
      rewrite H2 in E. rewrite last_cons in E. destruct (last m2); discriminate.
    + exists (String c line), more. repeat split; assumption.
Qed.

Lemma extension_after_dot stem ext :
  last (split_on DOT (toLowerCase (stem +:+ String DOT ext)))
  = last (split_on DOT (toLowerCase ext)).
Proof.
  rewrite toLowerCase_app.
  change (toLowerCase (String DOT ext)) with (String DOT (toLowerCase ext)).
  destruct (split_on_app_sep DOT (toLowerCase stem) (toLowerCase ext))
    as (line & more & -> & Hlast & Hne).
  rewrite last_cons, Hlast.
  destruct (last (split_on DOT (toLowerCase ext))) eqn:E; [reflexivity|].
  destruct (split_on_cons DOT (toLowerCase ext)) as (l & m & H).
  rewrite H, last_cons in E. destruct (last m); discriminate.
Qed.

(** X12.  [getContentType] looks only at what follows the last dot of the
    file name, and not at the case of its letters: the type of
    [stem.ext] is the type of [ext], and two names that differ only in
    case get the same type.  The names 'pdf', 'docx' and 'doc' (with or
    without anything before them) get the three supported types; a name
    without a dot is taken as its own extension. *)
Theorem content_type_by_extension (stem ext name1 name2 : string) :
  SharePointClient.getContentType (stem +:+ String DOT ext)
  = SharePointClient.getContentType ext /\
  (toLowerCase name1 = toLowerCase name2 ->
   SharePointClient.getContentType name1 = SharePointClient.getContentType name2) /\
  SharePointClient.getContentType "pdf" = "application/pdf" /\
  SharePointClient.getContentType "docx"
  = "application/vnd.openxmlformats-officedocument.wordprocessingml.document" /\
  SharePointClient.getContentType "doc" = "application/msword".
Proof.
  unfold SharePointClient.getContentType.
  split; [rewrite extension_after_dot; reflexivity|].
  split; [intros ->; reflexivity|].
  repeat split.
Qed.

(** ** [IndexWatcher]: subscriptions *)

Lemma reloads_of_app id l1 l2 :
  reloads_of id (l1 ++ l2) = reloads_of id l1 + reloads_of id l2.
Proof.
  induction l1 as [|[] l1 IH]; simpl; rewrite ?IH; lia.
Qed.

(** [emit] calls the reload callback of a watcher once for each listener
    the watcher has registered. *)
Lemma emit_reloads id (s : IndexStats) (w : World) :
  reloads_of id (events (snd (emit_indexUpdated s w)))
  = reloads_of id (events w) + subscriptions id (listeners w).
Proof.
  unfold emit_indexUpdated. unfold bind at 1. unfold modify at 1.
  unfold bind at 1. unfold get at 1.
  change (listeners (push_event (Emit s) w)) with (listeners w).
  change (reloads_of id (events w))
    with (reloads_of id (events (push_event (Emit s) w))).
  generalize (push_event (Emit s) w) as w0. generalize (listeners w) as ls.
  induction ls as [|[i] ls IH]; intros w0.
  - unfold subscriptions. simpl. lia.
  - cbn [for_each run_listener]. unfold bind at 1. unfold bind at 1.
    unfold log at 1, modify at 1, modify at 1.
    rewrite IH. unfold subscriptions. simpl.
    destruct (Nat.eqb id i); simpl; lia.
Qed.

(** What a [save] does to the count of reloads, under any oracle. *)
Lemma save_reload_count wid (store : FaissStore) (st : IndexStats) (w : World) :
  match save store st w with
  | (Ok _, w') =>
      reloads_of wid (events w')
      = reloads_of wid (events w) + subscriptions wid (listeners w)
  | (Err _, w') => reloads_of wid (events w') = reloads_of wid (events w)
  end.
Proof.
  destruct (save store st w) as [[u|e] w'] eqn:H.
  - apply (ends_with_emit_save (same_reloads wid)) in H;
      try by_same_reloads wid.
    destruct H as (w7 & (Hre & Hl) & ->).
    rewrite emit_reloads, Hre, Hl. reflexivity.
  - apply (on_error_save (same_reloads wid)) in H;
      try by_same_reloads wid.
    apply H.
Qed.

(** X13.  A [save] notifies once.  Whatever the disk holds and whichever
    I/O calls fail: a [save] that returns has called the reload callback
    of each watcher exactly once per listener the watcher had registered,
    and a [save] that throws has called none. *)
Theorem save_notifies_once (wid : nat) (store : FaissStore) (st : IndexStats)
    (w : World) :
  match save store st w with
  | (Ok _, w') =>
      reloads_of wid (events w')
      = reloads_of wid (events w) + subscriptions wid (listeners w)
  | (Err _, w') => reloads_of wid (events w') = reloads_of wid (events w)
  end.
Proof. apply save_reload_count. Qed.

(** After [stop]: the newest [FSWatcher] is closed, the older ones are
    as they were, and no listener of 'indexUpdated' is left, whoever
    registered it. *)
Lemma stop_run (iw : IndexWatcher) (w : World) :
  exists iw' w',
    stop iw w = (Ok iw', w') /\
    watcher_id iw' = watcher_id iw /\
    open_count (fswatchers iw') = open_count (tail (fswatchers iw)) /\
    listeners w' = [] /\ fs w' = fs w /\ faults w' = faults w /\
    vectorStore w' = vectorStore w /\ stats w' = stats w /\
    reloads_of (watcher_id iw) (events w') = reloads_of (watcher_id iw) (events w).
Proof.
  unfold stop. destruct iw as [id [|open older]]; simpl.
  - eexists _, _. split; [reflexivity|]. simpl. repeat split.
  - eexists _, _. split; [reflexivity|]. simpl. repeat split.
Qed.

(** A reported change reaches the reload callback once through every
    open [FSWatcher]; any other report reaches it through none. *)
Lemma deliver_reloads (iw : IndexWatcher) (eventType name : string) (w : World) :
  listeners (snd (deliver_fs_event iw eventType name w)) = listeners w /\
  reloads_of (watcher_id iw) (events (snd (deliver_fs_event iw eventType name w)))
  = reloads_of (watcher_id iw) (events w)
    + (if is_change (FsEvent eventType name) then open_count (fswatchers iw) else 0).
Proof.
  unfold deliver_fs_event, open_count. cbn [is_change].
  set (change := String.eqb name "stats.json" && String.eqb eventType "change").
  assert (Hone : forall w0, exists w1,
    on_fs_event iw eventType name w0 = (Ok tt, w1) /\
    listeners w1 = listeners w0 /\
    reloads_of (watcher_id iw) (events w1)
    = reloads_of (watcher_id iw) (events w0) + (if change then 1 else 0)).
  { intros w0. unfold on_fs_event. fold change. destruct change.
    - eexists. split; [reflexivity|]. simpl. rewrite Nat.eqb_refl.
      split; [reflexivity | lia].
    - eexists. split; [reflexivity|]. simpl. split; [reflexivity | lia]. }
  generalize (List.filter (fun open : bool => open) (fswatchers iw)) as ws.
  intros ws. revert w. induction ws as [|x ws IH]; intros w.
  - simpl. split; [reflexivity|]. destruct change; lia.
  - cbn [for_each length]. unfold bind.
    destruct (Hone w) as (w1 & H1 & Hl1 & Hr1). rewrite H1.
    destruct (IH w1) as [Hl Hr]. rewrite Hl, Hr, Hl1, Hr1.
    split; [reflexivity|]. destruct change; lia.
Qed.

(** What happens to a reader process none of whose listeners belongs to
    the watcher: the watcher's reload callback is called once per
    reported change and open [FSWatcher], and not otherwise. *)
Lemma run_actions_reloads (iw : IndexWatcher) (actions : list action) :
  forall w,
    ok_listeners (is_reload (watcher_id iw)) w ->
    reloads_of (watcher_id iw) (events (run_actions iw actions w))
    = reloads_of (watcher_id iw) (events w)
      + changes actions * open_count (fswatchers iw).
Proof.
  unfold changes.
  induction actions as [|a actions IH]; intros w Hok; [simpl; lia|].
  cbn [run_actions List.filter].
  assert (Hstep :
    ok_listeners (is_reload (watcher_id iw)) (snd (run_action iw a w)) /\
    reloads_of (watcher_id iw) (events (snd (run_action iw a w)))
    = reloads_of (watcher_id iw) (events w)
      + (if is_change a then open_count (fswatchers iw) else 0)).
  { destruct a as [store st | | | eventType name].
    - rewrite Nat.add_0_r. apply quiet_reloads; [|exact Hok].
      apply quiet_try; [|intros; apply quiet_ret].
      apply quiet_save; intros; reflexivity.
    - rewrite Nat.add_0_r. apply quiet_reloads; [|exact Hok].
      apply quiet_try; [|intros; apply quiet_ret].
      apply quiet_bind; [|intros; apply quiet_ret].
      apply quiet_load; intros; reflexivity.
    - rewrite Nat.add_0_r. apply quiet_reloads; [|exact Hok].
      apply quiet_reload; intros; reflexivity.
    - cbn [run_action].
      destruct (deliver_reloads iw eventType name w) as [Hl Hr].
      split; [|exact Hr]. unfold ok_listeners. rewrite Hl. exact Hok. }
  destruct Hstep as [Hok' Hre]. rewrite (IH _ Hok'), Hre.
  destruct (is_change a); simpl; lia.
Qed.

(** X14.  What [stop] ends.  [stop] removes every listener of
    'indexUpdated', not only its own: a later [save] calls the reload
    callback of no watcher through that event.  Of the [FSWatcher]s it
    closes only the one [start] created last: whatever happens in the
    process afterwards (saves, loads, reloads, reports for any file of
    the index directory), the reload callback of the stopped watcher is
    called once per reported change of the sidecar for every [FSWatcher]
    that an earlier [start] had opened, and not otherwise; in particular
    never again when [start] had been called at most once. *)
Theorem stop_ends_reloads (iw : IndexWatcher) (w : World) :
  exists iw' w',
    stop iw w = (Ok iw', w') /\
    listeners w' = [] /\
    (forall actions,
       reloads_of (watcher_id iw) (events (run_actions iw' actions w'))
       = reloads_of (watcher_id iw) (events w)
         + changes actions * open_count (tail (fswatchers iw))) /\
    (forall id store st,
       reloads_of id (events (snd (save store st w')))
       = reloads_of id (events w')).
Proof.
  destruct (stop_run iw w) as (iw' & w' & Hstop & Hid & Hopen & Hl & _ & _ & _ & _ & Hre).
  exists iw', w'. split; [exact Hstop|]. split; [exact Hl|].
  assert (Hok : forall id, ok_listeners (is_reload id) w').
  { intros id. unfold ok_listeners. rewrite Hl. reflexivity. }
  split.
  - intros actions. rewrite <- Hid.
    rewrite (run_actions_reloads iw' actions w' (Hok _)).
    rewrite Hid, Hopen, Hre. reflexivity.
  - intros id store st.
    apply (quiet_reloads id (save store st) w'); [|apply Hok].
    apply quiet_save; intros; reflexivity.
Qed.

(** [start] on an existing index path. *)
Lemma start_run (iw : IndexWatcher) (w : World) :
  fs_exists_dir Production (fs w) = true ->
  start iw w =
    (Ok (mkIndexWatcher (watcher_id iw) (true :: fswatchers iw)),
     set_listeners (listeners w ++ [ReloadOnUpdate (watcher_id iw)])
       (push_event (Log Info "Starting index file watcher" NoData) w)).
Proof.
  intros Hex. unfold start, existsSync_dir, get, bind. simpl. rewrite Hex. reflexivity.
Qed.

Lemma subscriptions_app id l1 l2 :
  subscriptions id (l1 ++ l2) = subscriptions id l1 + subscriptions id l2.
Proof. unfold subscriptions. rewrite List.filter_app, length_app. reflexivity. Qed.

Lemma start_times_run n :
  forall iw w,
    fs_exists_dir Production (fs w) = true ->
    exists iw' w',
      start_times n iw w = (Ok iw', w') /\
      watcher_id iw' = watcher_id iw /\
      fswatchers iw' = repeat true n ++ fswatchers iw /\
      fs w' = fs w /\ faults w' = faults w /\
      subscriptions (watcher_id iw) (listeners w')
      = subscriptions (watcher_id iw) (listeners w) + n /\
      reloads_of (watcher_id iw) (events w') = reloads_of (watcher_id iw) (events w).
Proof.
  induction n as [|n IH]; intros iw w Hex.
  - exists iw, w. simpl. repeat split. lia.
  - cbn [start_times]. unfold bind. rewrite (start_run iw w Hex).
    match goal with
    | |- context [start_times n ?iw1 ?w1] =>
        destruct (IH iw1 w1 Hex)
          as (iw' & w' & Hrun & Hid & Hws & Hfs & Hfa & Hsub & Hre)
    end.
    exists iw', w'. split; [exact Hrun|]. simpl in *.
    split; [exact Hid|].
    split.
    { rewrite Hws. cbn [repeat app].
      change (true :: fswatchers iw) with ([true] ++ fswatchers iw).
      rewrite app_assoc, <- repeat_cons. reflexivity. }
    split; [exact Hfs|]. split; [exact Hfa|].
    split; [|exact Hre].
    rewrite Hsub, subscriptions_app. unfold subscriptions at 2. simpl.
    rewrite Nat.eqb_refl. simpl. lia.
Qed.

(** X15.  Every [start] opens and subscribes again.  Calling [start] [n]
    times on a watcher whose index path exists leaves [n] more open
    [FSWatcher]s and [n] more listeners of 'indexUpdated' registered for
    it; a [save] of a store that has an index, in the same process, that
    then finds the lock free and meets no I/O failure calls its reload
    callback once for each of these listeners.  [start] does not look
    whether the watcher is started already. *)
Theorem start_subscribes_each_time (n : nat) (iw : IndexWatcher) (w : World)
    (docs : list Document) (st : IndexStats) :
  faults w = [] ->
  fs_exists_dir Production (fs w) = true ->
  fs_exists_file Production lock_name (fs w) = false ->
  exists iw' w',
    start_times n iw w = (Ok iw', w') /\
    fswatchers iw' = repeat true n ++ fswatchers iw /\
    subscriptions (watcher_id iw) (listeners w')
    = subscriptions (watcher_id iw) (listeners w) + n /\
    fst (save (Indexed docs) st w') = Ok tt /\
    reloads_of (watcher_id iw) (events (snd (save (Indexed docs) st w')))
    = reloads_of (watcher_id iw) (events w)
      + subscriptions (watcher_id iw) (listeners w) + n.
Proof.
  intros Ho Hex Hl.
  destruct (start_times_run n iw w Hex)
    as (iw' & w' & Hrun & _ & Hws & Hfs & Hfa & Hsub & Hre).
  exists iw', w'. split; [exact Hrun|]. split; [exact Hws|]. split; [exact Hsub|].
  destruct (save_eval w' docs st) as (w2 & new & Hsave & _);
    [rewrite Hfa; exact Ho | rewrite Hfs; exact Hl |].
  pose proof (save_reload_count (watcher_id iw) (Indexed docs) st w') as Hcount.
  rewrite Hsave in Hcount |- *. cbn [fst snd].
  split; [reflexivity|]. rewrite Hcount, Hre, Hsub. lia.
Qed.

Lemma start_subscribes_each_time_witness :
  exists iw' w',
    start_times 2 early_watcher (fresh disk_old 7 []) = (Ok iw', w') /\
    fswatchers iw' = [true; true] /\
    reloads_of 1 (events (snd (save gen_new stats_new w'))) = 2.
Proof.
  destruct (start_subscribes_each_time 2 early_watcher (fresh disk_old 7 [])
              docs_new stats_new) as (iw' & w' & H1 & H2 & _ & _ & H3);
    [reflexivity | reflexivity | reflexivity |].
  exists iw', w'. split; [exact H1|]. split; [exact H2 | exact H3].
Defined.

(** ** The API server *)

(** A [load] that finds the lock free and an index it cannot read fails
    with the loader's error, gives the lock back and leaves the disk and
    the object as they were. *)
Lemma load_error_eval (w : World) (d : gmap string blob) (e : error) :
  faults w = [] ->
  production (fs w) = Some d ->
  d !! lock_name = None ->
  fs_faiss_load Production (fs w) = Err e ->
  exists w',
    load w = (Err e, w') /\
    fs w' = fs w /\ vectorStore w' = vectorStore w /\ stats w' = stats w /\
    listeners w' = listeners w /\ faults w' = [].
Proof.
  intros Ho Hp Hl Hload.
  assert (Hfree : fs_exists_file Production lock_name (fs w) = false).
  { unfold fs_exists_file. simpl. rewrite Hp, Hl. reflexivity. }
  unfold load, acquireLock_default, acquireLock.
  unfold try_catch at 1. unfold bind at 1.
  rewrite (acquireLock_loop_free 29 1000 w Ho Hfree).
  unfold after_acquire, locked_fs, mkdir_fs.
  destruct w as [[pr t b] v s l p ev o]. simpl in Ho, Hp. subst o pr.
  unfold fs_faiss_load in Hload. simpl in Hload.
  names. run_m. maps.
  destruct (d !! "faiss.index") as [[]|]; destruct (d !! "docstore.json") as [[]|];
    try discriminate; injection Hload as <-; run_m; maps;
    rewrite delete_insert_id by assumption;
    (eexists; split; [reflexivity|]; simpl; repeat split).
Qed.

Section ServerProperties.

Variable chain_call :
  FaissStore -> string -> nat -> result (string * list (Document * option nat)).

(** A query handled while no store is loaded is refused, and nothing but
    the log changes. *)
Lemma post_query_not_loaded (body : QueryRequest) (w : World) :
  vectorStore w = None ->
  exists message statusCode w',
    post_query chain_call body w = (Err (AppError message statusCode), w') /\
    only_logged w w'.
Proof.
  intros Hv. unfold post_query. cbv zeta.
  destruct (is_empty (query body) || is_empty (trim (query body))).
  - eexists _, _, _. split; [reflexivity | apply only_logged_refl].
  - unfold bind at 1. unfold ret at 1.
    unfold bind at 1. unfold log at 1, modify at 1.
    unfold try_catch, getVectorStore, get. unfold bind at 1 2.
    cbn [vectorStore push_event]. rewrite Hv.
    eexists _, _, _. split; [reflexivity|].
    eapply only_logged_trans; [|apply only_logged_event].
    apply only_logged_event.
Qed.

(** The routes do nothing but log: they are within any relation that
    logging is within. *)
Lemma preserves_handle (R : World -> World -> Prop)
    (Hrefl : forall w, R w w)
    (Htrans : forall w1 w2 w3, R w1 w2 -> R w2 w3 -> R w1 w3)
    (Hlog : forall lvl msg data w, R w (push_event (Log lvl msg data) w))
    (s : Server.server) (req : Server.request) :
  preserves R (Server.handle chain_call s req).
Proof.
  assert (object_log : forall lvl msg data, preserves R (log lvl msg data))
    by (intros; apply preserves_log, Hlog).
  unfold Server.handle.
  apply preserves_bind; [exact Htrans | apply object_log |]. intros _.
  destruct req as [| body | | | |].
  - apply preserves_bind; [exact Htrans | | intros h; apply preserves_ret, Hrefl].
    unfold Server.get_health, getStats.
    apply preserves_bind; [exact Htrans | apply preserves_get, Hrefl |].
    intros st. apply preserves_ret, Hrefl.
  - apply preserves_bind; [exact Htrans | | intros r; apply preserves_ret, Hrefl].
    unfold post_query. cbv zeta.
    apply preserves_bind; [exact Htrans | |].
    { apply preserves_if; [apply preserves_throw | apply preserves_ret]; exact Hrefl. }
    intros _.
    apply preserves_bind; [exact Htrans | apply object_log |]. intros _.
    apply preserves_try; [exact Htrans | |].
    + apply preserves_bind; [exact Htrans | |].
      { unfold getVectorStore.
        apply preserves_bind; [exact Htrans | apply preserves_get, Hrefl |].
        intros [v|]; [apply preserves_ret | apply preserves_throw]; exact Hrefl. }
      intros store.
      apply preserves_bind; [exact Htrans | apply preserves_lift, Hrefl |]. intros r.
      cbv zeta.
      apply preserves_bind; [exact Htrans | apply object_log |]. intros _.
      apply preserves_ret, Hrefl.
    + intros e.
      apply preserves_bind; [exact Htrans | apply object_log |]. intros _.
      apply preserves_throw, Hrefl.
  - apply preserves_bind; [exact Htrans | | intros st; apply preserves_ret, Hrefl].
    unfold get_stats_route, getStats.
    apply preserves_bind; [exact Htrans | apply preserves_get, Hrefl |].
    intros [st|];
      [destruct (truthy st); [apply preserves_ret | apply preserves_throw]
      | apply preserves_throw]; exact Hrefl.
  - destruct (post_trigger (Server.crawlerRouter s)) as [[|e] router].
    + apply preserves_bind; [exact Htrans | apply object_log |]. intros _.
      apply preserves_ret, Hrefl.
    + apply preserves_throw, Hrefl.
  - apply preserves_ret, Hrefl.
  - apply preserves_ret, Hrefl.
Qed.

(** The routes never touch the store of the object. *)
Lemma handle_keeps_store (s : Server.server) (req : Server.request) :
  preserves same_object (Server.handle chain_call s req).
Proof. apply preserves_handle; by_same_object. Qed.

(** The routes never replace the watcher of the server. *)
Lemma handle_keeps_watcher (s : Server.server) (req : Server.request) w r w' :
  Server.handle chain_call s req w = (Ok r, w') ->
  Server.indexWatcher (snd r) = Server.indexWatcher s.
Proof.
  unfold Server.handle. intros H.
  apply bind_ok_inv in H as ([] & w1 & _ & H).
  destruct req as [| body | | | |].
  - apply bind_ok_inv in H as (h & w2 & _ & H). injection H as <- _. reflexivity.
  - apply bind_ok_inv in H as (h & w2 & _ & H). injection H as <- _. reflexivity.
  - apply bind_ok_inv in H as (h & w2 & _ & H). injection H as <- _. reflexivity.
  - destruct (post_trigger (Server.crawlerRouter s)) as [[|e] router].
    + apply bind_ok_inv in H as ([] & w2 & _ & H). injection H as <- _. reflexivity.
    + discriminate.
  - injection H as <- _. reflexivity.
  - injection H as <- _. reflexivity.
Qed.

(** A server without a watcher and without a store stays so. *)
Lemma run_without_watcher (evs : list Server.server_event) :
  forall s w,
    Server.indexWatcher s = None -> vectorStore w = None ->
    Server.indexWatcher (fst (Server.run chain_call s evs w)) = None /\
    vectorStore (snd (Server.run chain_call s evs w)) = None.
Proof.
  induction evs as [|ev evs IH]; intros s w Hs Hv; [auto|].
  cbn [Server.run].
  assert (Hstep : vectorStore (snd (Server.step chain_call s ev w)) = None /\
                  forall s', fst (Server.step chain_call s ev w) = Ok s' ->
                             Server.indexWatcher s' = None).
  { destruct ev as [req | f | eventType filename | code]; cbn [Server.step].
    - unfold bind, ret.
      pose proof (handle_keeps_store s req w) as (Hv1 & _).
      destruct (Server.handle chain_call s req w) as [[r|e] w1] eqn:Hh;
        cbn [fst snd] in *.
      + split; [congruence|]. intros s' [= <-].
        rewrite (handle_keeps_watcher s req w r w1 Hh). exact Hs.
      + split; [congruence | discriminate].
    - unfold bind, modify, ret. cbn [fst snd]. split; [exact Hv|].
      intros s' [= <-]. exact Hs.
    - rewrite Hs. unfold ret. cbn [fst snd]. split; [exact Hv|].
      intros s' [= <-]. exact Hs.
    - unfold bind, log, modify, ret.
      destruct (Nat.ltb 0 _); [destruct (Nat.eqb code 0)|]; cbn [fst snd];
        (split; [exact Hv|]); intros s' [= <-]; exact Hs. }
  destruct Hstep as (Hv1 & Hs1).
  destruct (Server.step chain_call s ev w) as [[s'|e] w1]; cbn [fst snd] in *.
  - apply IH; [apply Hs1; reflexivity | exact Hv1].
  - apply IH; assumption.
Qed.

(** X16.  A server that starts without an index never gets one.  When
    [initialize] finds no [docstore.json] at the production path it logs
    its two warnings and creates no watcher.  From then on, whatever
    requests arrive, whatever a crawler (spawned by the server or not)
    writes to the disk, whatever the file system reports: the process
    loads no store, and every query is refused with an [AppError].  An
    index built later is served only by a new process. *)
Theorem server_without_index_never_serves (w : World)
    (evs : list Server.server_event) (body : QueryRequest) :
  vectorStore w = None ->
  fs_exists_file Production docstore_name (fs w) = false ->
  exists w1,
    Server.initialize Server.new w = (Ok Server.new, w1) /\
    fs w1 = fs w /\
    In (Log Warn "FAISS index not found. Please run the crawler first." NoData)
       (events w1) /\
    Server.indexWatcher (fst (Server.run chain_call Server.new evs w1)) = None /\
    vectorStore (snd (Server.run chain_call Server.new evs w1)) = None /\
    exists message statusCode,
      fst (Server.handle chain_call (fst (Server.run chain_call Server.new evs w1))
             (Server.POST_api_query body)
             (snd (Server.run chain_call Server.new evs w1)))
      = Err (AppError message statusCode).
Proof.
  intros Hv Hdoc.
  eexists. split.
  { unfold Server.initialize. apply run_try_ok.
    eapply run_bind; [reflexivity|]. cbv beta.
    eapply run_bind; [reflexivity|]. cbv beta.
    cbn [fs push_event]. rewrite Hdoc, andb_false_r.
    eapply run_bind; [reflexivity|]. cbv beta.
    reflexivity. }
  split; [reflexivity|].
  split; [simpl; auto|].
  match goal with
  | |- context [Server.run chain_call Server.new evs ?w1] =>
      destruct (run_without_watcher evs Server.new w1 eq_refl Hv) as (Hs' & Hv');
      destruct (Server.run chain_call Server.new evs w1) as [s' w'] eqn:Hrun
  end.
  cbn [fst snd] in *. split; [exact Hs'|]. split; [exact Hv'|].
  unfold Server.handle. unfold bind at 1. unfold log at 1, modify at 1.
  destruct (post_query_not_loaded body
              (push_event (Log Info "Incoming request" NoData) w'))
    as (message & statusCode & w2 & Hq & _); [exact Hv'|].
  exists message, statusCode. unfold bind. rewrite Hq. reflexivity.
Qed.

(** X17.  [indexExists] looks for [docstore.json] only, so an index that
    has it but cannot be loaded (no [faiss.index] next to it, or an
    unreadable one) does not make the server start without an index: with
    the lock free and no I/O failure, [initialize] throws the loader's
    error after logging 'Failed to initialize server', and leaves the disk
    and the object as they were. *)
Theorem unreadable_index_fails_startup (s : Server.server) (w : World)
    (d : gmap string blob) (e : error) :
  faults w = [] ->
  production (fs w) = Some d ->
  d !! lock_name = None ->
  is_Some (d !! docstore_name) ->
  fs_faiss_load Production (fs w) = Err e ->
  fst (indexExists w) = Ok true /\
  exists w1,
    Server.initialize s w = (Err e, w1) /\
    fs w1 = fs w /\ vectorStore w1 = vectorStore w /\
    In (Log Error "Failed to initialize server" (WithError (error_message e)))
       (events w1).
Proof.
  intros Ho Hp Hl [x Hdoc] Hload.
  assert (Hex : fs_exists_dir Production (fs w)
                && fs_exists_file Production docstore_name (fs w) = true).
  { unfold fs_exists_dir, fs_exists_file. simpl. rewrite Hp, Hdoc. reflexivity. }
  split; [unfold indexExists, bind, existsSync_dir, existsSync_file, get, ret;
          simpl; rewrite Hex; reflexivity|].
  destruct (load_error_eval
              (push_event (Log Info "Initializing server..." NoData) w) d e
              Ho Hp Hl Hload) as (w1 & Hrun & Hfs & Hv & _).
  eexists. split.
  { unfold Server.initialize. eapply run_try_err; [|reflexivity].
    eapply run_bind; [reflexivity|]. cbv beta.
    eapply run_bind; [reflexivity|]. cbv beta.
    cbn [fs push_event]. rewrite Hex.
    apply run_bind_err. apply run_bind_err. exact Hrun. }
  simpl. rewrite Hfs, Hv. auto.
Qed.

(** X18.  With a readable index at the production path, the lock free and
    no I/O failure, a new server loads the index and starts its watcher.
    [GET /health] then reports [indexLoaded] from the stats, not from the
    store, and the stats are whatever [JSON.parse] made of the sidecar.
    When the index has no sidecar, or one that is not JSON, or one that
    reads [null], the server answers queries from the loaded store while
    [/health] says [indexLoaded: false] and [GET /api/query/stats] answers
    404.  Any other JSON text in [stats.json], whether it describes the
    index or not, makes [/health] say [indexLoaded: true] with that value,
    and [GET /api/query/stats] returns it unless it is a value JavaScript
    takes as false. *)
Theorem server_initialize_with_index (w : World) (d : gmap string blob)
    (g' g : list Document) :
  faults w = [] ->
  production (fs w) = Some d ->
  d !! lock_name = None ->
  d !! faiss_name = Some (FaissIndexFile g') ->
  d !! docstore_name = Some (DocstoreFile g) ->
  stats w = None ->
  exists w1,
    Server.initialize Server.new w
    = (Ok (Server.mkServer (Some (mkIndexWatcher 0 [true])) createCrawlerRouter),
       w1) /\
    fs w1 = fs w /\
    listeners w1 = listeners w ++ [ReloadOnUpdate 0] /\
    fst (getVectorStore w1) = Ok (Indexed g) /\
    fst (Server.get_health w1)
    = Ok (match sidecar_value d with
          | Some v => Server.mkHealth true (Some v)
          | None => Server.mkHealth false None
          end) /\
    fst (get_stats_route w1)
    = match sidecar_value d with
      | Some v =>
          if truthy v then Ok v
          else Err (AppError "Index stats not available" 404)
      | None => Err (AppError "Index stats not available" 404)
      end.
Proof.
  intros Ho Hp Hl Hf Hdoc Hst.
  assert (Hex : fs_exists_dir Production (fs w)
                && fs_exists_file Production docstore_name (fs w) = true).
  { unfold fs_exists_dir, fs_exists_file. simpl. rewrite Hp, Hdoc. reflexivity. }
  destruct (load_eval (push_event (Log Info "Initializing server..." NoData) w)
              d g' g Ho Hp Hl Hf Hdoc)
    as (w1 & Hrun & Hv & Hfs & Hli & Hfa & Hs).
  eexists. split.
  { unfold Server.initialize. apply run_try_ok.
    eapply run_bind; [reflexivity|]. cbv beta.
    eapply run_bind; [reflexivity|]. cbv beta.
    cbn [fs push_event]. rewrite Hex.
    eapply run_bind.
    { eapply run_bind; [exact Hrun|]. cbv beta.
      eapply run_bind; [reflexivity|]. cbv beta.
      eapply run_bind; [|reflexivity].
      apply start_run. cbn [fs push_event]. rewrite Hfs.
      unfold fs_exists_dir. simpl. rewrite Hp. reflexivity. }
    cbv beta. eapply run_bind; [reflexivity|]. reflexivity. }
  cbn [fs listeners vectorStore stats push_event set_listeners watcher_id] in *.
  split; [exact Hfs|]. split; [rewrite Hli; reflexivity|].
  split; [unfold getVectorStore, bind, get; simpl; rewrite Hv; reflexivity|].
  assert (Hside : stats w1 = sidecar_value d).
  { rewrite Hs, Hst. unfold sidecar_value.
    destruct (d !! stats_name) as [[| | | |[]|]|]; reflexivity. }
  unfold Server.get_health, get_stats_route, getStats, bind, get, ret. simpl.
  rewrite Hside.
  destruct (sidecar_value d) as [v|]; [destruct (truthy v)|]; auto.
Qed.

(** The callback of the file watcher, run any number of times on a disk
    that holds a readable generation, leaves that generation loaded. *)
Lemma callbacks_reload (iw : IndexWatcher) (d : gmap string blob)
    (g' g : list Document) (ws : list bool) :
  d !! lock_name = None ->
  d !! faiss_name = Some (FaissIndexFile g') ->
  d !! docstore_name = Some (DocstoreFile g) ->
  forall w,
    faults w = [] ->
    production (fs w) = Some d ->
    exists w',
      for_each ws
        (fun _ =>
           if String.eqb "stats.json" "stats.json" && String.eqb "change" "change"
           then on_fs_event iw "change" "stats.json" ;; reload
           else ret tt) w = (Ok tt, w') /\
      faults w' = [] /\ fs w' = fs w /\
      (ws <> [] -> vectorStore w' = Some (Indexed g)).
Proof.
  intros Hl Hf Hdoc.
  induction ws as [|x ws IH]; intros w Ho Hp.
  - exists w. simpl. repeat split; congruence.
  - cbn [for_each].
    change (String.eqb "stats.json" "stats.json" && String.eqb "change" "change")
      with true. cbv iota.
    unfold on_fs_event.
    change (String.eqb "stats.json" "stats.json" && String.eqb "change" "change")
      with true. cbv iota.
    unfold bind at 1. unfold bind at 1. unfold bind at 1.
    unfold log at 1, modify at 1, modify at 1.
    rewrite reload_run.
    match goal with
    | |- context [load ?w0] =>
        destruct (load_eval w0 d g' g Ho Hp Hl Hf Hdoc)
          as (w1 & Hrun & Hv & Hfs1 & _ & Hfa1 & _)
    end.
    rewrite Hrun.
    match goal with
    | |- context [for_each ws _ ?w2] =>
        destruct (IH w2) as (w' & Hrest & Hfa' & Hfs' & Hv');
        [exact Hfa1 | cbn [fs push_event]; rewrite Hfs1; exact Hp |]
    end.
    exists w'. split; [exact Hrest|]. split; [exact Hfa'|].
    split; [rewrite Hfs'; exact Hfs1|].
    intros _. destruct ws as [|y ws]; [|apply Hv'; discriminate].
    simpl in Hrest. injection Hrest as <-. exact Hv.
Qed.

(** X19.  The file watcher of a running server.  A 'change' reported for
    [stats.json] makes the server load what is at the production path at
    that moment: when a readable generation is there (lock free, no I/O
    failure), that generation is the one served afterwards.  A report for
    any other file, or of any other kind, changes nothing. *)
Theorem watch_event_reloads (s : Server.server) (iw : IndexWatcher) (w : World)
    (f : FS) (d : gmap string blob) (g' g : list Document)
    (eventType filename : string) :
  Server.indexWatcher s = Some iw ->
  watcher iw = Some true ->
  faults w = [] ->
  production f = Some d ->
  d !! lock_name = None ->
  d !! faiss_name = Some (FaissIndexFile g') ->
  d !! docstore_name = Some (DocstoreFile g) ->
  (fst (getVectorStore
          (snd (Server.run chain_call s
                  [Server.DiskChanged f; Server.WatchEvent "change" "stats.json"] w)))
   = Ok (Indexed g)) /\
  (String.eqb filename "stats.json" && String.eqb eventType "change" = false ->
   Server.step chain_call s (Server.WatchEvent eventType filename) w = (Ok s, w)).
Proof.
  intros Hs Hw Ho Hp Hl Hf Hdoc.
  destruct iw as [id [|open older]]; [discriminate|].
  injection Hw as ->. split.
  - cbn [Server.run Server.step]. unfold bind at 1. unfold modify at 1, ret at 1.
    rewrite Hs. unfold Server.watch_callback. cbn [fswatchers List.filter].
    match goal with
    | |- context [bind (for_each ?ws _) _ ?w0] =>
        destruct (callbacks_reload (mkIndexWatcher id (true :: older)) d g' g ws
                    Hl Hf Hdoc w0 Ho Hp) as (w1 & Hrun & _ & _ & Hv)
    end.
    unfold bind at 1. rewrite Hrun. unfold ret. cbn [fst snd Server.run].
    unfold getVectorStore, bind, get. rewrite Hv by discriminate. reflexivity.
  - intros Hother. cbn [Server.step]. rewrite Hs.
    unfold Server.watch_callback. rewrite Hother.
    generalize (List.filter (fun open : bool => open)
                  (fswatchers (mkIndexWatcher id (true :: older)))) as ws.
    intros ws. unfold bind.
    assert (Hnone : forall w0, for_each ws (fun _ : bool => ret tt) w0 = (Ok tt, w0)).
    { induction ws as [|x ws IH]; intros w0; [reflexivity|].
      cbn [for_each]. unfold bind, ret. apply IH. }
    rewrite Hnone. reflexivity.
Qed.

(** X20.  Handling a request only logs.  Whatever the request and the
    state, and whether the handler answers or throws, it leaves the disk,
    the store and the stats of the object, its listeners and the oracle
    as they were: no route reads or writes the index directories, and
    none loads or saves. *)
Theorem requests_only_log (s : Server.server) (req : Server.request) (w : World) :
  only_logged w (snd (Server.handle chain_call s req w)).
Proof. apply preserves_handle; by_only_logged. Qed.


(** X21.  What the caller of [POST /api/query] gets, in every state.  A
    query that is empty or made of white space only (the white space of
    [trim], U+00A0 included) is rejected with
    [AppError('Query is required', 400)] before anything is logged.  Any
    other query gets the answer of the chain, with one source per
    retrieved document, in order; or, when no store is loaded or the chain
    fails, for whatever reason, [AppError('Failed to process query', 500)]
    and nothing else. *)
Theorem query_outcome (body : QueryRequest) (w : World) :
  if blank (query body)
  then post_query chain_call body w = (Err (AppError "Query is required" 400), w)
  else
    fst (post_query chain_call body w) =
      match vectorStore w with
      | Some store =>
          match chain_call store (query body) (default 4 (topK body)) with
          | Ok r => Ok (mkQueryResponse (fst r) (map format_source (snd r)))
          | Err _ => Err (AppError "Failed to process query" 500)
          end
      | None => Err (AppError "Failed to process query" 500)
      end.
Proof.
  unfold post_query. cbv zeta.
  assert (Hblank : (is_empty (query body) || is_empty (trim (query body)))
                   = blank (query body)).
  { rewrite is_empty_trim. destruct (query body); reflexivity. }
  rewrite Hblank. destruct (blank (query body)); [reflexivity|].
  unfold bind at 1. unfold ret at 1.
  unfold bind at 1. unfold log at 1, modify at 1.
  unfold try_catch, getVectorStore, get. unfold bind at 1 2.
  cbn [vectorStore push_event].
  destruct (vectorStore w) as [store|]; [|reflexivity].
  unfold ret at 1. unfold bind at 1. unfold lift.
  destruct (chain_call store (query body) (default 4 (topK body))); reflexivity.
Qed.

End ServerProperties.

Lemma server_without_index_never_serves_witness :
  exists w1 message statusCode,
    Server.initialize Server.new (fresh empty_disk 7 []) = (Ok Server.new, w1) /\
    fst (Server.handle no_chain
           (fst (Server.run no_chain Server.new
                   [Server.DiskChanged disk_old;
                    Server.WatchEvent "change" "stats.json"] w1))
           (Server.POST_api_query sample_query)
           (snd (Server.run no_chain Server.new
                   [Server.DiskChanged disk_old;
                    Server.WatchEvent "change" "stats.json"] w1)))
    = Err (AppError message statusCode).
Proof.
  destruct (server_without_index_never_serves no_chain (fresh empty_disk 7 [])
              [Server.DiskChanged disk_old; Server.WatchEvent "change" "stats.json"]
              sample_query)
    as (w1 & Hinit & _ & _ & _ & _ & message & statusCode & H);
    [reflexivity | reflexivity |].
  exists w1, message, statusCode. split; [exact Hinit | exact H].
Defined.

Lemma unreadable_index_fails_startup_witness :
  exists w1,
    Server.initialize Server.new (fresh torn_disk 7 []) = (Err (FsError ENOENT), w1).
Proof.
  destruct (unreadable_index_fails_startup Server.new (fresh torn_disk 7 [])
              torn_dir (FsError ENOENT)) as (_ & w1 & H & _);
    [reflexivity | reflexivity | reflexivity | eexists; reflexivity | reflexivity |].
  exists w1. exact H.
Defined.

Lemma server_initialize_with_index_witness :
  (exists w1,
     Server.initialize Server.new
       (fresh (mkFS (Some (index_files docs_new)) None None) 7 [])
     = (Ok (Server.mkServer (Some (mkIndexWatcher 0 [true])) createCrawlerRouter),
        w1) /\
     fst (getVectorStore w1) = Ok gen_new /\
     fst (Server.get_health w1) = Ok (Server.mkHealth false None)) /\
  (exists w1,
     Server.initialize Server.new
       (fresh (mkFS (Some (<[stats_name := JsonText (JNumber 7)]>
                             (index_files docs_new))) None None) 7 [])
     = (Ok (Server.mkServer (Some (mkIndexWatcher 0 [true])) createCrawlerRouter),
        w1) /\
     fst (Server.get_health w1)
     = Ok (Server.mkHealth true (Some (Parsed (JsonText (JNumber 7)))))).
Proof.
  split.
  - destruct (server_initialize_with_index
                (fresh (mkFS (Some (index_files docs_new)) None None) 7 [])
                (index_files docs_new) docs_new docs_new)
      as (w1 & H1 & _ & _ & H2 & H3 & _);
      [reflexivity | reflexivity | reflexivity | reflexivity | reflexivity
      | reflexivity |].
    exists w1. split; [exact H1|]. split; [exact H2 | exact H3].
  - destruct (server_initialize_with_index
                (fresh (mkFS (Some (<[stats_name := JsonText (JNumber 7)]>
                                      (index_files docs_new))) None None) 7 [])
                (<[stats_name := JsonText (JNumber 7)]> (index_files docs_new))
                docs_new docs_new)
      as (w1 & H1 & _ & _ & _ & H3 & _);
      [reflexivity | reflexivity | reflexivity | reflexivity | reflexivity
      | reflexivity |].
    exists w1. split; [exact H1 | exact H3].
Defined.

Lemma watch_event_reloads_witness :
  fst (getVectorStore
         (snd (Server.run no_chain
                 (Server.mkServer (Some (mkIndexWatcher 0 [true]))
                    createCrawlerRouter)
                 [Server.DiskChanged (mkFS (Some (generation_dir docs_new stats_new))
                                        None None);
                  Server.WatchEvent "change" "stats.json"]
                 stale_reader)))
  = Ok gen_new.
Proof.
  destruct (watch_event_reloads no_chain
              (Server.mkServer (Some (mkIndexWatcher 0 [true])) createCrawlerRouter)
              (mkIndexWatcher 0 [true]) stale_reader
              (mkFS (Some (generation_dir docs_new stats_new)) None None)
              (generation_dir docs_new stats_new) docs_new docs_new "rename" ".lock")
    as (H & _);
    [reflexivity | reflexivity | reflexivity | reflexivity | reflexivity
    | reflexivity | reflexivity | exact H].
Defined.

(** ** [Indexer]: chunks and the documents of a store *)

Section IndexerProperties.

Variable splitText : string -> result (list string).

(** X22.  [chunkDocument] adds the numbering to what the splitter returns
    and nothing else: one chunk per segment, in the splitter's order; chunk
    [i] carries segment [i] as its content, [chunkIndex = i], [totalChunks]
    equal to the number of segments of this document, and the id, file name
    and URL of the document; it logs the split at debug level and changes
    nothing else.  When the splitter throws, [chunkDocument] logs 'Failed
    to chunk document' and rethrows the same error. *)
Theorem chunks_are_numbered (doc : ProcessedDocument) (w : World) :
  match splitText (pd_content doc) with
  | Ok segments =>
      exists chunks,
        chunkDocument splitText doc w
        = (Ok chunks, push_event (Log Debug "Split into chunks" NoData) w) /\
        map content chunks = segments /\
        forall i segment,
          segments !! i = Some segment ->
          chunks !! i
          = Some (mkDocumentChunk segment
                    (mkChunkMetadata (doc_id (pd_metadata doc))
                       (doc_filename (pd_metadata doc)) (doc_url (pd_metadata doc))
                       i (length segments)))
  | Err e =>
      chunkDocument splitText doc w
      = (Err e, push_event (Log Error "Failed to chunk document"
                              (WithError (error_message e))) w)
  end.
Proof.
  destruct (splitText (pd_content doc)) as [segments|e] eqn:Hs.
  - exists (make_chunks doc segments).
    split; [apply chunkDocument_eval, Hs|].
    destruct (make_chunks_indexed doc segments) as (_ & Hc & Hi). auto.
  - unfold chunkDocument, try_catch, bind, lift. rewrite Hs. reflexivity.
Qed.

(** Adding to a new store is building it from the whole. *)
Lemma store_add_fromDocuments (a b : list Document) :
  store_add (fromDocuments a) b = fromDocuments (a ++ b).
Proof. destruct a, b; simpl; rewrite ?app_nil_r; reflexivity. Qed.

(** What [addDocuments] hands to the store when nothing fails. *)
Lemma addDocuments_eval store pds w :
  faults w = [] ->
  forallb (splits splitText) pds = true ->
  exists w',
    addDocuments splitText store pds w
    = (Ok (store_add store (flat_map (chunks_of splitText) pds),
           map (chunked splitText) pds), w') /\
    fs w' = fs w /\ faults w' = [].
Proof.
  intros Ho Hs.
  pose (W0 := push_event (Log Info "Adding documents to existing index" NoData) w).
  pose proof (chunk_all_cases splitText pds W0) as Hr.
  destruct (chunk_all splitText pds W0) as [[r|e] w1] eqn:Hchunk;
    [|destruct Hr as (_ & Hr); congruence].
  destruct Hr as ((Hfs1 & _ & Hfa1) & _ & ->).
  assert (Ho1 : faults w1 = []) by (rewrite Hfa1; exact Ho).
  eexists. split.
  { unfold addDocuments. apply run_try_ok.
    eapply run_bind; [reflexivity|]. cbv beta.
    eapply run_bind; [exact Hchunk|]. cbv beta.
    eapply run_bind; [apply run_external; exact Ho1|]. cbv beta.
    eapply run_bind; [reflexivity|]. reflexivity. }
  split; [exact Hfs1 | exact Ho1].
Qed.

(** X23.  Adding to an index gives the index of the whole.  When nothing
    fails (no I/O failure, the splitter accepts every text), the documents
    held by the store after [createIndex] on a first batch followed by
    [addDocuments] on a second one are those held after [createIndex] on
    the two batches together, in the same order; and [addDocuments] on no
    document leaves the store as it is. *)
Theorem incremental_equals_batch (first second : list ProcessedDocument) (w : World) :
  faults w = [] ->
  forallb (splits splitText) (first ++ second) = true ->
  exists store1 docs1 w1 store12 docs2 w2 docs12 w3,
    createIndex splitText first w = (Ok (store1, docs1), w1) /\
    addDocuments splitText store1 second w1 = (Ok (store12, docs2), w2) /\
    createIndex splitText (first ++ second) w = (Ok (store12, docs12), w3) /\
    docs12 = docs1 ++ docs2 /\
    fst (addDocuments splitText store12 [] w2) = Ok (store12, []).
Proof.
  intros Ho Hs.
  destruct (createIndex_eval splitText (first ++ second) w Ho) as (w3 & _ & Hc3).
  rewrite Hs in Hc3.
  rewrite forallb_app in Hs. apply andb_prop in Hs as [H1 H2].
  destruct (createIndex_eval splitText first w Ho) as (w1 & (_ & _ & Ho1) & Hc1).
  rewrite H1 in Hc1. rewrite Ho in Ho1.
  destruct (addDocuments_eval (fromDocuments (flat_map (chunks_of splitText) first))
              second w1 Ho1 H2) as (w2 & Ha & _ & Ho2).
  destruct (addDocuments_eval
              (store_add (fromDocuments (flat_map (chunks_of splitText) first))
                 (flat_map (chunks_of splitText) second)) [] w2 Ho2 eq_refl)
    as (w4 & Ha4 & _).
  eexists _, _, w1, _, _, w2, _, w3.
  split; [exact Hc1|]. split; [exact Ha|].
  split; [rewrite Hc3, flat_map_app, store_add_fromDocuments; reflexivity|].
  split; [apply map_app|].
  rewrite Ha4. reflexivity.
Qed.

End IndexerProperties.

Lemma incremental_equals_batch_witness :
  exists store1 docs1 w1 store12 docs2 w2,
    createIndex split_at_spaces [sample_processed] (fresh empty_disk 7 [])
    = (Ok (store1, docs1), w1) /\
    addDocuments split_at_spaces store1 [sample_processed] w1
    = (Ok (store12, docs2), w2) /\
    length (store_docs store12) = 6.
Proof.
  destruct (incremental_equals_batch split_at_spaces [sample_processed]
              [sample_processed] (fresh empty_disk 7 []))
    as (store1 & docs1 & w1 & store12 & docs2 & w2 & docs12 & w3
        & H1 & H2 & H3 & _); [reflexivity | reflexivity |].
  exists store1, docs1, w1, store12, docs2, w2.
  split; [exact H1|]. split; [exact H2|].
  assert (Hc : createIndex split_at_spaces ([sample_processed] ++ [sample_processed])
                 (fresh empty_disk 7 [])
               = (Ok (fromDocuments
                        (flat_map (chunks_of split_at_spaces)
                           [sample_processed; sample_processed]),
                      map (chunked split_at_spaces)
                        [sample_processed; sample_processed]),
                  snd (createIndex split_at_spaces
                         ([sample_processed] ++ [sample_processed])
                         (fresh empty_disk 7 [])))) by reflexivity.
  rewrite Hc in H3. injection H3 as <- _ _. reflexivity.
Defined.

(** ** [save]: a failure between the two renames *)





